(** * VedicAstro, [vedicastro/horary_chart.py]: horary ascendant search

    A shallow embedding of the module, the properties of its
    specification, and further properties of the code.  Python [float]s
    are IEEE-754 binary64 numbers and are modelled by Rocq's primitive
    floats; Python [int]s are [Z]; the
    Swiss Ephemeris binding ([swisseph]) is an external collaborator, an
    interface of which every property is independent; the calls made to
    it, and the lines printed, are recorded in a trace.  The [while] loop
    takes fuel: a run that is out of fuel has diverged. *)

From Stdlib Require Import ZArith Floats Lia Bool.
From stdpp Require Import base option list gmap strings.

Set Warnings "-inexact-float".
Set Default Proof Using "Type".

Open Scope float_scope.

(** ** Python values and exceptions *)

Inductive exn : Type :=
| UnknownAyanamsa   (* the ephemeris rejects the sidereal mode *)
| SweError          (* swisseph.Error raised by a library call *)
| ValueError
| OverflowError
| IndexError
| KeyError.

(** What a call produces: a value, an exception, or nothing because the
    fuel of the model ran out before the loop ended. *)
Inductive outcome (A : Type) : Type :=
| Returned (a : A)
| Raised (e : exn)
| Diverged.
Arguments Returned {A} a.
Arguments Raised {A} e.
Arguments Diverged {A}.

(** The tuple [(year, month, day, hour, minute, seconds)] that the
    ephemeris exchanges, seconds being a float. *)
Record civil : Type := Civil {
  c_year : Z; c_month : Z; c_day : Z;
  c_hour : Z; c_minute : Z; c_seconds : float }.

(** [datetime.datetime], naive. *)
Record datetime : Type := DateTime {
  dt_year : Z; dt_month : Z; dt_day : Z;
  dt_hour : Z; dt_minute : Z; dt_second : Z; dt_microsecond : Z }.

(** ** Python arithmetic on floats *)

(** [float(n)] for an [int]: correctly rounded. *)
Definition py_float_of_int (n : Z) : float :=
  SF2Prim (binary_normalize prec emax n 0 false).

(** [int(x)]: truncation towards zero; NaN and the infinities raise. *)
Definition py_int (x : float) : exn + Z :=
  match Prim2SF x with
  | S754_zero _ => inr 0%Z
  | S754_finite s m e => inr (cond_Zopp s (Z.shiftl (Z.pos m) e))
  | S754_infinity _ => inl OverflowError
  | S754_nan => inl ValueError
  end.

(** [x % 1]: [fmod x 1] is exact and has the sign of [x]; Python adds the
    divisor when the signs differ and answers [+0.0] for a zero remainder. *)
Definition py_mod1 (x : float) : float :=
  match Prim2SF x with
  | S754_nan | S754_infinity _ => nan
  | S754_zero _ => 0
  | S754_finite s m e =>
      let r := Z.land (Z.pos m) (Z.ones (- e)) in
      if (0 <=? e)%Z || (r =? 0)%Z then 0
      else
        let fm := SF2Prim (binary_normalize prec emax (cond_Zopp s r) e false) in
        if s then fm + 1 else fm
  end.

(** ** [datetime(year, month, day, hour, minute, second, microsecond)] *)

Definition is_leap (y : Z) : bool :=
  ((y mod 4 =? 0) && (negb (y mod 100 =? 0) || (y mod 400 =? 0)))%Z.

Definition days_in_month (y m : Z) : Z :=
  if (m =? 2)%Z then (if is_leap y then 29 else 28)%Z
  else if ((m =? 4) || (m =? 6) || (m =? 9) || (m =? 11))%Z then 30%Z
  else 31%Z.

Definition between (lo x hi : Z) : bool := ((lo <=? x) && (x <=? hi))%Z.

(** The constructor takes its fields as C ints: a field that does not fit
    one raises OverflowError before any range is looked at; a field that
    fits and is out of its range raises ValueError. *)
Definition fits_c_int (n : Z) : bool := between (-2147483648) n 2147483647.

Definition datetime_new (y mo d h mi s us : Z) : exn + datetime :=
  if negb (fits_c_int y && fits_c_int mo && fits_c_int d && fits_c_int h
           && fits_c_int mi && fits_c_int s && fits_c_int us)
  then inl OverflowError
  else if between 1 y 9999 && between 1 mo 12 && between 1 d (days_in_month y mo)
          && between 0 h 23 && between 0 mi 59 && between 0 s 59
          && between 0 us 999999
  then inr (DateTime y mo d h mi s us)
  else inl ValueError.

(** ** Global constants *)

(** The sidereal modes of the ephemeris that the module names. *)
Inductive sidm : Type :=
| SIDM_KRISHNAMURTI
| SIDM_KRISHNAMURTI_VP291
| SIDM_LAHIRI_1940
| SIDM_LAHIRI_VP285
| SIDM_LAHIRI_ICRC
| SIDM_RAMAN
| SIDM_YUKTESHWAR.

Definition SWE_AYANAMAS_items : list (string * sidm) :=
  [ ("Krishnamurti", SIDM_KRISHNAMURTI);
    ("Krishnamurti_New", SIDM_KRISHNAMURTI_VP291);
    ("Lahiri_1940", SIDM_LAHIRI_1940);
    ("Lahiri_VP285", SIDM_LAHIRI_VP285);
    ("Lahiri_ICRC", SIDM_LAHIRI_ICRC);
    ("Raman", SIDM_RAMAN);
    ("Yukteshwar", SIDM_YUKTESHWAR) ]%string.

Definition SWE_AYANAMAS : gmap string sidm := list_to_map SWE_AYANAMAS_items.

Definition sign_order_items : list (string * Z) :=
  [ ("Aries", 0); ("Taurus", 30); ("Gemini", 60); ("Cancer", 90);
    ("Leo", 120); ("Virgo", 150); ("Libra", 180); ("Scorpio", 210);
    ("Sagittarius", 240); ("Capricorn", 270); ("Aquarius", 300);
    ("Pisces", 330) ]%string%Z.

Definition sign_order : gmap string Z := list_to_map sign_order_items.

(** ** The trace and the monad of the module's functions *)

Inductive event : Type :=
| SetSidMode (mode : sidm)
| UtcTimeZone (c : civil) (offset : float)
| UtcToJd (c : civil)
| Jdut1ToUtc (jd : float)
| HousesEx (jd lat lon : float)
| PrintMatched (dt : datetime) (asc : float)
| PrintNoMatch.

(** The process-wide state: the sidereal mode the ephemeris is configured
    with, and what happened so far, the latest event first. *)
Record world : Type := World { sid_mode : option sidm; trace : list event }.

Definition M (A : Type) : Type := world → outcome A * world.

Definition ret {A} (a : A) : M A := λ w, (Returned a, w).

Definition raise {A} (e : exn) : M A := λ w, (Raised e, w).

Definition bind {A B} (m : M A) (k : A → M B) : M B :=
  λ w, match m w with
       | (Returned a, w') => k a w'
       | (Raised e, w') => (Raised e, w')
       | (Diverged, w') => (Diverged, w')
       end.

#[global] Instance M_ret : MRet M := @ret.
#[global] Instance M_bind : MBind M := λ A B k m, bind m k.

Definition lift {A} (r : exn + A) : M A :=
  match r with inl e => raise e | inr a => ret a end.

Definition log (ev : event) : M unit :=
  λ w, (Returned tt, World (sid_mode w) (ev :: trace w)).

Definition configured_mode : M (option sidm) := λ w, (Returned (sid_mode w), w).

(** The instants at which the house cusps were asked for, the latest
    first. *)
Definition houses_calls (tr : list event) : list float :=
  omap (λ ev, match ev with HousesEx jd _ _ => Some jd | _ => None end) tr.

(** ** The external collaborators *)

(** The functions of [swisseph] that the module calls.  Each may raise.
    [swe_houses_ex] is the Placidus, sidereal call of the module
    ([b'P'], [FLG_SIDEREAL]); it yields the tuple of cusps and depends on
    the sidereal mode the library is configured with. *)
Class Swisseph : Type := {
  swe_utc_time_zone : civil → float → exn + civil;
  swe_utc_to_jd : civil → exn + (float * float);
  swe_jdut1_to_utc : float → exn + civil;
  swe_houses_ex : option sidm → float → float → float → exn + list float }.

(** A line of [data/KP_SL_Divisions.csv]: the columns the module reads. *)
Record csv_row : Type := CsvRow {
  csv_Sign : string; csv_From_DMS : string; csv_To_DMS : string }.

(** The data file and the parser of [vedicastro/utils.py] that turns an
    angle written [d:m:s] into decimal degrees. *)
Class Divisions : Type := {
  csv_rows : list csv_row;
  dms_to_decdeg : string → float }.

(** A row of [KP_SL_DMS_DATA].  The integer renderings [From_DMS_int] and
    [To_DMS_int] of the table are read by no function of the module and
    are left out. *)
Record kp_row : Type := KpRow {
  SL_Div_Nr : Z; Sign : string; From_DMS : string; To_DMS : string;
  From_DecDeg : float; To_DecDeg : float }.

(** What [get_horary_ascendant_degree] hands back: the dictionary of the
    row with its added key, or a string. *)
Record horary_data : Type := HoraryData {
  h_Sign : string; h_From_DMS : string; h_From_DecDeg : float;
  ZodiacDegreeLocation : float }.

Inductive py_value : Type :=
| PyDict (data : horary_data)
| PyStr (s : string).

Section Table.
Context {kp : Divisions}.

(** Rows are numbered from 1 in file order ([pl.arange(1, height + 1)]). *)
Definition KP_SL_DMS_DATA : list kp_row :=
  imap (λ i r, KpRow (Z.of_nat i + 1) (csv_Sign r) (csv_From_DMS r) (csv_To_DMS r)
                     (dms_to_decdeg (csv_From_DMS r)) (dms_to_decdeg (csv_To_DMS r)))
       csv_rows.

Definition get_horary_ascendant_degree (horary_number : Z) : outcome py_value :=
  if ((1 <=? horary_number) && (horary_number <=? 249))%Z then
    let row := filter (λ r, SL_Div_Nr r = horary_number) KP_SL_DMS_DATA in
    match row !! 0%nat with
    | None => Raised IndexError
    | Some data =>
        match sign_order !! Sign data with
        | None => Raised KeyError
        | Some sign_start_degree =>
            let zodiac_degree_location :=
              py_float_of_int sign_start_degree + From_DecDeg data in
            Returned (PyDict (HoraryData (Sign data) (From_DMS data) (From_DecDeg data)
                                         zodiac_degree_location))
        end
    end
  else
    Returned (PyStr "SL Div Nr. out of range. Please provide a number between 1 and 249.").

End Table.

Section Search.
Context {swe : Swisseph}.

(** Modelled from the spec: [swe.set_sid_mode] is a function of the external
    ephemeris library, absent from the repository.  The spec gives its
    contract (4.3): a recognised mode becomes the frame of the later
    ascendant computations; an unrecognised name, which reaches the call as
    the [None] that [dict.get] answers, fails with UnknownAyanamsa. *)
Definition set_sid_mode (mode : option sidm) : M unit :=
  match mode with
  | None => raise UnknownAyanamsa
  | Some m => λ w, (Returned tt, World (Some m) (SetSidMode m :: trace w))
  end.

Definition utc_time_zone (c : civil) (offset : float) : M civil :=
  log (UtcTimeZone c offset) ;; lift (swe_utc_time_zone c offset).

Definition utc_to_jd (c : civil) : M (float * float) :=
  log (UtcToJd c) ;; lift (swe_utc_to_jd c).

Definition jdut1_to_utc (jd : float) : M civil :=
  log (Jdut1ToUtc jd) ;; lift (swe_jdut1_to_utc jd).

Definition houses_ex (jd lat lon : float) : M (list float) :=
  log (HousesEx jd lat lon) ;;
  mode ← configured_mode;
  lift (swe_houses_ex mode jd lat lon).

Definition jd_to_datetime (jdt tz_offset : float) : M datetime :=
  utc ← jdut1_to_utc jdt;
  local ← utc_time_zone utc (- tz_offset);
  let seconds := c_seconds local in
  microseconds ← lift (py_int (py_mod1 seconds * 1000000));
  second ← lift (py_int seconds);
  lift (datetime_new (c_year local) (c_month local) (c_day local)
                     (c_hour local) (c_minute local) second microseconds).

(** What [jd_to_datetime] computes, without the trace. *)
Definition local_time (jdt tz_offset : float) : exn + datetime :=
  match swe_jdut1_to_utc jdt with
  | inl e => inl e
  | inr utc =>
      match swe_utc_time_zone utc (- tz_offset) with
      | inl e => inl e
      | inr local =>
          match py_int (py_mod1 (c_seconds local) * 1000000) with
          | inl e => inl e
          | inr microseconds =>
              match py_int (c_seconds local) with
              | inl e => inl e
              | inr second =>
                  datetime_new (c_year local) (c_month local) (c_day local)
                               (c_hour local) (c_minute local) second microseconds
              end
          end
      end
  end.

(** The test of line 87. *)
Definition matches (asc_lon_deg horary_asc_deg : float) : bool :=
  abs (asc_lon_deg - horary_asc_deg) <? 0.0001.

(** The increment of line 90, one tenth of a second in days. *)
Definition increment : float := 1 / 864000.

(** The [while] loop of lines 83-90, and the two lines after it. *)
Fixpoint scan (fuel : nat) (utc_offset lat lon horary_asc_deg jd_end current_time : float)
  : M (option datetime) :=
  match fuel with
  | O => λ w, (Diverged, w)
  | S fuel' =>
      if current_time <=? jd_end then
        current_time_dt ← jd_to_datetime current_time utc_offset;
        cusps ← houses_ex current_time lat lon;
        asc_lon_deg ← lift (from_option inr (inl IndexError) (cusps !! 0%nat));
        if matches asc_lon_deg horary_asc_deg then
          log (PrintMatched current_time_dt asc_lon_deg) ;;
          matched ← jd_to_datetime current_time utc_offset;
          mret (Some matched)
        else
          scan fuel' utc_offset lat lon horary_asc_deg jd_end (current_time + increment)
      else
        log PrintNoMatch ;; mret None
  end.

Definition find_exact_ascendant_time (fuel : nat) (year month day : Z)
    (utc_offset lat lon horary_asc_deg : float) (ayanamsa : string)
  : M (option datetime) :=
  set_sid_mode (SWE_AYANAMAS !! ayanamsa) ;;
  utc ← utc_time_zone (Civil year month day 0 0 0) utc_offset;
  jds ← utc_to_jd utc;
  let jd_start := jds.1 in
  let jd_end := jd_start + 1 in
  scan fuel utc_offset lat lon horary_asc_deg jd_end jd_start.

End Search.

Arguments matches : simpl never.
Arguments increment : simpl never.

(** ** The vocabulary of the properties *)

Definition to_outcome {A} (r : exn + A) : outcome A :=
  match r with inl e => Raised e | inr a => Returned a end.

(** [m] returns [a] whenever the ephemeris is configured with [mode]. *)
Definition returns_in {A} (mode : option sidm) (m : M A) (a : A) : Prop :=
  ∀ w, sid_mode w = mode → (m w).1 = Returned a.

(** The [k]-th candidate instant of a scan that starts at [jd_start]. *)
Definition instant (jd_start : float) (k : nat) : float :=
  Nat.iter k (λ current_time, current_time + increment) jd_start.

(** Civil midnight of the request is converted to [jd_start] under the
    recognised sidereal mode [mode]. *)
Definition setup `{Swisseph} (year month day : Z) (utc_offset : float)
    (ayanamsa : string) (mode : sidm) (jd_start : float) : Prop :=
  SWE_AYANAMAS !! ayanamsa = Some mode ∧
  ∃ utc jd_ut,
    swe_utc_time_zone (Civil year month day 0 0 0) utc_offset = inr utc ∧
    swe_utc_to_jd utc = inr (jd_start, jd_ut).

(** The loop reaches [t] inside the window, converts it to [dt], reads the
    ascendant [asc], and the test of line 87 answers [hit]. *)
Definition probe `{Swisseph} (mode : sidm) (utc_offset lat lon horary_asc_deg jd_end : float)
    (t : float) (dt : datetime) (asc : float) (hit : bool) : Prop :=
  (t <=? jd_end) = true ∧
  returns_in (Some mode) (jd_to_datetime t utc_offset) dt ∧
  (∃ cusps, returns_in (Some mode) (houses_ex t lat lon) cusps ∧ cusps !! 0%nat = Some asc) ∧
  matches asc horary_asc_deg = hit.

(** The loop reaches [t] inside the window, converts it to [dt] and reads
    the ascendant [asc] there: lines 83 to 86. *)
Definition reading `{Swisseph} (mode : sidm) (utc_offset lat lon jd_end : float)
    (t : float) (dt : datetime) (asc : float) : Prop :=
  (t <=? jd_end) = true ∧
  returns_in (Some mode) (jd_to_datetime t utc_offset) dt ∧
  (∃ cusps, returns_in (Some mode) (houses_ex t lat lon) cusps ∧ cusps !! 0%nat = Some asc).

(** The round trip of a civil time [c]: to the Julian day as lines 78 and
    79 do, keeping the first component of the pair that [utc_to_jd]
    answers, and back as [jd_to_datetime] does.  It is what the search
    makes of local midnight at the first turn of its loop (line 84). *)
Definition civil_round_trip `{Swisseph} (c : civil) (utc_offset : float) : M datetime :=
  utc ← utc_time_zone c utc_offset;
  jds ← utc_to_jd utc;
  jd_to_datetime jds.1 utc_offset.

(** The instants probed by the first [n] turns, the latest first. *)
Definition probed (jd_start : float) (n : nat) : list float :=
  rev (map (instant jd_start) (seq 0 n)).

(** [m] raises [e] whenever the ephemeris is configured with [mode]. *)
Definition raises_in {A} (mode : option sidm) (m : M A) (e : exn) : Prop :=
  ∀ w, sid_mode w = mode → (m w).1 = Raised e.

(** The calls of [jd_to_datetime] at [t], the latest first: the second is
    not made when the first fails. *)
Definition conversion_events `{Swisseph} (utc_offset t : float) : list event :=
  match swe_jdut1_to_utc t with
  | inr utc => [UtcTimeZone utc (- utc_offset); Jdut1ToUtc t]
  | inl _ => [Jdut1ToUtc t]
  end.

(** The calls of a turn of the loop that goes as far as the ascendant. *)
Definition turn_events `{Swisseph} (utc_offset lat lon t : float) : list event :=
  HousesEx t lat lon :: conversion_events utc_offset t.

(** The calls made before the loop, the latest first. *)
Definition setup_events `{Swisseph} (year month day : Z) (utc_offset : float) (mode : sidm)
  : list event :=
  let midnight := Civil year month day 0 0 0 in
  match swe_utc_time_zone midnight utc_offset with
  | inr utc => [UtcToJd utc; UtcTimeZone midnight utc_offset; SetSidMode mode]
  | inl _ => [UtcTimeZone midnight utc_offset; SetSidMode mode]
  end.

(** The fields of a civil time, seconds apart, that [datetime] accepts. *)
Definition date_and_minute_ok (c : civil) : bool :=
  between 1 (c_year c) 9999 && between 1 (c_month c) 12
  && between 1 (c_day c) (days_in_month (c_year c) (c_month c))
  && between 0 (c_hour c) 23 && between 0 (c_minute c) 59.

(** The year, month, day, hour and minute of a civil time fit C ints, as
    those that the ephemeris hands back do. *)
Definition c_int_fields (c : civil) : bool :=
  fits_c_int (c_year c) && fits_c_int (c_month c) && fits_c_int (c_day c)
  && fits_c_int (c_hour c) && fits_c_int (c_minute c).

Section TableVocabulary.
Context {kp : Divisions}.

(** The row of the table made from the line [r] of the file, numbered [n]. *)
Definition table_row (n : Z) (r : csv_row) : kp_row :=
  KpRow n (csv_Sign r) (csv_From_DMS r) (csv_To_DMS r)
        (dms_to_decdeg (csv_From_DMS r)) (dms_to_decdeg (csv_To_DMS r)).

(** The line of the file that carries the number [n]. *)
Definition numbered_line (n : Z) : option csv_row :=
  if (1 <=? n)%Z then csv_rows !! Z.to_nat (n - 1) else None.

End TableVocabulary.


(** ** Sample collaborators

    Stand-ins for the ephemeris and for the data file, on which the
    functions above can be run. *)

(** A one-day ephemeris: local midnight is the Julian day [jd0] whatever
    the date asked, civil time is counted from it (offsets are ignored),
    and the ascendant leaves [asc0] at midnight and covers [sweep] degrees
    in the day, the other cusps following at 30 degrees each. *)
Definition sample_civil (jd0 jd : float) : exn + civil :=
  let total := (jd - jd0) * 86400 in
  match py_int total with
  | inl e => inl e
  | inr n =>
      let hours := (n / 3600)%Z in
      inr (Civil 2024 2 (5 + hours / 24) (hours mod 24) (n mod 3600 / 60)
                 (py_float_of_int (n mod 60) + (total - py_float_of_int n)))
  end.

Definition sample_cusps (asc : float) : list float :=
  [ asc; asc + 30; asc + 60; asc + 90; asc + 120; asc + 150;
    asc + 180; asc + 210; asc + 240; asc + 270; asc + 300; asc + 330 ].

Definition sample_swe (jd0 asc0 sweep : float) : Swisseph := {|
  swe_utc_time_zone c offset := inr c;
  swe_utc_to_jd c := inr (jd0, jd0);
  swe_jdut1_to_utc jd := sample_civil jd0 jd;
  swe_houses_ex mode jd lat lon := inr (sample_cusps (asc0 + (jd - jd0) * sweep)) |}.

(** An ephemeris in which nothing moves: every instant is the civil
    [midnight], of Julian day [jd0], and the ascendant stays at [asc0]. *)
Definition still_swe (jd0 asc0 : float) (midnight : civil) : Swisseph := {|
  swe_utc_time_zone c offset := inr c;
  swe_utc_to_jd c := inr (jd0, jd0);
  swe_jdut1_to_utc jd := inr midnight;
  swe_houses_ex mode jd lat lon := inr (sample_cusps asc0) |}.

(** The world before anything happened. *)
Definition initial_world : world := World None [].

(** Modelled from the spec: [dms_to_decdeg] of [vedicastro/utils.py] is not
    among the sources; the spec (4.2) gives its formula,
    decimal = degrees + minutes/60 + seconds/3600, on an angle written
    [d:m:s]. *)
Fixpoint dms_fields (s : string) (acc : Z) : list Z :=
  match s with
  | EmptyString => [acc]
  | String c rest =>
      if Ascii.eqb c (Ascii.ascii_of_nat 58) (* the colon *) then acc :: dms_fields rest 0
      else dms_fields rest (10 * acc + (Z.of_nat (Ascii.nat_of_ascii c) - 48))%Z
  end.

Definition sample_dms_to_decdeg (s : string) : float :=
  match dms_fields s 0 with
  | [d; m; sec] =>
      py_float_of_int d + py_float_of_int m / 60 + py_float_of_int sec / 3600
  | _ => nan
  end.

(** A table of 249 rows in the layout of the data file: the twelve signs in
    order, each cut at the same angles. *)
Definition sample_cuts : list string :=
  [ "00:00:00"; "01:20:00"; "02:40:00"; "04:00:00"; "05:20:00"; "06:40:00";
    "08:00:00"; "09:20:00"; "10:40:00"; "12:00:00"; "13:20:00"; "14:40:00";
    "16:00:00"; "17:20:00"; "18:40:00"; "20:00:00"; "21:20:00"; "22:40:00";
    "24:00:00"; "25:20:00"; "26:40:00"; "30:00:00" ]%string.

Fixpoint sample_sign_rows (sign : string) (cuts : list string) : list csv_row :=
  match cuts with
  | from :: ((to :: _) as rest) => CsvRow sign from to :: sample_sign_rows sign rest
  | _ => []
  end.

Definition sample_divisions : Divisions := {|
  csv_rows :=
    take 249 (flat_map (λ sign, sample_sign_rows sign sample_cuts) (map fst sign_order_items));
  dms_to_decdeg := sample_dms_to_decdeg |}.

(** The last angle of a sign that a [d:m:s] text can name: 29:59:59. *)
Definition last_arcsecond : float := 29 + 59 / 60 + 59 / 3600.

(** The sample day: 5 February 2024, the ascendant going round once. *)
Definition sample_day : Swisseph := sample_swe 2460345.5 0 360.

(** The same day with nothing moving, the ascendant held at 10 degrees;
    and such a day in the year 1000, whose midnight is Julian day
    2086302.5. *)
Definition still_day : Swisseph := still_swe 2460345.5 10 (Civil 2024 2 5 0 0 0).
Definition still_day_1000 : Swisseph := still_swe 2086302.5 10 (Civil 1000 1 1 0 0 0).

(** The fifth of February 2024 as the Swiss Ephemeris counts it.
    [utc_to_jd] answers the Julian day in Ephemeris Time and the Julian
    day in UT1, in this order; Ephemeris Time is 69.184 s ahead of UTC
    (32.184 s and 37 leap seconds) and about 69.09 s ahead of UT1, which
    leaves UT1 0.0929 s ahead of UTC; [jdut1_to_utc] reads its argument as
    a UT1 day.  Civil times are counted from midnight UTC, offsets are not
    applied (the sample is used with offset 0), and the ascendant stays at
    10 degrees. *)
Definition delta_t_day : Swisseph := {|
  swe_utc_time_zone c offset := inr c;
  swe_utc_to_jd c := inr (2460345.5 + 69.184 / 86400, 2460345.5 + 0.0929 / 86400);
  swe_jdut1_to_utc jd := sample_civil (2460345.5 + 0.0929 / 86400) jd;
  swe_houses_ex mode jd lat lon := inr (sample_cusps 10) |}.

(** A data file gone wrong: two rows only, the second with its sign in
    lower case. *)
Definition short_divisions : Divisions := {|
  csv_rows := [ CsvRow "Aries" "00:00:00" "00:46:40"; CsvRow "aries" "00:46:40" "02:46:40" ];
  dms_to_decdeg := sample_dms_to_decdeg |}.

(** A day of 2016 that ends on a leap second: every instant is the civil
    time 23:59:60.5. *)
Definition leap_second_day : Swisseph :=
  still_swe 2457753.5 10 (Civil 2016 12 31 23 59 60.5).

(** An ephemeris that has no Placidus houses to give, as beyond the polar
    circles. *)
Definition polar_day : Swisseph := {|
  swe_utc_time_zone c offset := inr c;
  swe_utc_to_jd c := inr (2460345.5, 2460345.5);
  swe_jdut1_to_utc jd := inr (Civil 2024 2 5 0 0 0);
  swe_houses_ex mode jd lat lon := inl SweError |}.

(** An ephemeris that rejects every date. *)
Definition no_calendar : Swisseph := {|
  swe_utc_time_zone c offset := inr c;
  swe_utc_to_jd c := inl SweError;
  swe_jdut1_to_utc jd := inl SweError;
  swe_houses_ex mode jd lat lon := inl SweError |}.

(** A day at 9:05 and a hair under a minute, whatever the instant. *)
Definition minute_end_day : Swisseph :=
  still_swe 2460345.5 10 (Civil 2024 2 5 9 5 59.9999999).


(** ** The vocabulary of binary64 arithmetic

    The standard library describes binary64 numbers as a sign, a mantissa
    [m] and an exponent [e], of value [m * 2^e], and rounding as shifts of
    the mantissa; these are the notions in which the lemmas on the loop
    counter are stated. *)

Section Binary64Vocabulary.
Local Open Scope Z_scope.

(** The exponent at which a number of [e] binary digits is rounded. *)
Definition b64_fexp (e : Z) : Z := Z.max (e - 53) (-1074).

(** The record after [k] halvings of [m]: quotient, round bit and sticky
    bit, read off the remainder. *)
Definition shr_inv (m : Z) (k : nat) (rec : shr_record) : Prop :=
  shr_m rec = m / 2 ^ Z.of_nat k ∧
  ∃ low : Z,
    0 <= low ∧ (k = O → low = 0 ∧ shr_r rec = false) ∧
    (k ≠ O → low < 2 ^ (Z.of_nat k - 1)) ∧
    m mod 2 ^ Z.of_nat k = Z.b2z (shr_r rec) * 2 ^ (Z.of_nat k - 1) + low ∧
    shr_s rec = negb (low =? 0).

(** Rounding to nearest, ties to even, of [m / 2^n]. *)
Definition rne_up (m n : Z) : bool :=
  let rem := m mod 2 ^ n in
  (2 ^ n <? 2 * rem) || ((2 ^ n =? 2 * rem) && Z.odd (m / 2 ^ n)).

Definition rne (m n : Z) : Z := m / 2 ^ n + Z.b2z (rne_up m n).

(** [m * 2^e] in units of [2^-1074], an integer for every binary64 number. *)
Definition scaled (m : positive) (e : Z) : Z := Z.pos m * 2 ^ (e + 1074).

(** [m, e] is the mantissa and exponent of a binary64 number. *)
Definition canonical (m : positive) (e : Z) : Prop :=
  b64_fexp (Z.pos (digits2_pos m) + e) = e ∧ e <= 971.

(** A key that orders the numbers as [SFcompare] does. *)
Definition sf_key (x : spec_float) : Z * Z * Z :=
  match x with
  | S754_nan => (0, 0, 0)
  | S754_infinity true => (-2, 0, 0)
  | S754_infinity false => (2, 0, 0)
  | S754_zero _ => (0, 0, 0)
  | S754_finite true m e => (-1, - e, Z.neg m)
  | S754_finite false m e => (1, e, Z.pos m)
  end.

Definition key_le (a b : Z * Z * Z) : Prop :=
  let '(a1, a2, a3) := a in let '(b1, b2, b3) := b in
  a1 < b1 ∨ (a1 = b1 ∧ (a2 < b2 ∨ (a2 = b2 ∧ a3 <= b3))).

Definition key_lt (a b : Z * Z * Z) : Prop :=
  let '(a1, a2, a3) := a in let '(b1, b2, b3) := b in
  a1 < b1 ∨ (a1 = b1 ∧ (a2 < b2 ∨ (a2 = b2 ∧ a3 < b3))).

Definition sf_is_nan (x : spec_float) : bool :=
  match x with S754_nan => true | _ => false end.

Definition sf_is_finite (x : spec_float) : bool :=
  match x with S754_zero _ | S754_finite _ _ _ => true | _ => false end.

(** The real number a finite double stands for, in units of [2^-1074]. *)
Definition sf_exact (x : spec_float) : Z :=
  match x with
  | S754_finite s m e => cond_Zopp s (scaled m e)
  | _ => 0
  end.

(** The position of a number of the window, counted in units of [2^-32],
    with one unit more from [2^22] on. *)
Definition ord (m : positive) (e : Z) : Z := Z.pos m * 2 ^ (e + 32).
Definition phi (m : positive) (e : Z) : Z := ord m e + (if e <? -30 then 0 else 1).

End Binary64Vocabulary.

(** Two degrees that are [0.0001] or more apart as real numbers: both are
    finite, and ten thousand times their distance reaches one. *)
Definition far_apart (asc_lon_deg horary_asc_deg : float) : Prop :=
  sf_is_finite (Prim2SF asc_lon_deg) = true ∧
  sf_is_finite (Prim2SF horary_asc_deg) = true ∧
  (2 ^ 1074 <= 10000 * Z.abs (sf_exact (Prim2SF asc_lon_deg) -
                              sf_exact (Prim2SF horary_asc_deg)))%Z.

(** Two degrees less than [0.0001] apart as real numbers. *)
Definition within_tolerance (asc_lon_deg horary_asc_deg : float) : Prop :=
  sf_is_finite (Prim2SF asc_lon_deg) = true ∧
  sf_is_finite (Prim2SF horary_asc_deg) = true ∧
  (10000 * Z.abs (sf_exact (Prim2SF asc_lon_deg) -
                  sf_exact (Prim2SF horary_asc_deg)) < 2 ^ 1074)%Z.

(** The largest distance the test of line 87 accepts, in units of
    [2^-1074]: the midpoint between the double [0.0001] and the double
    before it, which lies about [2e-21] under a ten-thousandth. *)
Definition tolerance_reach : Z := (14757395258967641 * 2 ^ 1007)%Z.

Definition within_reach (asc_lon_deg horary_asc_deg : float) : Prop :=
  sf_is_finite (Prim2SF asc_lon_deg) = true ∧
  sf_is_finite (Prim2SF horary_asc_deg) = true ∧
  (Z.abs (sf_exact (Prim2SF asc_lon_deg) - sf_exact (Prim2SF horary_asc_deg))
   <= tolerance_reach)%Z.

(** * Binary64 arithmetic

    Facts about the rounding of IEEE-754 binary64 addition, proved on the
    integer description of the standard library ([SpecFloat]); they carry
    the claims about the loop counter [current_time]. *)

Section Binary64.
Local Open Scope Z_scope.

(** ** Rounding, on integers *)


Lemma fexp_b64 e : fexp prec emax e = b64_fexp e.
Proof. reflexivity. Qed.

Lemma digits2_pos_bounds p :
  2 ^ (Z.pos (digits2_pos p) - 1) <= Z.pos p < 2 ^ Z.pos (digits2_pos p).
Proof.
  induction p as [p IH|p IH|]; simpl digits2_pos.
  - rewrite Pos2Z.inj_succ. replace (Z.succ (Z.pos (digits2_pos p)) - 1) with (Z.succ (Z.pos (digits2_pos p) - 1)) by lia.
    rewrite !Z.pow_succ_r by lia. lia.
  - rewrite Pos2Z.inj_succ. replace (Z.succ (Z.pos (digits2_pos p)) - 1) with (Z.succ (Z.pos (digits2_pos p) - 1)) by lia.
    rewrite !Z.pow_succ_r by lia. lia.
  - simpl. lia.
Qed.

Lemma digits2_pos_le p q :
  Z.pos p <= Z.pos q → Z.pos (digits2_pos p) <= Z.pos (digits2_pos q).
Proof.
  intros Hle.
  pose proof (digits2_pos_bounds p) as [Hp _].
  pose proof (digits2_pos_bounds q) as [_ Hq].
  destruct (Z_le_gt_dec (Z.pos (digits2_pos p)) (Z.pos (digits2_pos q))) as [|Hgt]; [done|].
  exfalso.
  assert (2 ^ Z.pos (digits2_pos q) <= 2 ^ (Z.pos (digits2_pos p) - 1))
    by (apply Z.pow_le_mono_r; lia).
  lia.
Qed.

Lemma digits2_pos_shift p k :
  0 <= k → ∀ q, Z.pos q = Z.pos p * 2 ^ k →
  Z.pos (digits2_pos q) = Z.pos (digits2_pos p) + k.
Proof.
  intros Hk q Hq.
  pose proof (digits2_pos_bounds p) as [Hp1 Hp2].
  pose proof (digits2_pos_bounds q) as [Hq1 Hq2].
  set (dp := Z.pos (digits2_pos p)) in *. set (dq := Z.pos (digits2_pos q)) in *.
  assert (0 < 2 ^ k) by (apply Z.pow_pos_nonneg; lia).
  assert (H1 : 2 ^ (dp - 1 + k) <= Z.pos q).
  { rewrite Z.pow_add_r by lia. rewrite Hq. nia. }
  assert (H2 : Z.pos q < 2 ^ (dp + k)).
  { rewrite Z.pow_add_r by lia. rewrite Hq. nia. }
  destruct (Z.lt_trichotomy dq (dp + k)) as [Hlt|[Heq|Hgt]]; [|done|]; exfalso.
  - assert (2 ^ dq <= 2 ^ (dp - 1 + k)) by (apply Z.pow_le_mono_r; lia). lia.
  - assert (2 ^ (dp + k) <= 2 ^ (dq - 1)) by (apply Z.pow_le_mono_r; lia). lia.
Qed.

Lemma pos_iter_xO p k : Z.pos (Pos.iter xO p k) = Z.pos p * 2 ^ Z.pos k.
Proof.
  induction k as [|k IH] using Pos.peano_ind.
  - simpl. lia.
  - rewrite Pos.iter_succ, Pos2Z.inj_succ, Z.pow_succ_r by lia.
    rewrite Pos2Z.inj_xO, IH. lia.
Qed.

Lemma shl_align_fst m e e' :
  e' <= e → Z.pos (fst (shl_align m e e')) = Z.pos m * 2 ^ (e - e').
Proof.
  intros He. unfold shl_align.
  destruct (e' - e) as [|d|d] eqn:Hd.
  - replace (e - e') with 0 by lia. simpl. lia.
  - lia.
  - simpl fst. rewrite pos_iter_xO. f_equal. f_equal. lia.
Qed.

(** ** Shifting right with a round bit and a sticky bit *)

Lemma shr_1_nonneg m r s :
  0 <= m → shr_1 (Build_shr_record m r s) = Build_shr_record (m / 2) (Z.odd m) (r || s).
Proof.
  intros Hm. rewrite <- Z.div2_div.
  destruct m as [|[p|p|]|p]; try lia; reflexivity.
Qed.

Lemma iter_pos_nat {A} (f : A → A) n x : SpecFloat.iter_pos f n x = Nat.iter (Pos.to_nat n) f x.
Proof.
  revert x. induction n as [n IH|n IH|]; intros x; simpl SpecFloat.iter_pos.
  - rewrite !IH, Pos2Nat.inj_xI. rewrite <- Nat.iter_add.
    replace (S (2 * Pos.to_nat n)) with (Pos.to_nat n + Pos.to_nat n + 1)%nat by lia.
    rewrite (Nat.iter_add _ 1). reflexivity.
  - rewrite !IH, Pos2Nat.inj_xO. rewrite <- Nat.iter_add. f_equal. lia.
  - reflexivity.
Qed.

Lemma shr_inv_iter m k :
  0 <= m → shr_inv m k (Nat.iter k shr_1 (Build_shr_record m false false)).
Proof.
  intros Hm. induction k as [|k IH].
  - simpl. split; [rewrite Z.div_1_r; done|].
    exists 0. rewrite Z.mod_1_r. repeat split; try lia; done.
  - change (Nat.iter (S k) shr_1 ?x) with (shr_1 (Nat.iter k shr_1 x)).
    destruct (Nat.iter k shr_1 _) as [q r s].
    destruct IH as [Hq (low & Hlow & H0 & Hk & Hmod & Hs)]. cbn [shr_m shr_r shr_s] in *.
    assert (Hq0 : 0 <= q) by (subst q; apply Z.div_pos; [lia|apply Z.pow_pos_nonneg; lia]).
    rewrite shr_1_nonneg by done. cbn [shr_m shr_r shr_s].
    assert (Hpow : 0 < 2 ^ Z.of_nat k) by (apply Z.pow_pos_nonneg; lia).
    split.
    + rewrite Nat2Z.inj_succ, Z.pow_succ_r by lia.
      rewrite (Z.mul_comm 2), <- Z.div_div by lia. by rewrite Hq.
    + exists (Z.b2z r * 2 ^ (Z.of_nat k - 1) + low).
      replace (Z.of_nat (S k) - 1) with (Z.of_nat k) by lia.
      rewrite Nat2Z.inj_succ, Z.pow_succ_r by lia.
      rewrite (Z.mul_comm 2), Z.rem_mul_r by lia.
      rewrite <- Hq, Zmod_odd, Hmod.
      assert (Hodd : Z.b2z (Z.odd q) = if Z.odd q then 1 else 0) by (by destruct (Z.odd q)).
      destruct k as [|k].
      * destruct H0 as [-> ->]; [done|]. subst s. simpl.
        split_and!; try lia; try done.
      * specialize (Hk ltac:(done)).
        assert (0 < 2 ^ (Z.of_nat (S k) - 1)) by (apply Z.pow_pos_nonneg; lia).
        assert (2 ^ Z.of_nat (S k) = 2 * 2 ^ (Z.of_nat (S k) - 1)).
        { rewrite <- Z.pow_succ_r by lia. f_equal. lia. }
        split_and!; try done.
        -- destruct r; simpl; lia.
        -- intros _. destruct r; simpl; lia.
        -- destruct (Z.odd q); simpl; lia.
        -- rewrite Hs. destruct r; simpl.
           ++ symmetry. apply negb_true_iff, Z.eqb_neq. lia.
           ++ done.
Qed.

Lemma shr_rne m (n : positive) :
  0 <= m →
  let rec := SpecFloat.iter_pos shr_1 n (Build_shr_record m false false) in
  round_nearest_even (shr_m rec) (loc_of_shr_record rec) = rne m (Z.pos n).
Proof.
  intros Hm rec. subst rec. rewrite iter_pos_nat.
  pose proof (shr_inv_iter m (Pos.to_nat n) Hm) as Hinv.
  destruct (Nat.iter _ _ _) as [q r s].
  destruct Hinv as [Hq (low & Hlow & _ & Hk & Hmod & Hs)]. simpl in *.
  rewrite positive_nat_Z in *.
  specialize (Hk ltac:(lia)).
  unfold rne, rne_up. rewrite <- Hq, Hmod.
  assert (0 < 2 ^ (Z.pos n - 1)) by (apply Z.pow_pos_nonneg; lia).
  assert (Hp : 2 ^ Z.pos n = 2 * 2 ^ (Z.pos n - 1)).
  { rewrite <- Z.pow_succ_r by lia. f_equal. lia. }
  rewrite Hp. set (h := 2 ^ (Z.pos n - 1)) in *.
  destruct r, s; simpl in *; symmetry in Hs; rewrite ?negb_true_iff, ?negb_false_iff in Hs;
    [apply Z.eqb_neq in Hs | apply Z.eqb_eq in Hs | apply Z.eqb_neq in Hs | apply Z.eqb_eq in Hs].
  - replace (2 * h <? 2 * (1 * h + low)) with true by (symmetry; apply Z.ltb_lt; lia). simpl. lia.
  - replace (2 * h <? 2 * (1 * h + low)) with false by (symmetry; apply Z.ltb_ge; lia).
    replace (2 * h =? 2 * (1 * h + low)) with true by (symmetry; apply Z.eqb_eq; lia).
    simpl. rewrite <- Z.negb_odd. destruct (Z.odd q); simpl; lia.
  - replace (2 * h <? 2 * (0 * h + low)) with false by (symmetry; apply Z.ltb_ge; lia).
    replace (2 * h =? 2 * (0 * h + low)) with false by (symmetry; apply Z.eqb_neq; lia).
    simpl. lia.
  - replace (2 * h <? 2 * (0 * h + low)) with false by (symmetry; apply Z.ltb_ge; lia).
    replace (2 * h =? 2 * (0 * h + low)) with false by (symmetry; apply Z.eqb_neq; lia).
    simpl. lia.
Qed.

(** ** [binary_round] at binary64 *)

Lemma rne_bounds m n : 0 <= m → 0 <= n → m / 2 ^ n <= rne m n <= m / 2 ^ n + 1.
Proof. intros. unfold rne. destruct (rne_up m n); simpl; lia. Qed.

Lemma rne_exact m n : 0 <= n → m mod 2 ^ n = 0 → rne m n = m / 2 ^ n.
Proof.
  intros Hn Hm. unfold rne, rne_up. rewrite Hm.
  assert (0 < 2 ^ n) by (apply Z.pow_pos_nonneg; lia).
  replace (2 ^ n <? 2 * 0) with false by (symmetry; apply Z.ltb_ge; lia).
  replace (2 ^ n =? 2 * 0) with false by (symmetry; apply Z.eqb_neq; lia).
  simpl. lia.
Qed.

Lemma shr_fexp_keep m e :
  b64_fexp (Zdigits2 m + e) <= e →
  shr_fexp prec emax m e loc_Exact = (Build_shr_record m false false, e).
Proof.
  intros H. unfold shr_fexp. rewrite fexp_b64. simpl shr_record_of_loc.
  unfold shr. destruct (b64_fexp (Zdigits2 m + e) - e) eqn:E; try done. lia.
Qed.

Lemma binary_round_aux_keep sx (m : positive) e :
  b64_fexp (Z.pos (digits2_pos m) + e) <= e →
  binary_round_aux prec emax sx (Z.pos m) e loc_Exact =
    if e <=? 971 then S754_finite sx m e else S754_infinity sx.
Proof.
  intros H. unfold binary_round_aux.
  rewrite shr_fexp_keep by done. simpl shr_m. simpl loc_of_shr_record.
  simpl round_nearest_even. rewrite shr_fexp_keep by done. reflexivity.
Qed.

Lemma binary_round_exact sx p ez :
  let e' := b64_fexp (Z.pos (digits2_pos p) + ez) in
  e' <= ez →
  ∃ mz, Z.pos mz = Z.pos p * 2 ^ (ez - e') ∧
        b64_fexp (Z.pos (digits2_pos mz) + e') = e' ∧
        binary_round prec emax sx p ez =
          if e' <=? 971 then S754_finite sx mz e' else S754_infinity sx.
Proof.
  intros e' He. unfold binary_round. rewrite fexp_b64. fold e'.
  exists (fst (shl_align p ez e')).
  pose proof (shl_align_fst p ez e' He) as Hfst.
  assert (Hd : Z.pos (digits2_pos (fst (shl_align p ez e'))) + e' = Z.pos (digits2_pos p) + ez).
  { rewrite (digits2_pos_shift p (ez - e')) by (done || lia). lia. }
  split_and!; [done | by rewrite Hd |].
  assert (Hsnd : snd (shl_align p ez e') = e').
  { unfold shl_align. destruct (e' - ez) eqn:E; simpl; lia. }
  destruct (shl_align p ez e') as [mz ez'] eqn:E. simpl in *. subst ez'.
  apply binary_round_aux_keep. rewrite Hd. fold e'. lia.
Qed.

Lemma binary_round_inexact sx p ez :
  let e' := b64_fexp (Z.pos (digits2_pos p) + ez) in
  -1074 <= ez → ez < e' →
  let m1 := rne (Z.pos p) (e' - ez) in
  2 ^ 52 <= Z.pos p / 2 ^ (e' - ez) < 2 ^ 53 ∧
  binary_round prec emax sx p ez =
    if m1 <? 2 ^ 53 then
      if e' <=? 971 then S754_finite sx (Z.to_pos m1) e' else S754_infinity sx
    else
      if e' + 1 <=? 971 then S754_finite sx (2 ^ 52)%positive (e' + 1)
      else S754_infinity sx.
Proof.
  intros e' Hez He m1.
  set (d := Z.pos (digits2_pos p)) in *.
  assert (He' : e' = d + ez - 53) by (unfold e', b64_fexp in *; lia).
  set (n := e' - ez) in *.
  assert (Hn : n = d - 53) by lia.
  assert (Hn0 : 0 < n) by lia.
  pose proof (digits2_pos_bounds p) as [Hp1 Hp2]. fold d in Hp1, Hp2.
  assert (Hpn : 0 < 2 ^ n) by (apply Z.pow_pos_nonneg; lia).
  assert (Hq : 2 ^ 52 <= Z.pos p / 2 ^ n < 2 ^ 53).
  { replace (d - 1) with (52 + n) in Hp1 by lia. replace d with (53 + n) in Hp2 by lia.
    rewrite Z.pow_add_r in Hp1, Hp2 by lia. split.
    - apply Z.div_le_lower_bound; lia.
    - apply Z.div_lt_upper_bound; lia. }
  split; [done|].
  pose proof (rne_bounds (Z.pos p) n ltac:(lia) ltac:(lia)) as Hm1. fold m1 in Hm1.
  unfold binary_round. rewrite fexp_b64. fold d. fold e'.
  assert (Hal : shl_align p ez e' = (p, ez)).
  { unfold shl_align. destruct (e' - ez) eqn:E; try done; lia. }
  rewrite Hal. unfold binary_round_aux.
  assert (Hs1 : shr_fexp prec emax (Z.pos p) ez loc_Exact =
                (SpecFloat.iter_pos shr_1 (Z.to_pos n) (Build_shr_record (Z.pos p) false false), e')).
  { unfold shr_fexp. rewrite fexp_b64. simpl Zdigits2. fold d. fold e'. fold n.
    simpl shr_record_of_loc. unfold shr. destruct n eqn:E; try lia. simpl Z.to_pos.
    f_equal. lia. }
  rewrite Hs1.
  pose proof (shr_rne (Z.pos p) (Z.to_pos n) ltac:(lia)) as Hrne. simpl in Hrne.
  rewrite Z2Pos.id in Hrne by lia. rewrite Hrne. fold m1.
  destruct (m1 <? 2 ^ 53) eqn:Hlt.
  - apply Z.ltb_lt in Hlt.
    destruct m1 as [|m|m] eqn:Em1; try lia.
    pose proof (digits2_pos_bounds m) as [Hm_1 Hm_2].
    assert (Hdm : Z.pos (digits2_pos m) <= 53).
    { destruct (Z_le_gt_dec (Z.pos (digits2_pos m)) 53); [done|].
      assert (2 ^ 53 <= 2 ^ (Z.pos (digits2_pos m) - 1)) by (apply Z.pow_le_mono_r; lia). lia. }
    rewrite shr_fexp_keep.
    + simpl shr_m. simpl Z.to_pos. reflexivity.
    + simpl Zdigits2. unfold b64_fexp in *. lia.
  - apply Z.ltb_ge in Hlt. assert (Em1 : m1 = 2 ^ 53) by lia. rewrite Em1.
    unfold shr_fexp. rewrite fexp_b64.
    replace (b64_fexp (Zdigits2 (2 ^ 53) + e') - e') with 1
      by (change (Zdigits2 (2 ^ 53)) with 54; unfold b64_fexp; lia).
    simpl shr_record_of_loc. unfold shr. simpl SpecFloat.iter_pos.
    change (shr_1 {| shr_m := 2 ^ 53; shr_r := false; shr_s := false |})
      with {| shr_m := 2 ^ 52; shr_r := false; shr_s := false |}.
    simpl shr_m. change (2 ^ 52) with (Z.pos (2 ^ 52)). cbv iota beta.
    reflexivity.
Qed.

(** ** Rounding against a representable bound *)

Lemma valid_canonical s m e :
  SpecFloat.valid_binary prec emax (S754_finite s m e) = true → canonical m e.
Proof.
  unfold SpecFloat.valid_binary, bounded, canonical_mantissa. rewrite fexp_b64.
  intros [H1 H2]%andb_true_iff. apply Z.eqb_eq in H1. apply Z.leb_le in H2.
  split; [done|]. change (emax - prec) with 971 in H2. done.
Qed.

Lemma canonical_range m e : canonical m e → -1074 <= e <= 971 ∧ Z.pos m < 2 ^ 53.
Proof.
  intros [H1 H2]. unfold b64_fexp in H1.
  pose proof (digits2_pos_bounds m) as [_ Hm].
  split; [lia|].
  assert (2 ^ Z.pos (digits2_pos m) <= 2 ^ 53) by (apply Z.pow_le_mono_r; lia). lia.
Qed.

Lemma canonical_normal m e : canonical m e → -1074 < e → 2 ^ 52 <= Z.pos m.
Proof.
  intros [H1 H2] He. unfold b64_fexp in H1.
  pose proof (digits2_pos_bounds m) as [Hm _].
  replace (Z.pos (digits2_pos m) - 1) with 52 in Hm by lia. done.
Qed.

Lemma scaled_split m e e0 :
  -1074 <= e0 <= e → scaled m e = Z.pos m * 2 ^ (e - e0) * 2 ^ (e0 + 1074).
Proof.
  intros H. unfold scaled. rewrite <- Z.mul_assoc, <- Z.pow_add_r by lia.
  f_equal. f_equal. lia.
Qed.

Lemma digits_scaled_le a u b v :
  -1074 <= u → -1074 <= v → scaled a u <= scaled b v →
  Z.pos (digits2_pos a) + u <= Z.pos (digits2_pos b) + v.
Proof.
  unfold scaled. intros Hu Hv Hle.
  pose proof (digits2_pos_bounds a) as [Ha _].
  pose proof (digits2_pos_bounds b) as [_ Hb].
  set (da := Z.pos (digits2_pos a)) in *. set (db := Z.pos (digits2_pos b)) in *.
  assert (Hda : 0 < da) by (unfold da; lia). assert (Hdb : 0 < db) by (unfold db; lia).
  clearbody da db.
  assert (Hpu : 0 < 2 ^ (u + 1074)) by (apply Z.pow_pos_nonneg; lia).
  assert (Hpv : 0 < 2 ^ (v + 1074)) by (apply Z.pow_pos_nonneg; lia).
  assert (H1 : 2 ^ (da - 1 + (u + 1074)) <= Z.pos a * 2 ^ (u + 1074)).
  { rewrite (Z.pow_add_r 2 (da - 1)) by lia. apply Z.mul_le_mono_nonneg_r; lia. }
  assert (H2 : Z.pos b * 2 ^ (v + 1074) < 2 ^ (db + (v + 1074))).
  { rewrite (Z.pow_add_r 2 db) by lia. apply Z.mul_lt_mono_pos_r; lia. }
  destruct (Z_le_gt_dec (da + u) (db + v)); [done|]. exfalso.
  assert (2 ^ (db + (v + 1074)) <= 2 ^ (da - 1 + (u + 1074))) by (apply Z.pow_le_mono_r; lia).
  lia.
Qed.

Lemma b64_fexp_mono a b : a <= b → b64_fexp a <= b64_fexp b.
Proof. unfold b64_fexp. lia. Qed.

(** The result of rounding [p * 2^ez], as a binary64 number or an overflow. *)
Lemma round_le sx p ez my ey :
  -1074 <= ez → canonical my ey → scaled p ez <= scaled my ey →
  ∃ mr er, binary_round prec emax sx p ez = S754_finite sx mr er ∧
           canonical mr er ∧
           (er < ey ∨ (er = ey ∧ Z.pos mr <= Z.pos my)).
Proof.
  intros Hez Hy Hle.
  pose proof (canonical_range _ _ Hy) as [Hey Hmy].
  assert (Hey' : -1074 <= ey) by lia.
  pose proof (digits_scaled_le _ _ _ _ Hez Hey' Hle) as Hd.
  apply b64_fexp_mono in Hd. destruct Hy as [Hy1 Hy2]. rewrite Hy1 in Hd.
  set (e' := b64_fexp (Z.pos (digits2_pos p) + ez)) in *.
  assert (He'min : -1074 <= e') by (unfold e', b64_fexp; lia).
  destruct (Z_le_gt_dec e' ez) as [Hex|Hin].
  - destruct (binary_round_exact sx p ez Hex) as (mz & Hmz & Hcan & ->). fold e' in Hmz, Hcan |- *.
    replace (e' <=? 971) with true by (symmetry; apply Z.leb_le; lia).
    exists mz, e'. split_and!; [done | split; [done|lia] |].
    destruct (Z.eq_dec e' ey) as [->|]; [right|left; lia]. split; [done|].
    rewrite (scaled_split p ez ey) in Hle by lia. unfold scaled in Hle.
    assert (0 < 2 ^ (ey + 1074)) by (apply Z.pow_pos_nonneg; lia). nia.
  - destruct (binary_round_inexact sx p ez Hez ltac:(fold e'; lia)) as [Hq ->]. fold e' in Hq |- *.
    set (n := e' - ez) in *.
    pose proof (rne_bounds (Z.pos p) n ltac:(lia) ltac:(lia)) as Hm1.
    set (m1 := rne (Z.pos p) n) in *.
    assert (Hpn : 0 < 2 ^ n) by (apply Z.pow_pos_nonneg; lia).
    assert (Hcase : e' = ey → m1 <= Z.pos my).
    { intros ->. rewrite (scaled_split my ey ez) in Hle by lia. unfold scaled in Hle. fold n in Hle.
      assert (0 < 2 ^ (ez + 1074)) by (apply Z.pow_pos_nonneg; lia).
      assert (Hp : Z.pos p <= Z.pos my * 2 ^ n) by nia.
      assert (Hqle : Z.pos p / 2 ^ n <= Z.pos my).
      { apply Z.div_le_upper_bound; lia. }
      destruct (Z.eq_dec (Z.pos p / 2 ^ n) (Z.pos my)) as [Heq|]; [|lia].
      assert (Hmod : Z.pos p mod 2 ^ n = 0).
      { pose proof (Z.div_mod (Z.pos p) (2 ^ n) ltac:(lia)) as Hdm.
        pose proof (Z.mod_pos_bound (Z.pos p) (2 ^ n) ltac:(lia)). nia. }
      unfold m1. rewrite rne_exact by (done || lia). lia. }
    destruct (m1 <? 2 ^ 53) eqn:Hlt.
    + apply Z.ltb_lt in Hlt.
      replace (e' <=? 971) with true by (symmetry; apply Z.leb_le; lia).
      exists (Z.to_pos m1), e'.
      assert (Hm1pos : Z.pos (Z.to_pos m1) = m1) by (apply Z2Pos.id; lia).
      split_and!; [done | |].
      * split; [|lia].
        pose proof (digits2_pos_bounds (Z.to_pos m1)) as [Hb1 Hb2]. rewrite Hm1pos in Hb1, Hb2.
        assert (Z.pos (digits2_pos (Z.to_pos m1)) = 53).
        { destruct (Z.lt_trichotomy (Z.pos (digits2_pos (Z.to_pos m1))) 53) as [?|[?|?]]; [|done|]; exfalso.
          - assert (2 ^ Z.pos (digits2_pos (Z.to_pos m1)) <= 2 ^ 52) by (apply Z.pow_le_mono_r; lia). lia.
          - assert (2 ^ 53 <= 2 ^ (Z.pos (digits2_pos (Z.to_pos m1)) - 1)) by (apply Z.pow_le_mono_r; lia). lia. }
        unfold b64_fexp. unfold e', b64_fexp in *. lia.
      * destruct (Z.eq_dec e' ey) as [Heq|]; [right|left; lia]. split; [done|].
        rewrite Hm1pos. auto.
    + apply Z.ltb_ge in Hlt.
      assert (e' < ey).
      { destruct (Z.eq_dec e' ey) as [Heq|]; [|lia]. specialize (Hcase Heq). lia. }
      replace (e' + 1 <=? 971) with true by (symmetry; apply Z.leb_le; lia).
      exists (2 ^ 52)%positive, (e' + 1). split_and!; [done | split; [reflexivity || (unfold b64_fexp; simpl; lia) | lia] |].
      destruct (Z.eq_dec (e' + 1) ey) as [Heq|]; [right|left; lia]. split; [done|].
      apply (canonical_normal my ey); [split; done | lia].
Qed.

Lemma canonical_53 m e : 2 ^ 52 <= Z.pos m < 2 ^ 53 → -1074 <= e <= 971 → canonical m e.
Proof.
  intros [Hm1 Hm2] He. split; [|lia].
  pose proof (digits2_pos_bounds m) as [Hb1 Hb2].
  assert (Z.pos (digits2_pos m) = 53).
  { destruct (Z.lt_trichotomy (Z.pos (digits2_pos m)) 53) as [?|[?|?]]; [|done|]; exfalso.
    - assert (2 ^ Z.pos (digits2_pos m) <= 2 ^ 52) by (apply Z.pow_le_mono_r; lia). lia.
    - assert (2 ^ 53 <= 2 ^ (Z.pos (digits2_pos m) - 1)) by (apply Z.pow_le_mono_r; lia). lia. }
  unfold b64_fexp. lia.
Qed.

Lemma round_ge sx p ez mx ex :
  -1074 <= ez → canonical mx ex → scaled mx ex <= scaled p ez →
  binary_round prec emax sx p ez = S754_infinity sx ∨
  ∃ mr er, binary_round prec emax sx p ez = S754_finite sx mr er ∧
           canonical mr er ∧
           (ex < er ∨ (ex = er ∧ Z.pos mx <= Z.pos mr)).
Proof.
  intros Hez Hx Hle.
  pose proof (canonical_range _ _ Hx) as [Hex Hmx].
  assert (Hex' : -1074 <= ex) by lia.
  pose proof (digits_scaled_le _ _ _ _ Hex' Hez Hle) as Hd.
  apply b64_fexp_mono in Hd. destruct Hx as [Hx1 Hx2]. rewrite Hx1 in Hd.
  set (e' := b64_fexp (Z.pos (digits2_pos p) + ez)) in *.
  destruct (Z_le_gt_dec e' ez) as [Hexact|Hin].
  - destruct (binary_round_exact sx p ez Hexact) as (mz & Hmz & Hcan & ->). fold e' in Hmz, Hcan |- *.
    destruct (e' <=? 971) eqn:Hov; [right|by left]. apply Z.leb_le in Hov.
    exists mz, e'. split_and!; [done | by split |].
    destruct (Z.eq_dec ex e') as [Heq|]; [right|left; lia]. split; [done|]. subst e'.
    rewrite (scaled_split p ez ex) in Hle by lia. rewrite <- Heq in Hmz. unfold scaled in Hle.
    assert (0 < 2 ^ (ex + 1074)) by (apply Z.pow_pos_nonneg; lia). nia.
  - destruct (binary_round_inexact sx p ez Hez ltac:(fold e'; lia)) as [Hq ->]. fold e' in Hq |- *.
    set (n := e' - ez) in *.
    pose proof (rne_bounds (Z.pos p) n ltac:(lia) ltac:(lia)) as Hm1.
    set (m1 := rne (Z.pos p) n) in *.
    assert (Hpn : 0 < 2 ^ n) by (apply Z.pow_pos_nonneg; lia).
    destruct (m1 <? 2 ^ 53) eqn:Hlt.
    + apply Z.ltb_lt in Hlt.
      destruct (e' <=? 971) eqn:Hov; [right|by left]. apply Z.leb_le in Hov.
      exists (Z.to_pos m1), e'.
      assert (Hm1pos : Z.pos (Z.to_pos m1) = m1) by (apply Z2Pos.id; lia).
      split_and!; [done | apply canonical_53; [rewrite Hm1pos|]; lia |].
      destruct (Z.eq_dec ex e') as [Heq|]; [right|left; lia]. split; [done|].
      rewrite Hm1pos.
      rewrite (scaled_split mx ex ez) in Hle by lia. unfold scaled in Hle.
      replace (ex - ez) with n in Hle by lia.
      assert (0 < 2 ^ (ez + 1074)) by (apply Z.pow_pos_nonneg; lia).
      assert (Z.pos mx * 2 ^ n <= Z.pos p) by nia.
      assert (Z.pos mx <= Z.pos p / 2 ^ n) by (apply Z.div_le_lower_bound; lia).
      lia.
    + destruct (e' + 1 <=? 971) eqn:Hov; [right|by left]. apply Z.leb_le in Hov.
      exists (2 ^ 52)%positive, (e' + 1).
      split_and!; [done | apply canonical_53; [done|lia] | left; lia].
Qed.

(** ** The order of binary64 numbers *)

Lemma SFleb_pos m1 e1 m2 e2 :
  SFleb (S754_finite false m1 e1) (S754_finite false m2 e2) = true ↔
  e1 < e2 ∨ (e1 = e2 ∧ Z.pos m1 <= Z.pos m2).
Proof.
  unfold SFleb, SFcompare. change (Pos.compare_cont Eq m1 m2) with (m1 ?= m2)%positive.
  destruct (Z.compare_spec e1 e2); [destruct (Pos.compare_spec m1 m2)|..];
    split; intros; try done; try lia; try (left; lia); try (right; lia).
Qed.

Lemma SFleb_neg m1 e1 m2 e2 :
  SFleb (S754_finite true m1 e1) (S754_finite true m2 e2) = true ↔
  e2 < e1 ∨ (e1 = e2 ∧ Z.pos m2 <= Z.pos m1).
Proof.
  unfold SFleb, SFcompare. change (Pos.compare_cont Eq m1 m2) with (m1 ?= m2)%positive.
  destruct (Z.compare_spec e1 e2); [destruct (Pos.compare_spec m1 m2)|..];
    split; simpl; intros; try done; try lia; try (left; lia); try (right; lia).
Qed.

Lemma SFltb_pos m1 e1 m2 e2 :
  SFltb (S754_finite false m1 e1) (S754_finite false m2 e2) = true ↔
  e1 < e2 ∨ (e1 = e2 ∧ Z.pos m1 < Z.pos m2).
Proof.
  unfold SFltb, SFcompare. change (Pos.compare_cont Eq m1 m2) with (m1 ?= m2)%positive.
  destruct (Z.compare_spec e1 e2); [destruct (Pos.compare_spec m1 m2)|..];
    split; intros; try done; try lia; try (left; lia); try (right; lia).
Qed.

Lemma SFleb_key x y :
  SFleb x y = true ↔ sf_is_nan x = false ∧ sf_is_nan y = false ∧ key_le (sf_key x) (sf_key y).
Proof.
  destruct x as [[]|[]| |[] m1 e1], y as [[]|[]| |[] m2 e2];
    try (rewrite SFleb_neg || rewrite SFleb_pos);
    cbn -[Z.lt Z.le]; (split; [intros; split_and!; try done|intros (?&?&?); try done]); lia.
Qed.

Lemma SFltb_neg m1 e1 m2 e2 :
  SFltb (S754_finite true m1 e1) (S754_finite true m2 e2) = true ↔
  e2 < e1 ∨ (e1 = e2 ∧ Z.pos m2 < Z.pos m1).
Proof.
  unfold SFltb, SFcompare. change (Pos.compare_cont Eq m1 m2) with (m1 ?= m2)%positive.
  destruct (Z.compare_spec e1 e2); [destruct (Pos.compare_spec m1 m2)|..];
    split; simpl; intros; try done; try lia; try (left; lia); try (right; lia).
Qed.

Lemma SFltb_key x y :
  SFltb x y = true ↔ sf_is_nan x = false ∧ sf_is_nan y = false ∧ key_lt (sf_key x) (sf_key y).
Proof.
  destruct x as [[]|[]| |[] m1 e1], y as [[]|[]| |[] m2 e2];
    try (rewrite SFltb_neg || rewrite SFltb_pos);
    cbn -[Z.lt Z.le]; (split; [intros; split_and!; try done|intros (?&?&?); try done]); lia.
Qed.

Lemma SFleb_trans x y z : SFleb x y = true → SFleb y z = true → SFleb x z = true.
Proof.
  rewrite !SFleb_key. intros (?&?&H1) (?&?&H2). split_and!; try done.
  destruct (sf_key x) as [[??]?], (sf_key y) as [[??]?], (sf_key z) as [[??]?].
  unfold key_le in *. lia.
Qed.

Lemma SFleb_ltb_trans x y z : SFleb x y = true → SFltb y z = true → SFltb x z = true.
Proof.
  rewrite !SFleb_key, !SFltb_key. intros (?&?&H1) (?&?&H2). split_and!; try done.
  destruct (sf_key x) as [[??]?], (sf_key y) as [[??]?], (sf_key z) as [[??]?].
  unfold key_le, key_lt in *. lia.
Qed.

Lemma SFleb_not_ltb x y : SFleb x y = true → SFltb y x = false.
Proof.
  intros H. destruct (SFltb y x) eqn:E; [|done]. exfalso.
  apply SFleb_key in H as (?&?&H1). apply SFltb_key in E as (?&?&H2).
  destruct (sf_key x) as [[??]?], (sf_key y) as [[??]?].
  unfold key_le, key_lt in *. lia.
Qed.

Lemma SFleb_refl x : sf_is_nan x = false → SFleb x x = true.
Proof.
  intros H. apply SFleb_key. split_and!; try done.
  destruct (sf_key x) as [[??]?]. unfold key_le. lia.
Qed.

Lemma SFleb_nan_l x y : SFleb x y = true → sf_is_nan x = false.
Proof. intros H. by apply SFleb_key in H as (?&?&?). Qed.

(** ** Addition of binary64 numbers *)

Lemma SF64add_finite sx mx ex sy my ey :
  SF64add (S754_finite sx mx ex) (S754_finite sy my ey) =
  binary_normalize prec emax
    (cond_Zopp sx (Z.pos mx * 2 ^ (ex - Z.min ex ey)) +
     cond_Zopp sy (Z.pos my * 2 ^ (ey - Z.min ex ey))) (Z.min ex ey) false.
Proof.
  unfold SF64add, SFadd. rewrite !shl_align_fst by lia. reflexivity.
Qed.

Lemma pow2_pos k : 0 <= k → 0 < 2 ^ k.
Proof. intros. apply Z.pow_pos_nonneg; lia. Qed.

Lemma canonical_one_min : canonical 1 (-1074).
Proof. split; [reflexivity|lia]. Qed.

(** Adding a positive number never decreases a number. *)
Lemma SF64add_ge_self x ms es :
  SpecFloat.valid_binary prec emax x = true → sf_is_nan x = false → canonical ms es →
  SFleb x (SF64add x (S754_finite false ms es)) = true.
Proof.
  intros Hv Hn Hs. pose proof (canonical_range _ _ Hs) as [Hes _].
  destruct x as [[]|[]| |sx m e]; try done.
  apply valid_canonical in Hv. pose proof (canonical_range _ _ Hv) as [He Hm].
  rewrite SF64add_finite. set (ez := Z.min e es).
  assert (Hez : -1074 <= ez) by lia.
  pose proof (pow2_pos (e - ez) ltac:(lia)) as HpM.
  pose proof (pow2_pos (es - ez) ltac:(lia)) as HpS.
  pose proof (pow2_pos (ez + 1074) ltac:(lia)) as HpB.
  set (M := Z.pos m * 2 ^ (e - ez)) in *. set (S := Z.pos ms * 2 ^ (es - ez)) in *.
  assert (HM : 0 < M) by (unfold M; lia). assert (HS : 0 < S) by (unfold S; lia).
  assert (HscM : scaled m e = M * 2 ^ (ez + 1074)) by (unfold M; apply scaled_split; lia).
  destruct sx; simpl cond_Zopp.
  - (* a negative number *)
    destruct (- M + S) as [|p|p] eqn:EV; simpl binary_normalize.
    + done.
    + destruct (round_ge false p ez 1 (-1074) Hez canonical_one_min) as [->|(mr & er & -> & _ & _)]; try done.
      unfold scaled. simpl (-1074 + 1074). lia.
    + destruct (round_le true p ez m e Hez Hv) as (mr & er & -> & _ & Hlex).
      { rewrite HscM. unfold scaled. apply Z.mul_le_mono_nonneg_r; lia. }
      apply SFleb_neg. lia.
  - (* a positive number *)
    destruct (M + S) as [|p|p] eqn:EV; try lia. simpl binary_normalize.
    destruct (round_ge false p ez m e Hez Hv) as [->|(mr & er & -> & _ & Hlex)]; try done.
    { rewrite HscM. unfold scaled. apply Z.mul_le_mono_nonneg_r; lia. }
    apply SFleb_pos. lia.
Qed.

(** The order of positive numbers is the order of their exact values. *)
Lemma lex_scaled_lt m1 e1 m2 e2 :
  canonical m1 e1 → canonical m2 e2 →
  e1 < e2 ∨ (e1 = e2 ∧ Z.pos m1 < Z.pos m2) → scaled m1 e1 < scaled m2 e2.
Proof.
  intros H1 H2 Hlex.
  pose proof (canonical_range _ _ H1) as [He1 Hm1].
  pose proof (canonical_range _ _ H2) as [He2 Hm2].
  pose proof (pow2_pos (e1 + 1074) ltac:(lia)) as Hp.
  destruct Hlex as [Hlt|[-> Hlt]].
  - pose proof (canonical_normal _ _ H2 ltac:(lia)) as Hn.
    rewrite (scaled_split m2 e2 e1) by lia. unfold scaled.
    assert (2 <= 2 ^ (e2 - e1)).
    { change 2 with (2 ^ 1) at 1. apply Z.pow_le_mono_r; lia. }
    assert (Z.pos m1 < Z.pos m2 * 2 ^ (e2 - e1)) by nia.
    apply Z.mul_lt_mono_pos_r; lia.
  - unfold scaled. apply Z.mul_lt_mono_pos_r; lia.
Qed.

Lemma lex_scaled_le m1 e1 m2 e2 :
  canonical m1 e1 → canonical m2 e2 →
  (e1 < e2 ∨ (e1 = e2 ∧ Z.pos m1 <= Z.pos m2)) ↔ scaled m1 e1 <= scaled m2 e2.
Proof.
  intros H1 H2. split.
  - intros [Hlt|[-> Hle]].
    + apply Z.lt_le_incl, lex_scaled_lt; auto.
    + destruct (Z.eq_dec (Z.pos m1) (Z.pos m2)) as [Heq|].
      * unfold scaled. rewrite Heq. lia.
      * apply Z.lt_le_incl, lex_scaled_lt; auto. right. lia.
  - intros Hle.
    destruct (Z.lt_trichotomy e1 e2) as [?|[->|Hgt]]; [by left| |].
    + right. split; [done|].
      destruct (Z_le_gt_dec (Z.pos m1) (Z.pos m2)); [done|].
      assert (scaled m2 e2 < scaled m1 e2) by (apply lex_scaled_lt; auto; right; lia). lia.
    + assert (scaled m2 e2 < scaled m1 e1) by (apply lex_scaled_lt; auto). lia.
Qed.

Lemma SFleb_scaled m1 e1 m2 e2 :
  canonical m1 e1 → canonical m2 e2 →
  SFleb (S754_finite false m1 e1) (S754_finite false m2 e2) = true ↔
  scaled m1 e1 <= scaled m2 e2.
Proof. intros. rewrite SFleb_pos. by apply lex_scaled_le. Qed.

(** The sum of two positive numbers, against representable bounds. *)
Lemma SF64add_pos ma ea mb eb :
  canonical ma ea → canonical mb eb →
  ∃ p, Z.pos p * 2 ^ (Z.min ea eb + 1074) = scaled ma ea + scaled mb eb ∧
       SF64add (S754_finite false ma ea) (S754_finite false mb eb) =
       binary_round prec emax false p (Z.min ea eb).
Proof.
  intros Ha Hb.
  pose proof (canonical_range _ _ Ha) as [Hea _].
  pose proof (canonical_range _ _ Hb) as [Heb _].
  rewrite SF64add_finite. set (ez := Z.min ea eb). simpl cond_Zopp.
  pose proof (pow2_pos (ea - ez) ltac:(lia)).
  pose proof (pow2_pos (eb - ez) ltac:(lia)).
  destruct (Z.pos ma * 2 ^ (ea - ez) + Z.pos mb * 2 ^ (eb - ez)) as [|p|p] eqn:EV; try lia.
  exists p. split; [|done].
  rewrite <- EV, Z.mul_add_distr_r.
  rewrite <- (scaled_split ma ea ez), <- (scaled_split mb eb ez) by lia. done.
Qed.

Lemma SF64add_pos_le ma ea mb eb my ey :
  canonical ma ea → canonical mb eb → canonical my ey →
  scaled ma ea + scaled mb eb <= scaled my ey →
  ∃ mr er, SF64add (S754_finite false ma ea) (S754_finite false mb eb) = S754_finite false mr er ∧
           canonical mr er ∧ scaled mr er <= scaled my ey.
Proof.
  intros Ha Hb Hy Hle.
  destruct (SF64add_pos ma ea mb eb Ha Hb) as (p & Hp & ->).
  pose proof (canonical_range _ _ Ha) as [Hea _].
  pose proof (canonical_range _ _ Hb) as [Heb _].
  destruct (round_le false p (Z.min ea eb) my ey ltac:(lia) Hy) as (mr & er & -> & Hc & Hlex).
  { unfold scaled at 1. lia. }
  exists mr, er. split_and!; try done. by apply lex_scaled_le.
Qed.

Lemma SF64add_pos_ge ma ea mb eb mx ex :
  canonical ma ea → canonical mb eb → canonical mx ex →
  scaled mx ex <= scaled ma ea + scaled mb eb →
  SF64add (S754_finite false ma ea) (S754_finite false mb eb) = S754_infinity false ∨
  ∃ mr er, SF64add (S754_finite false ma ea) (S754_finite false mb eb) = S754_finite false mr er ∧
           canonical mr er ∧ scaled mx ex <= scaled mr er.
Proof.
  intros Ha Hb Hx Hle.
  destruct (SF64add_pos ma ea mb eb Ha Hb) as (p & Hp & ->).
  pose proof (canonical_range _ _ Ha) as [Hea _].
  pose proof (canonical_range _ _ Hb) as [Heb _].
  destruct (round_ge false p (Z.min ea eb) mx ex ltac:(lia) Hx) as [->|(mr & er & -> & Hc & Hlex)].
  { unfold scaled at 2. lia. }
  { by left. }
  right. exists mr, er. split_and!; try done. by apply lex_scaled_le.
Qed.

(** ** Subtraction *)

Lemma rne_cases m n :
  0 <= m → 0 < n →
  (2 * (m mod 2 ^ n) < 2 ^ n → rne m n = m / 2 ^ n) ∧
  (2 ^ n < 2 * (m mod 2 ^ n) → rne m n = m / 2 ^ n + 1) ∧
  (m / 2 ^ n <= rne m n <= m / 2 ^ n + 1).
Proof.
  intros Hm Hn. unfold rne, rne_up. split_and!.
  - intros H. replace (2 ^ n <? 2 * (m mod 2 ^ n)) with false by (symmetry; apply Z.ltb_ge; lia).
    replace (2 ^ n =? 2 * (m mod 2 ^ n)) with false by (symmetry; apply Z.eqb_neq; lia).
    simpl. lia.
  - intros H. replace (2 ^ n <? 2 * (m mod 2 ^ n)) with true by (symmetry; apply Z.ltb_lt; lia).
    simpl. lia.
  - destruct (_ || _); simpl; lia.
  - destruct (_ || _); simpl; lia.
Qed.

Lemma SFabs_binary_round sx p ez :
  -1074 <= ez → SFabs (binary_round prec emax sx p ez) = binary_round prec emax false p ez.
Proof.
  intros Hez.
  destruct (Z_le_gt_dec (b64_fexp (Z.pos (digits2_pos p) + ez)) ez) as [He|He].
  - destruct (binary_round_exact sx p ez He) as (mz & Hmz & _ & ->).
    destruct (binary_round_exact false p ez He) as (mz' & Hmz' & _ & ->).
    assert (mz = mz') as -> by lia. by destruct (_ <=? 971).
  - destruct (binary_round_inexact sx p ez Hez ltac:(lia)) as [_ ->].
    destruct (binary_round_inexact false p ez Hez ltac:(lia)) as [_ ->].
    by repeat destruct (_ <? _), (_ <=? _).
Qed.

(** A number past the midpoint below [my * 2^ey] is rounded to
    [my * 2^ey] or above. *)
Lemma round_above_midpoint p ez my ey :
  -1074 <= ez → canonical my ey → -1074 < ey → 2 ^ 52 < Z.pos my →
  (2 * Z.pos my - 1) * 2 ^ (ey - 1 + 1074) < scaled p ez →
  SFltb (binary_round prec emax false p ez) (S754_finite false my ey) = false.
Proof.
  intros Hez Hy Hey Hmy Hmid.
  pose proof (canonical_range _ _ Hy) as [Heyr Hmy53].
  assert (Hhalf : 2 ^ (ey + 1074) = 2 * 2 ^ (ey - 1 + 1074)).
  { rewrite <- Z.pow_succ_r by lia. f_equal. lia. }
  pose proof (pow2_pos (ey - 1 + 1074) ltac:(lia)) as Hph.
  assert (Hpred : ∃ mp, Z.pos mp = Z.pos my - 1 ∧ canonical mp ey).
  { exists (Z.to_pos (Z.pos my - 1)). rewrite Z2Pos.id by lia. split; [done|].
    apply canonical_53; [rewrite Z2Pos.id by lia|]; lia. }
  destruct Hpred as (mp & Hmp & Hcp).
  assert (Hle : scaled mp ey <= scaled p ez).
  { unfold scaled at 1. rewrite Hmp, Hhalf. nia. }
  assert (Hey' : -1074 <= ey) by lia.
  pose proof (digits_scaled_le _ _ _ _ Hey' Hez Hle) as Hd.
  apply b64_fexp_mono in Hd. destruct Hcp as [Hcp1 _]. rewrite Hcp1 in Hd.
  set (e' := b64_fexp (Z.pos (digits2_pos p) + ez)) in *.
  assert (Hnot : ∀ mr er, (ey < er ∨ (ey = er ∧ Z.pos my <= Z.pos mr)) →
            SFltb (S754_finite false mr er) (S754_finite false my ey) = false).
  { intros mr er Hlex. destruct (SFltb _ _) eqn:E; [|done].
    apply SFltb_pos in E. lia. }
  destruct (Z_le_gt_dec e' ez) as [Hexact|Hin].
  - destruct (binary_round_exact false p ez Hexact) as (mz & Hmz & _ & ->). fold e' in Hmz |- *.
    destruct (e' <=? 971); [|done]. apply Hnot.
    destruct (Z.eq_dec ey e') as [Heq|]; [right|left; lia]. split; [done|].
    rewrite (scaled_split p ez ey) in Hmid by lia. rewrite <- Heq in Hmz. rewrite <- Hmz in Hmid.
    rewrite Hhalf in Hmid. nia.
  - destruct (binary_round_inexact false p ez Hez ltac:(fold e'; lia)) as [Hq ->]. fold e' in Hq |- *.
    set (n := e' - ez) in *.
    destruct (rne_cases (Z.pos p) n ltac:(lia) ltac:(lia)) as (_ & Hup & Hb).
    set (m1 := rne (Z.pos p) n) in *.
    assert (Hpn : 0 < 2 ^ n) by (apply Z.pow_pos_nonneg; lia).
    assert (Hcase : ey = e' → Z.pos my <= m1).
    { intros Heq.
      assert (Hp : (2 * Z.pos my - 1) * 2 ^ n < 2 * Z.pos p).
      { unfold scaled in Hmid.
        assert (Hsplit : 2 ^ (ey - 1 + 1074) * 2 = 2 ^ n * 2 ^ (ez + 1074)).
        { rewrite <- Z.pow_add_r by lia. rewrite Z.mul_comm, <- Z.pow_succ_r by lia.
          f_equal. lia. }
        pose proof (pow2_pos (ez + 1074) ltac:(lia)). nia. }
      pose proof (Z.div_mod (Z.pos p) (2 ^ n) ltac:(lia)) as Hdm.
      pose proof (Z.mod_pos_bound (Z.pos p) (2 ^ n) ltac:(lia)) as Hrem.
      set (q := Z.pos p / 2 ^ n) in *. set (r := Z.pos p mod 2 ^ n) in *.
      destruct (Z_le_gt_dec (Z.pos my) q); [lia|].
      assert (q = Z.pos my - 1) by nia.
      assert (2 ^ n < 2 * r) by nia.
      rewrite Hup by done. lia. }
    destruct (m1 <? 2 ^ 53) eqn:Hlt.
    + destruct (e' <=? 971); [|done]. apply Z.ltb_lt in Hlt. apply Hnot.
      destruct (Z.eq_dec ey e') as [Heq|]; [right|left; lia]. split; [done|].
      rewrite Z2Pos.id by lia. auto.
    + destruct (e' + 1 <=? 971); [|done]. apply Hnot. left. lia.
Qed.

(** Two finite numbers a ten-thousandth or more apart, as real numbers, are
    that far apart once their difference is rounded. *)
Lemma SF64sub_far a t :
  SpecFloat.valid_binary prec emax a = true → SpecFloat.valid_binary prec emax t = true →
  sf_is_finite a = true → sf_is_finite t = true →
  2 ^ 1074 <= 10000 * Z.abs (sf_exact a - sf_exact t) →
  SFltb (SFabs (SF64sub a t)) (S754_finite false 7378697629483821 (-66)) = false.
Proof.
  intros Hva Hvt Hfa Hft Hfar.
  assert (Htol : canonical 7378697629483821 (-66)) by (by apply (valid_canonical false)).
  assert (Hpredc : canonical 7378697629483820 (-66)) by (by apply (valid_canonical false)).
  pose proof (pow2_pos 1074 ltac:(lia)) as HB.
  assert (Hpredv : 10000 * scaled 7378697629483820 (-66) < 2 ^ 1074) by (by vm_compute).
  assert (Hmidc : 10000 * ((2 * 7378697629483821 - 1) * 2 ^ (-66 - 1 + 1074)) < 2 ^ 1074)
    by (by vm_compute).
  assert (Hone : ∀ m e, canonical m e → 2 ^ 1074 <= 10000 * scaled m e →
            SFltb (S754_finite false m e) (S754_finite false 7378697629483821 (-66)) = false).
  { intros m e Hc Hm. destruct (SFltb _ _) eqn:E; [|done]. exfalso.
    apply SFltb_pos in E.
    assert (Hlex : e < -66 ∨ (e = -66 ∧ Z.pos m <= Z.pos 7378697629483820)) by lia.
    apply (lex_scaled_le m e 7378697629483820 (-66) Hc Hpredc) in Hlex.
    lia. }
  set (B := 2 ^ 1074) in *. clearbody B.
  destruct a as [sa| | |sa ma ea], t as [st| | |st mt et]; try done.
  - simpl in Hfar. lia.
  - apply valid_canonical in Hvt.
    replace (SFabs (SF64sub (S754_zero sa) (S754_finite st mt et))) with (S754_finite false mt et)
      by (by destruct sa, st).
    apply Hone; [done|]. simpl in Hfar. destruct st; simpl in Hfar; unfold scaled in *; lia.
  - apply valid_canonical in Hva.
    replace (SFabs (SF64sub (S754_finite sa ma ea) (S754_zero st))) with (S754_finite false ma ea)
      by (by destruct sa, st).
    apply Hone; [done|]. simpl in Hfar. destruct sa; simpl in Hfar; unfold scaled in *; lia.
  - apply valid_canonical in Hva, Hvt.
    pose proof (canonical_range _ _ Hva) as [Hea _].
    pose proof (canonical_range _ _ Hvt) as [Het _].
    unfold SF64sub, SFsub. rewrite !shl_align_fst by lia.
    set (ez := Z.min ea et).
    assert (Hez : -1074 <= ez) by lia.
    simpl in Hfar. rewrite (scaled_split ma ea ez), (scaled_split mt et ez) in Hfar by lia.
    set (Ma := Z.pos ma * 2 ^ (ea - ez)) in *. set (Mt := Z.pos mt * 2 ^ (et - ez)) in *.
    pose proof (pow2_pos (ez + 1074) ltac:(lia)) as HpB.
    set (V := cond_Zopp sa Ma - cond_Zopp st Mt).
    assert (HV : Z.abs (cond_Zopp sa (Ma * 2 ^ (ez + 1074)) - cond_Zopp st (Mt * 2 ^ (ez + 1074)))
                 = Z.abs V * 2 ^ (ez + 1074)).
    { unfold V. destruct sa, st; simpl; nia. }
    rewrite HV in Hfar.
    destruct V as [|p|p] eqn:EV; simpl binary_normalize.
    + simpl in Hfar. lia.
    + rewrite SFabs_binary_round by done.
      apply round_above_midpoint; try done; try lia. unfold scaled. simpl Z.abs in Hfar. lia.
    + rewrite SFabs_binary_round by done.
      apply round_above_midpoint; try done; try lia. unfold scaled. simpl Z.abs in Hfar. lia.
Qed.

End Binary64.

(** ** The same facts on Python floats *)

Lemma float_leb_number t e : (t <=? e) = true → sf_is_nan (Prim2SF t) = false.
Proof. rewrite leb_spec. apply SFleb_nan_l. Qed.

Lemma float_leb_refl t : sf_is_nan (Prim2SF t) = false → (t <=? t) = true.
Proof. rewrite leb_spec. apply SFleb_refl. Qed.

Lemma float_leb_trans x y z : (x <=? y) = true → (y <=? z) = true → (x <=? z) = true.
Proof. rewrite !leb_spec. apply SFleb_trans. Qed.

Lemma float_leb_ltb_trans x y z : (x <=? y) = true → (y <? z) = true → (x <? z) = true.
Proof. rewrite leb_spec, !ltb_spec. apply SFleb_ltb_trans. Qed.

Lemma float_leb_not_ltb x y : (x <=? y) = true → (y <? x) = false.
Proof. rewrite leb_spec, ltb_spec. apply SFleb_not_ltb. Qed.

Lemma float_add_pos_ge t s ms es :
  Prim2SF s = S754_finite false ms es →
  sf_is_nan (Prim2SF t) = false → (t <=? t + s) = true.
Proof.
  intros Hs Ht. rewrite leb_spec, add_spec, Hs.
  apply SF64add_ge_self; [apply Prim2SF_valid | done |].
  apply (valid_canonical false). rewrite <- Hs. apply Prim2SF_valid.
Qed.

Lemma float_sub_self x :
  match Prim2SF x with S754_zero _ | S754_finite _ _ _ => True | _ => False end →
  Prim2SF (x - x) = S754_zero false.
Proof.
  rewrite sub_spec. destruct (Prim2SF x) as [[]| | |s m e]; try done. intros _.
  unfold SF64sub, SFsub. rewrite Z.sub_diag. reflexivity.
Qed.

Lemma matches_far_apart asc_lon_deg horary_asc_deg :
  far_apart asc_lon_deg horary_asc_deg → matches asc_lon_deg horary_asc_deg = false.
Proof.
  intros (Ha & Ht & Hfar). unfold matches. rewrite ltb_spec, abs_spec, sub_spec.
  change (Prim2SF 0.0001) with (S754_finite false 7378697629483821 (-66)).
  apply SF64sub_far; auto using Prim2SF_valid.
Qed.

Lemma float_in_range_finite lo hi x :
  (lo <=? x) = true → (x <? hi) = true →
  match Prim2SF lo, Prim2SF hi with
  | (S754_zero _ | S754_finite _ _ _), (S754_zero _ | S754_finite _ _ _) => True
  | _, _ => False
  end →
  match Prim2SF x with S754_zero _ | S754_finite _ _ _ => True | _ => False end.
Proof.
  rewrite leb_spec, ltb_spec.
  destruct (Prim2SF lo) as [?|?| |s1 m1 e1], (Prim2SF hi) as [?|?| |s2 m2 e2]; try done;
    destruct (Prim2SF x) as [|[]| |]; try done; try destruct s1; try destruct s2; done.
Qed.

(** * The search *)

Section SearchFacts.
Context {swe : Swisseph}.

Lemma instant_succ jd_start k : instant jd_start (S k) = instant (jd_start + increment) k.
Proof. unfold instant. by rewrite Nat.iter_succ_r. Qed.

Lemma jd_to_datetime_run jdt tz_offset w :
  ∃ evs, jd_to_datetime jdt tz_offset w =
           (to_outcome (local_time jdt tz_offset), World (sid_mode w) (evs ++ trace w)) ∧
         houses_calls evs = [].
Proof.
  unfold jd_to_datetime, local_time, jdut1_to_utc, utc_time_zone.
  unfold mbind, M_bind, bind, log, lift, ret, raise. cbn.
  destruct (swe_jdut1_to_utc jdt) as [e|utc]; cbn.
  { by eexists [_]. }
  destruct (swe_utc_time_zone utc (- tz_offset)) as [e|local]; cbn.
  { by eexists [_; _]. }
  destruct (py_int (py_mod1 (c_seconds local) * 1000000)) as [e|us]; cbn.
  { by eexists [_; _]. }
  destruct (py_int (c_seconds local)) as [e|s]; cbn.
  { by eexists [_; _]. }
  destruct (datetime_new _ _ _ _ _ _ _) as [e|dt]; cbn; by eexists [_; _].
Qed.

Lemma houses_ex_run t lat lon w :
  houses_ex t lat lon w =
    (to_outcome (swe_houses_ex (sid_mode w) t lat lon),
     World (sid_mode w) (HousesEx t lat lon :: trace w)).
Proof.
  unfold houses_ex, configured_mode. unfold mbind, M_bind, bind, log, lift, ret, raise. cbn.
  by destruct (swe_houses_ex _ _ _ _).
Qed.

Lemma returns_jd_to_datetime mode t off dt :
  returns_in mode (jd_to_datetime t off) dt ↔ local_time t off = inr dt.
Proof.
  split.
  - intros H. specialize (H (World mode []) eq_refl).
    destruct (jd_to_datetime_run t off (World mode [])) as (evs & Hrun & _).
    rewrite Hrun in H. cbn in H. by destruct (local_time t off); simplify_eq/=.
  - intros H w _. destruct (jd_to_datetime_run t off w) as (evs & -> & _).
    by rewrite H.
Qed.

Lemma returns_houses_ex mode t lat lon cusps :
  returns_in mode (houses_ex t lat lon) cusps ↔ swe_houses_ex mode t lat lon = inr cusps.
Proof.
  split.
  - intros H. specialize (H (World mode []) eq_refl). rewrite houses_ex_run in H. cbn in H.
    by destruct (swe_houses_ex mode t lat lon); simplify_eq/=.
  - intros H w <-. rewrite houses_ex_run. cbn. by rewrite H.
Qed.

Lemma houses_calls_app tr1 tr2 :
  houses_calls (tr1 ++ tr2) = houses_calls tr1 ++ houses_calls tr2.
Proof. unfold houses_calls. apply omap_app. Qed.

Variables (mode : sidm) (utc_offset lat lon horary_asc_deg jd_end : float).

Local Abbreviation scan' fuel := (scan fuel utc_offset lat lon horary_asc_deg jd_end).
Local Abbreviation probe' := (probe mode utc_offset lat lon horary_asc_deg jd_end).

(** One turn of the loop, for each way it can go. *)
Lemma scan_outside fuel t w :
  (t <=? jd_end) = false →
  scan' (S fuel) t w = (Returned None, World (sid_mode w) (PrintNoMatch :: trace w)).
Proof. intros H. cbn. rewrite H. reflexivity. Qed.

Lemma scan_miss fuel t w dt asc :
  sid_mode w = Some mode → probe' t dt asc false →
  ∃ w', scan' (S fuel) t w = scan' fuel (t + increment) w' ∧
        sid_mode w' = Some mode ∧
        houses_calls (trace w') = t :: houses_calls (trace w).
Proof.
  intros Hw (Hin & Hdt & (cusps & Hc & Hasc) & Hm).
  apply returns_jd_to_datetime in Hdt. apply returns_houses_ex in Hc.
  cbn [scan]. rewrite Hin.
  unfold mbind, M_bind, bind.
  destruct (jd_to_datetime_run t utc_offset w) as (evs & -> & Hevs). rewrite Hdt. cbn.
  rewrite houses_ex_run. cbn. rewrite Hw, Hc. cbn. rewrite Hasc. cbn. rewrite Hm.
  eexists. split_and!; [done..|]. cbn. by rewrite !houses_calls_app, Hevs.
Qed.

Lemma scan_hit fuel t w dt asc :
  sid_mode w = Some mode → probe' t dt asc true →
  ∃ w', scan' (S fuel) t w = (Returned (Some dt), w') ∧
        sid_mode w' = Some mode ∧
        houses_calls (trace w') = t :: houses_calls (trace w).
Proof.
  intros Hw (Hin & Hdt & (cusps & Hc & Hasc) & Hm).
  apply returns_jd_to_datetime in Hdt. apply returns_houses_ex in Hc.
  cbn [scan]. rewrite Hin.
  unfold mbind, M_bind, bind.
  destruct (jd_to_datetime_run t utc_offset w) as (evs & -> & Hevs). rewrite Hdt. cbn.
  rewrite houses_ex_run. cbn. rewrite Hw, Hc. cbn. rewrite Hasc. cbn. rewrite Hm.
  unfold log. cbn.
  match goal with |- context [jd_to_datetime t utc_offset ?w1] =>
    destruct (jd_to_datetime_run t utc_offset w1) as (evs' & -> & Hevs') end.
  rewrite Hdt. cbn.
  eexists. split_and!; [done..|]. cbn. rewrite !houses_calls_app, Hevs'. cbn.
  by rewrite !houses_calls_app, Hevs.
Qed.

(** Every way a turn of the loop can go. *)
Lemma scan_cases fuel t w :
  sid_mode w = Some mode →
  ((t <=? jd_end) = false ∧
   scan' (S fuel) t w = (Returned None, World (sid_mode w) (PrintNoMatch :: trace w)))
  ∨ ((t <=? jd_end) = true ∧
     ((∃ e w', scan' (S fuel) t w = (Raised e, w') ∧
               (houses_calls (trace w') = houses_calls (trace w) ∨
                houses_calls (trace w') = t :: houses_calls (trace w)))
      ∨ (∃ dt asc w', probe' t dt asc true ∧
               scan' (S fuel) t w = (Returned (Some dt), w') ∧
               houses_calls (trace w') = t :: houses_calls (trace w))
      ∨ (∃ dt asc w', probe' t dt asc false ∧
               scan' (S fuel) t w = scan' fuel (t + increment) w' ∧
               sid_mode w' = Some mode ∧
               houses_calls (trace w') = t :: houses_calls (trace w)))).
Proof.
  intros Hw. destruct (t <=? jd_end) eqn:Hin; [right|left].
  2: { split; [done|]. by apply scan_outside. }
  split; [done|].
  destruct (local_time t utc_offset) as [e|dt] eqn:Hdt.
  { left. cbn [scan]. rewrite Hin. unfold mbind, M_bind, bind.
    destruct (jd_to_datetime_run t utc_offset w) as (evs & -> & Hevs). rewrite Hdt. cbn.
    eexists _, _. split; [done|]. left. cbn. by rewrite houses_calls_app, Hevs. }
  destruct (swe_houses_ex (Some mode) t lat lon) as [e|cusps] eqn:Hc.
  { left. cbn [scan]. rewrite Hin. unfold mbind, M_bind, bind.
    destruct (jd_to_datetime_run t utc_offset w) as (evs & -> & Hevs). rewrite Hdt. cbn.
    rewrite houses_ex_run. cbn. rewrite Hw, Hc. cbn.
    eexists _, _. split; [done|]. right. cbn. by rewrite houses_calls_app, Hevs. }
  destruct (cusps !! 0%nat) as [asc|] eqn:Hasc.
  2: { left. cbn [scan]. rewrite Hin. unfold mbind, M_bind, bind.
    destruct (jd_to_datetime_run t utc_offset w) as (evs & -> & Hevs). rewrite Hdt. cbn.
    rewrite houses_ex_run. cbn. rewrite Hw, Hc. cbn. rewrite Hasc. cbn.
    eexists _, _. split; [done|]. right. cbn. by rewrite houses_calls_app, Hevs. }
  assert (Hp : probe' t dt asc (matches asc horary_asc_deg)).
  { split_and!; [done | by apply returns_jd_to_datetime | | done].
    exists cusps. split; [by apply returns_houses_ex | done]. }
  right. destruct (matches asc horary_asc_deg) eqn:Hm; [left|right].
  - destruct (scan_hit fuel t w dt asc Hw Hp) as (w' & ? & ? & ?). by exists dt, asc, w'.
  - destruct (scan_miss fuel t w dt asc Hw Hp) as (w' & ? & ? & ?). by exists dt, asc, w'.
Qed.

Lemma probed_succ jd_start n :
  probed jd_start (S n) = probed (jd_start + increment) n ++ [jd_start].
Proof.
  unfold probed. cbn [seq map rev]. rewrite <- seq_shift, map_map.
  f_equal. f_equal. apply map_ext. intros k. apply instant_succ.
Qed.

(** If the first [k] instants are probed and missed and the next one is a
    hit, the loop returns the civil time of that hit. *)
Lemma scan_first_hit k : ∀ fuel t w dt,
  sid_mode w = Some mode → (k < fuel)%nat →
  (∀ j, (j < k)%nat → ∃ dt' asc, probe' (instant t j) dt' asc false) →
  (∃ asc, probe' (instant t k) dt asc true) →
  ∃ w', scan' fuel t w = (Returned (Some dt), w') ∧
        houses_calls (trace w') = probed t (S k) ++ houses_calls (trace w).
Proof.
  induction k as [|k IH]; intros fuel t w dt Hw Hfuel Hmiss [asc Hhit];
    destruct fuel as [|fuel]; try lia.
  - destruct (scan_hit fuel t w dt asc Hw Hhit) as (w' & ? & ? & ?). by exists w'.
  - destruct (Hmiss 0%nat ltac:(lia)) as (dt0 & asc0 & H0).
    destruct (scan_miss fuel t w dt0 asc0 Hw H0) as (w1 & -> & Hw1 & Hc1).
    destruct (IH fuel (t + increment) w1 dt Hw1 ltac:(lia)) as (w' & Hrun & Hc).
    + intros j Hj. rewrite <- instant_succ. apply Hmiss. lia.
    + exists asc. by rewrite <- instant_succ.
    + exists w'. split; [done|]. rewrite Hc, Hc1, (probed_succ t (S k)).
      by rewrite <- app_assoc.
Qed.

(** If the first [k] instants are probed and missed and the next one lies
    past the end of the window, the loop ends and [None] is returned. *)
Lemma scan_no_hit k : ∀ fuel t w,
  sid_mode w = Some mode → (k < fuel)%nat →
  (∀ j, (j < k)%nat → ∃ dt' asc, probe' (instant t j) dt' asc false) →
  (instant t k <=? jd_end) = false →
  ∃ w', scan' fuel t w = (Returned None, w') ∧
        head (trace w') = Some PrintNoMatch ∧
        houses_calls (trace w') = probed t k ++ houses_calls (trace w).
Proof.
  induction k as [|k IH]; intros fuel t w Hw Hfuel Hmiss Hout;
    destruct fuel as [|fuel]; try lia.
  - rewrite scan_outside by done. by eexists.
  - destruct (Hmiss 0%nat ltac:(lia)) as (dt0 & asc0 & H0).
    destruct (scan_miss fuel t w dt0 asc0 Hw H0) as (w1 & -> & Hw1 & Hc1).
    destruct (IH fuel (t + increment) w1 Hw1 ltac:(lia)) as (w' & Hrun & Hhd & Hc).
    + intros j Hj. rewrite <- instant_succ. apply Hmiss. lia.
    + by rewrite <- instant_succ.
    + exists w'. split_and!; [done..|]. rewrite Hc, Hc1, (probed_succ t k).
      by rewrite <- app_assoc.
Qed.

(** Whatever the loop returns, it got there by missing the instants before. *)
Lemma scan_returned fuel : ∀ t w r w',
  sid_mode w = Some mode → scan' fuel t w = (Returned r, w') →
  ∃ k, (k < fuel)%nat ∧
    (∀ j, (j < k)%nat → ∃ dt' asc, probe' (instant t j) dt' asc false) ∧
    match r with
    | Some dt => (∃ asc, probe' (instant t k) dt asc true) ∧
                 houses_calls (trace w') = probed t (S k) ++ houses_calls (trace w)
    | None => (instant t k <=? jd_end) = false ∧
              houses_calls (trace w') = probed t k ++ houses_calls (trace w)
    end.
Proof.
  induction fuel as [|fuel IH]; intros t w r w' Hw Hrun; [done|].
  destruct (scan_cases fuel t w Hw) as [[Hout Hs]|[Hin [(e & w1 & Hs & _)|[(dt & asc & w1 & Hp & Hs & Hc)|(dt & asc & w1 & Hp & Hs & Hw1 & Hc)]]]];
    rewrite Hs in Hrun.
  - simplify_eq. exists 0%nat. split_and!; [lia | intros; lia | done..].
  - done.
  - simplify_eq. exists 0%nat. split_and!; [lia | intros; lia | by exists asc | by rewrite Hc].
  - destruct (IH _ _ _ _ Hw1 Hrun) as (k & Hk & Hmiss & Hr).
    exists (S k). split_and!; [lia | |].
    + intros [|j] Hj; [by exists dt, asc|]. rewrite instant_succ. apply Hmiss. lia.
    + destruct r as [dt'|].
      * destruct Hr as [Hhit Hcalls]. split; [by rewrite instant_succ|].
        rewrite Hcalls, Hc, (probed_succ t (S k)). by rewrite <- app_assoc.
      * destruct Hr as [Hout Hcalls]. split; [by rewrite instant_succ|].
        rewrite Hcalls, Hc, (probed_succ t k). by rewrite <- app_assoc.
Qed.

(** Once some instant lies past the end of the window the loop is over by
    then, however it ends. *)
Lemma scan_terminates k : ∀ fuel t w,
  sid_mode w = Some mode → (k < fuel)%nat → (instant t k <=? jd_end) = false →
  ∃ n, (n <= k)%nat ∧
       (scan' fuel t w).1 ≠ Diverged ∧
       houses_calls (trace (scan' fuel t w).2) = probed t n ++ houses_calls (trace w) ∧
       ∀ j, (j < n)%nat → (instant t j <=? jd_end) = true.
Proof.
  induction k as [|k IH]; intros fuel t w Hw Hfuel Hout;
    destruct fuel as [|fuel]; try lia.
  - rewrite scan_outside by done. exists 0%nat. split_and!; [lia | done | done | intros; lia].
  - destruct (scan_cases fuel t w Hw) as [[_ Hs]|[Hin [(e & w1 & Hs & [Hc|Hc])|[(dt & asc & w1 & Hp & Hs & Hc)|(dt & asc & w1 & Hp & Hs & Hw1 & Hc)]]]];
      rewrite Hs.
    + exists 0%nat. split_and!; [lia | done | done | intros; lia].
    + exists 0%nat. split_and!; [lia | done | done | intros; lia].
    + exists 1%nat. split_and!; [lia | done | done | intros [|j] Hj; [done|lia]].
    + exists 1%nat. split_and!; [lia | done | done | intros [|j] Hj; [done|lia]].
    + destruct (IH fuel (t + increment) w1 Hw1 ltac:(lia)) as (n & Hn & Hdiv & Hcalls & Hwin).
      { by rewrite <- instant_succ. }
      exists (S n). split_and!; [lia | done | |].
      * rewrite Hcalls, Hc, (probed_succ t n). by rewrite <- app_assoc.
      * intros [|j] Hj; [done|]. rewrite instant_succ. apply Hwin. lia.
Qed.

End SearchFacts.

Section FindFacts.
Context {swe : Swisseph}.

Lemma find_setup fuel year month day utc_offset lat lon horary_asc_deg ayanamsa mode jd_start w :
  setup year month day utc_offset ayanamsa mode jd_start →
  ∃ w1, find_exact_ascendant_time fuel year month day utc_offset lat lon horary_asc_deg ayanamsa w =
          scan fuel utc_offset lat lon horary_asc_deg (jd_start + 1) jd_start w1 ∧
        sid_mode w1 = Some mode ∧
        houses_calls (trace w1) = houses_calls (trace w).
Proof.
  intros (Hmode & utc & jd_ut & Hutc & Hjd).
  unfold find_exact_ascendant_time, set_sid_mode, utc_time_zone, utc_to_jd.
  rewrite Hmode. unfold mbind, M_bind, bind, log, lift, ret, raise. cbn.
  rewrite Hutc. cbn. rewrite Hjd. cbn. by eexists.
Qed.

Lemma find_returned fuel year month day utc_offset lat lon horary_asc_deg ayanamsa w r w' :
  find_exact_ascendant_time fuel year month day utc_offset lat lon horary_asc_deg ayanamsa w =
    (Returned r, w') →
  ∃ mode jd_start, setup year month day utc_offset ayanamsa mode jd_start.
Proof.
  unfold find_exact_ascendant_time, set_sid_mode, utc_time_zone, utc_to_jd, setup.
  destruct (SWE_AYANAMAS !! ayanamsa) as [mode|]; [|done].
  unfold mbind, M_bind, bind, log, lift, ret, raise. cbn.
  destruct (swe_utc_time_zone _ _) as [e|utc] eqn:Hutc; [done|]. cbn.
  destruct (swe_utc_to_jd utc) as [e|[jd_start jd_ut]] eqn:Hjd; [done|]. cbn.
  intros _. exists mode, jd_start. split; [done|]. by exists utc, jd_ut.
Qed.

(** The scan never looks before its start. *)
Lemma instant_ge jd_end jd_start k :
  (∀ j, (j < k)%nat → (instant jd_start j <=? jd_end) = true) →
  sf_is_nan (Prim2SF jd_start) = false →
  (jd_start <=? instant jd_start k) = true.
Proof.
  intros Hwin Hnum. induction k as [|k IH].
  - by apply float_leb_refl.
  - eapply float_leb_trans; [apply IH; intros; apply Hwin; lia|].
    cbn. eapply float_add_pos_ge; [by vm_compute|].
    eapply float_leb_number, (Hwin k). lia.
Qed.

End FindFacts.

(** * The properties of the specification *)

Section Claims.
Context {swe : Swisseph}.

(** C1. The search returns the civil time [dt] exactly when [dt] is the
    conversion, with the request's UTC offset, of the first instant in scan
    order at which [abs (asc - target) < 0.0001] holds of the ascendant
    computed there: each instant before it was reached inside the window,
    had its ascendant computed and failed that test.  When such a first
    instant exists the search returns its time, having asked for the
    ascendant at the instants up to it, in scan order, and at no other.
    The instants start at the first component of the start-of-day conversion
    and each is the one before plus [1 / 864000] of a day. *)
Theorem first_match_is_returned
    fuel year month day utc_offset lat lon horary_asc_deg ayanamsa mode jd_start w dt :
  setup year month day utc_offset ayanamsa mode jd_start →
  let run := find_exact_ascendant_time fuel year month day utc_offset lat lon
               horary_asc_deg ayanamsa w in
  let reading_at := reading mode utc_offset lat lon (jd_start + 1) in
  let first_match (k : nat) :=
    (∀ j, (j < k)%nat →
       ∃ dt' asc, reading_at (instant jd_start j) dt' asc ∧
                  (abs (asc - horary_asc_deg) <? 0.0001) = false) ∧
    (∃ asc, reading_at (instant jd_start k) dt asc ∧
            (abs (asc - horary_asc_deg) <? 0.0001) = true) in
  (run.1 = Returned (Some dt) ↔ ∃ k, (k < fuel)%nat ∧ first_match k) ∧
  (∀ k, (k < fuel)%nat → first_match k →
     run.1 = Returned (Some dt) ∧
     houses_calls (trace run.2) = probed jd_start (S k) ++ houses_calls (trace w)) ∧
  instant jd_start 0 = jd_start ∧
  (∀ j, instant jd_start (S j) = instant jd_start j + 1 / 864000).
Proof.
  intros Hsetup run reading_at first_match. subst run.
  destruct (find_setup fuel _ _ _ _ lat lon horary_asc_deg _ _ _ w Hsetup) as (w1 & -> & Hw1 & Hc1).
  rewrite <- Hc1.
  assert (Hprobe : ∀ t dt' asc hit,
    probe mode utc_offset lat lon horary_asc_deg (jd_start + 1) t dt' asc hit ↔
    reading_at t dt' asc ∧ (abs (asc - horary_asc_deg) <? 0.0001) = hit).
  { intros t dt' asc hit. unfold probe, reading_at, reading, matches. tauto. }
  assert (Hfirst : ∀ k, first_match k ↔
    (∀ j, (j < k)%nat →
       ∃ dt' asc, probe mode utc_offset lat lon horary_asc_deg (jd_start + 1)
                        (instant jd_start j) dt' asc false) ∧
    (∃ asc, probe mode utc_offset lat lon horary_asc_deg (jd_start + 1)
                  (instant jd_start k) dt asc true)).
  { intros k. unfold first_match. split.
    - intros [Hmiss [asc Hhit]]. split; [|exists asc; by apply Hprobe].
      intros j Hj. destruct (Hmiss j Hj) as (dt' & asc' & H). exists dt', asc'. by apply Hprobe.
    - intros [Hmiss [asc Hhit]]. split; [|exists asc; by apply Hprobe].
      intros j Hj. destruct (Hmiss j Hj) as (dt' & asc' & H). exists dt', asc'. by apply Hprobe. }
  assert (Hhit : ∀ k, (k < fuel)%nat → first_match k →
    (scan fuel utc_offset lat lon horary_asc_deg (jd_start + 1) jd_start w1).1
      = Returned (Some dt) ∧
    houses_calls (trace (scan fuel utc_offset lat lon horary_asc_deg (jd_start + 1)
                           jd_start w1).2)
      = probed jd_start (S k) ++ houses_calls (trace w1)).
  { intros k Hk [Hmiss Hlast]%Hfirst.
    destruct (scan_first_hit mode utc_offset lat lon horary_asc_deg (jd_start + 1)
                k fuel jd_start w1 dt Hw1 Hk Hmiss Hlast) as (w' & -> & Hcalls).
    done. }
  split; [split|split; [exact Hhit|split; [reflexivity|intros j; reflexivity]]].
  - intros Hrun.
    destruct (scan _ _ _ _ _ _ _ w1) as [r w'] eqn:Hscan. cbn in Hrun. subst r.
    destruct (scan_returned mode _ _ _ _ _ _ _ _ _ _ Hw1 Hscan) as (k & Hk & Hmiss & Hlast & _).
    exists k. split; [done|]. by apply Hfirst.
  - intros (k & Hk & Hk1). by destruct (Hhit k Hk Hk1).
Qed.

(** C5. A name outside the seven recognised ones makes the search fail
    with UnknownAyanamsa at its first step: the world is left as it was, so
    no call to the ephemeris has been made. *)
Theorem unknown_ayanamsa_rejected
    fuel year month day utc_offset lat lon horary_asc_deg (ayanamsa : string) w :
  ayanamsa ∉ ["Krishnamurti"; "Krishnamurti_New"; "Lahiri_1940"; "Lahiri_VP285";
              "Lahiri_ICRC"; "Raman"; "Yukteshwar"]%string →
  find_exact_ascendant_time fuel year month day utc_offset lat lon horary_asc_deg ayanamsa w =
    (Raised UnknownAyanamsa, w).
Proof.
  intros Hnot.
  assert (Hnone : SWE_AYANAMAS !! ayanamsa = None).
  { apply not_elem_of_list_to_map_1. exact Hnot. }
  unfold find_exact_ascendant_time. rewrite Hnone. reflexivity.
Qed.

(** C6. When every instant of the window is probed and misses the
    tolerance, and the next instant lies past the end of the window, the
    search returns [None]: a value, not an exception, not a missing answer
    and not a matched time. *)
Theorem not_found_is_returned
    fuel year month day utc_offset lat lon horary_asc_deg ayanamsa mode jd_start w k :
  setup year month day utc_offset ayanamsa mode jd_start →
  (k < fuel)%nat →
  (∀ j, (j < k)%nat →
     ∃ dt' asc, probe mode utc_offset lat lon horary_asc_deg (jd_start + 1)
                      (instant jd_start j) dt' asc false) →
  (instant jd_start k <=? jd_start + 1) = false →
  let run := find_exact_ascendant_time fuel year month day utc_offset lat lon
               horary_asc_deg ayanamsa w in
  run.1 = Returned None ∧
  head (trace run.2) = Some PrintNoMatch ∧
  (∀ e, run.1 ≠ Raised e) ∧ run.1 ≠ Diverged ∧ (∀ dt, run.1 ≠ Returned (Some dt)).
Proof.
  intros Hsetup Hk Hmiss Hout run. subst run.
  destruct (find_setup fuel _ _ _ _ lat lon horary_asc_deg _ _ _ w Hsetup) as (w1 & -> & Hw1 & _).
  destruct (scan_no_hit mode utc_offset lat lon horary_asc_deg (jd_start + 1)
              k fuel jd_start w1 Hw1 Hk Hmiss Hout) as (w' & -> & Hhd & _).
  done.
Qed.

(** C8. When the ascendant at [jd_start] itself equals the target degree,
    the first turn of the loop matches: the search returns the civil time
    of [jd_start] and has asked for the ascendant once, at [jd_start]. *)
Theorem match_at_window_start
    fuel year month day utc_offset lat lon horary_asc_deg ayanamsa mode jd_start w dt cusps :
  setup year month day utc_offset ayanamsa mode jd_start →
  (0 < fuel)%nat →
  PrimFloat.is_nan jd_start = false →
  (0 <=? horary_asc_deg) = true → (horary_asc_deg <? 360) = true →
  returns_in (Some mode) (jd_to_datetime jd_start utc_offset) dt →
  returns_in (Some mode) (houses_ex jd_start lat lon) cusps →
  cusps !! 0%nat = Some horary_asc_deg →
  let run := find_exact_ascendant_time fuel year month day utc_offset lat lon
               horary_asc_deg ayanamsa w in
  run.1 = Returned (Some dt) ∧
  houses_calls (trace run.2) = jd_start :: houses_calls (trace w).
Proof.
  intros Hsetup Hfuel Hnum H0 H360 Hdt Hc Hasc run. subst run.
  destruct (find_setup fuel _ _ _ _ lat lon horary_asc_deg _ _ _ w Hsetup) as (w1 & -> & Hw1 & Hc1).
  destruct fuel as [|fuel]; [lia|].
  assert (Hnan : sf_is_nan (Prim2SF jd_start) = false).
  { unfold PrimFloat.is_nan in Hnum. rewrite FloatAxioms.eqb_spec in Hnum.
    by destruct (Prim2SF jd_start). }
  assert (Hp : probe mode utc_offset lat lon horary_asc_deg (jd_start + 1)
                 jd_start dt horary_asc_deg true).
  { split_and!; [| done | by exists cusps |].
    - eapply float_add_pos_ge; [by vm_compute | done].
    - unfold matches. rewrite ltb_spec, abs_spec, float_sub_self; [done|].
      eapply (float_in_range_finite 0 360); [done..|]. by vm_compute. }
  destruct (scan_hit mode _ _ _ _ _ fuel jd_start w1 dt _ Hw1 Hp) as (w' & -> & _ & Hc').
  cbn. by rewrite Hc', Hc1.
Qed.

(** C9. The test is the plain difference of the two degrees: an instant
    whose ascendant differs from the target, as real numbers, by 0.0001 or
    more is not accepted, the loop going on with the next instant, and
    nothing is reduced modulo 360: 359.99995 is no match for 0, one
    twenty-thousandth of a degree away on the circle. *)
Theorem no_wraparound_in_match_test
    fuel utc_offset lat lon horary_asc_deg jd_end mode t dt asc w :
  sid_mode w = Some mode →
  probe mode utc_offset lat lon horary_asc_deg jd_end t dt asc
        (matches asc horary_asc_deg) →
  far_apart asc horary_asc_deg →
  (∃ w', scan (S fuel) utc_offset lat lon horary_asc_deg jd_end t w =
           scan fuel utc_offset lat lon horary_asc_deg jd_end (t + increment) w' ∧
         houses_calls (trace w') = t :: houses_calls (trace w)) ∧
  matches asc horary_asc_deg = false ∧
  matches 359.99995 0 = false ∧
  (360 - abs (359.99995 - 0) <? 0.0001) = true.
Proof.
  intros Hw Hp Hfar.
  assert (Hm : matches asc horary_asc_deg = false).
  { by apply matches_far_apart. }
  rewrite Hm in Hp.
  destruct (scan_miss mode _ _ _ _ _ fuel t w dt asc Hw Hp) as (w' & Hrun & _ & Hc).
  split_and!; [by exists w' | done | by vm_compute | by vm_compute].
Qed.

(** C10. A returned civil time is that of an instant [t] of the window,
    [jd_start <= t <= jd_start + 1], at which the ascendant was computed and
    found within the tolerance of the target. *)
Theorem returned_time_is_witnessed
    fuel year month day utc_offset lat lon horary_asc_deg ayanamsa w dt :
  (find_exact_ascendant_time fuel year month day utc_offset lat lon
     horary_asc_deg ayanamsa w).1 = Returned (Some dt) →
  ∃ mode jd_start t asc,
    setup year month day utc_offset ayanamsa mode jd_start ∧
    (jd_start <=? t) = true ∧ (t <=? jd_start + 1) = true ∧
    returns_in (Some mode) (jd_to_datetime t utc_offset) dt ∧
    (∃ cusps, returns_in (Some mode) (houses_ex t lat lon) cusps ∧
              cusps !! 0%nat = Some asc) ∧
    (abs (asc - horary_asc_deg) <? 0.0001) = true.
Proof.
  intros Hrun.
  destruct (find_exact_ascendant_time _ _ _ _ _ _ _ _ _ w) as [r w'] eqn:Hfind.
  cbn in Hrun. subst r.
  destruct (find_returned _ _ _ _ _ _ _ _ _ _ _ _ Hfind) as (mode & jd_start & Hsetup).
  destruct (find_setup fuel _ _ _ _ lat lon horary_asc_deg _ _ _ w Hsetup) as (w1 & Hscan & Hw1 & _).
  rewrite Hscan in Hfind.
  destruct (scan_returned mode _ _ _ _ _ _ _ _ _ _ Hw1 Hfind)
    as (k & Hk & Hmiss & [asc (Hin & Hdt & Hcusps & Hm)] & _).
  exists mode, jd_start, (instant jd_start k), asc.
  split_and!; try done.
  apply (instant_ge (jd_start + 1)).
  - intros j Hj. destruct (Hmiss j Hj) as (? & ? & ? & _). done.
  - destruct k as [|k]; [by eapply float_leb_number|].
    destruct (Hmiss 0%nat ltac:(lia)) as (? & ? & ? & _). by eapply float_leb_number.
Qed.

End Claims.

(** ** The round trip of a civil time *)

Section RoundTrip.
Context {swe : Swisseph}.

(** The round trip converts back the first of the two Julian days, and
    never reads the second. *)
Lemma civil_round_trip_run c utc_offset utc jd_first jd_second w :
  swe_utc_time_zone c utc_offset = inr utc →
  swe_utc_to_jd utc = inr (jd_first, jd_second) →
  civil_round_trip c utc_offset w =
    jd_to_datetime jd_first utc_offset
      (World (sid_mode w) (UtcToJd utc :: UtcTimeZone c utc_offset :: trace w)).
Proof.
  intros Hutc Hjd. unfold civil_round_trip, utc_time_zone, utc_to_jd.
  unfold mbind, M_bind, bind, log, lift, ret, raise. cbn.
  rewrite Hutc. cbn. by rewrite Hjd.
Qed.

End RoundTrip.

(** C2. The round trip, as the code makes it, is late by the difference
    between Ephemeris Time and UT1.  On 5 February 2024 with offset 0,
    [utc_to_jd] answers the Ephemeris Time day of local midnight first and
    its UT1 day second; converting the UT1 day back gives 00:00:00, but
    line 79 keeps the first and line 28 reads it as a UT1 day: midnight
    comes back as 00:01:09.09, 69 seconds late and not within one.  The
    search shows it: when the target is met at the very start of the day,
    the time it returns for the start of the day is 00:01:09.09. *)
Theorem round_trip_of_midnight_is_late :
  let midnight := Civil 2024 2 5 0 0 0 in
  let late := DateTime 2024 2 5 0 1 9 91115 in
  ∃ jd_et jd_ut1,
    swe_utc_time_zone (Swisseph := delta_t_day) midnight 0 = inr midnight ∧
    swe_utc_to_jd (Swisseph := delta_t_day) midnight = inr (jd_et, jd_ut1) ∧
    (jd_to_datetime (swe := delta_t_day) jd_ut1 0 initial_world).1
      = Returned (DateTime 2024 2 5 0 0 0 0) ∧
    (jd_to_datetime (swe := delta_t_day) jd_et 0 initial_world).1 = Returned late ∧
    (civil_round_trip (H := delta_t_day) midnight 0 initial_world).1 = Returned late ∧
    (find_exact_ascendant_time (swe := delta_t_day) 1 2024 2 5 0 11.02 76.98 10
       "Krishnamurti" initial_world).1 = Returned (Some late) ∧
    (dt_hour late * 3600 + dt_minute late * 60 + dt_second late = 69)%Z.
Proof.
  cbv zeta. eexists _, _. split; [reflexivity|]. split; [reflexivity|].
  split; [by vm_compute|]. split; [by vm_compute|]. split.
  - erewrite civil_round_trip_run; [|reflexivity|reflexivity]. by vm_compute.
  - split; [by vm_compute|reflexivity].
Qed.

(** * The resolver *)

Section ResolverFacts.
Local Open Scope Z_scope.

(** A sum of a positive number and a small non-negative one stays under a
    bound that the exact sum respects. *)
Lemma SF64add_below ma ea mb eb my ey hi x :
  canonical ma ea → canonical mb eb → canonical my ey →
  scaled ma ea + scaled mb eb <= scaled my ey →
  SFltb (S754_finite false my ey) hi = true →
  SpecFloat.valid_binary prec emax x = true →
  SFleb (S754_zero false) x = true → SFleb x (S754_finite false mb eb) = true →
  SFleb (S754_zero false) (SF64add (S754_finite false ma ea) x) = true ∧
  SFltb (SF64add (S754_finite false ma ea) x) hi = true.
Proof.
  intros Ha Hb Hy Hsum Hhi Hv H0 HB.
  assert (0 < scaled mb eb).
  { unfold scaled. pose proof (canonical_range _ _ Hb) as [? _].
    pose proof (pow2_pos (eb + 1074) ltac:(lia)). lia. }
  destruct x as [s|[]| |[] m e]; try (cbn in H0, HB; done).
  - (* a zero *)
    replace (SF64add (S754_finite false ma ea) (S754_zero s)) with (S754_finite false ma ea)
      by (by destruct s).
    split; [done|]. eapply SFleb_ltb_trans; [|done]. apply SFleb_scaled; auto. lia.
  - (* a positive number *)
    apply valid_canonical in Hv. apply SFleb_scaled in HB; auto.
    destruct (SF64add_pos_le ma ea m e my ey Ha Hv Hy ltac:(lia)) as (mr & er & -> & Hc & Hle).
    split; [done|]. eapply SFleb_ltb_trans; [|done]. by apply SFleb_scaled.
Qed.

End ResolverFacts.

Lemma sign_order_starts sign sign_start :
  sign_order !! sign = Some sign_start →
  sign_start ∈ [0; 30; 60; 90; 120; 150; 180; 210; 240; 270; 300; 330]%Z.
Proof.
  intros H. apply elem_of_list_to_map_2 in H.
  apply (list_elem_of_fmap_2 snd) in H. exact H.
Qed.


Section ResolverClaims.
Context {kp : Divisions}.

Lemma filter_numbered (f : nat → csv_row → kp_row) (l : list csv_row) (o : Z) n k r :
  (∀ i r, SL_Div_Nr (f i r) = (Z.of_nat i + o)%Z) →
  l !! k = Some r → n = (Z.of_nat k + o)%Z →
  filter (λ r, SL_Div_Nr r = n) (imap f l) !! 0%nat = Some (f k r).
Proof.
  revert f o k. induction l as [|x l IH]; intros f o k Hf Hk Hn; [done|].
  cbn [imap]. rewrite filter_cons. destruct k as [|k]; cbn in Hk.
  - simplify_eq. rewrite decide_True; [done|]. rewrite Hf. lia.
  - rewrite decide_False by (rewrite Hf; lia).
    apply (IH (f ∘ S) (o + 1)%Z k); [|done|lia].
    intros i r'. cbn. rewrite Hf. lia.
Qed.

(** C3, as the code has it.  A number outside 1..249 raises nothing: the
    resolver returns a string, the same for every such number, where a
    number inside the range gets a dictionary. *)
Theorem out_of_range_returns_message horary_number :
  (horary_number < 1 ∨ 249 < horary_number)%Z →
  get_horary_ascendant_degree horary_number =
    Returned (PyStr "SL Div Nr. out of range. Please provide a number between 1 and 249.") ∧
  (∀ e, get_horary_ascendant_degree horary_number ≠ Raised e) ∧
  (∀ data, get_horary_ascendant_degree horary_number ≠ Returned (PyDict data)).
Proof.
  intros H. unfold get_horary_ascendant_degree.
  replace ((1 <=? horary_number)%Z && (horary_number <=? 249)%Z) with false; [done|].
  symmetry. apply andb_false_iff. rewrite Z.leb_gt, Z.leb_gt. lia.
Qed.


End ResolverClaims.

(** * The loop counter *)

Lemma float_add_number t s ms es :
  Prim2SF s = S754_finite false ms es →
  sf_is_nan (Prim2SF t) = false → sf_is_nan (Prim2SF (t + s)) = false.
Proof.
  intros Hs Ht. pose proof (float_add_pos_ge t s ms es Hs Ht) as H.
  rewrite leb_spec in H. by apply SFleb_key in H as (_ & ? & _).
Qed.

Lemma increment_positive :
  Prim2SF increment = S754_finite false 5465701947765793 (-72).
Proof. by vm_compute. Qed.

Lemma instant_number t k :
  sf_is_nan (Prim2SF t) = false → sf_is_nan (Prim2SF (instant t k)) = false.
Proof.
  intros Ht. induction k as [|k IH]; [done|].
  cbn. by eapply float_add_number; [apply increment_positive|].
Qed.

Lemma instant_mono t j k :
  sf_is_nan (Prim2SF t) = false → (j <= k)%nat →
  (instant t j <=? instant t k) = true.
Proof.
  intros Ht Hjk. induction Hjk as [|k Hjk IH].
  - by apply float_leb_refl, instant_number.
  - eapply float_leb_trans; [exact IH|]. cbn.
    eapply float_add_pos_ge; [apply increment_positive|by apply instant_number].
Qed.

(** The instants before one that is inside the window are inside it. *)
Lemma window_prefix jd_end t j k :
  sf_is_nan (Prim2SF t) = false → (j <= k)%nat →
  (instant t k <=? jd_end) = true → (instant t j <=? jd_end) = true.
Proof. intros Ht Hjk Hk. eapply float_leb_trans; [by apply instant_mono|done]. Qed.

Lemma probed_length t n : length (probed t n) = n.
Proof. unfold probed. by rewrite length_rev, length_map, length_seq. Qed.

(** Fields inside the ranges of [datetime] make a [datetime]. *)
Lemma datetime_new_in_range y mo d h mi s us :
  (between 1 y 9999 && between 1 mo 12 && between 1 d (days_in_month y mo)
   && between 0 h 23 && between 0 mi 59 && between 0 s 59 && between 0 us 999999) = true →
  datetime_new y mo d h mi s us = inr (DateTime y mo d h mi s us).
Proof.
  intros H. unfold datetime_new. rewrite H.
  assert (Hfit : ∀ lo x hi, between lo x hi = true →
            (-2147483648 <= lo)%Z → (hi <= 2147483647)%Z → fits_c_int x = true).
  { intros lo x hi [H1 H2]%andb_true_iff Hlo Hhi. apply Z.leb_le in H1, H2.
    apply andb_true_iff. rewrite !Z.leb_le. lia. }
  assert (Hdays : (days_in_month y mo <= 31)%Z).
  { unfold days_in_month.
    destruct (mo =? 2)%Z; [destruct (is_leap y); lia|]. destruct (_ || _); lia. }
  apply andb_true_iff in H as [H Hus]. apply andb_true_iff in H as [H Hs].
  apply andb_true_iff in H as [H Hmi]. apply andb_true_iff in H as [H Hh].
  apply andb_true_iff in H as [H Hd]. apply andb_true_iff in H as [Hy Hmo].
  rewrite (Hfit _ _ _ Hy), (Hfit _ _ _ Hmo), (Hfit _ _ _ Hd), (Hfit _ _ _ Hh),
    (Hfit _ _ _ Hmi), (Hfit _ _ _ Hs), (Hfit _ _ _ Hus) by lia.
  done.
Qed.

(** With the ephemeris in which nothing moves, an instant inside the window
    is probed and missed as soon as the target is away from the ascendant. *)
Lemma still_probe jd0 asc0 utc_offset lat lon horary_asc_deg jd_end t mode y m d :
  (between 1 y 9999 && between 1 m 12 && between 1 d (days_in_month y m)) = true →
  (t <=? jd_end) = true → matches asc0 horary_asc_deg = false →
  probe (H := still_swe jd0 asc0 (Civil y m d 0 0 0)) mode utc_offset lat lon horary_asc_deg jd_end
        t (DateTime y m d 0 0 0 0) asc0 false.
Proof.
  intros Hdate Hin Hm. split_and!; [done | | | done].
  - apply returns_jd_to_datetime. unfold local_time. cbn.
    change (py_int (py_mod1 0 * 1000000)) with (@inr exn Z 0%Z).
    change (py_int 0) with (@inr exn Z 0%Z). cbn.
    rewrite datetime_new_in_range; [done|]. by rewrite Hdate.
  - exists (sample_cusps asc0). split; [by apply returns_houses_ex | done].
Qed.

(** ** How far one day reaches *)

Section WindowArithmetic.
Local Open Scope Z_scope.

Lemma digits_of_range p a :
  2 ^ (a - 1) <= Z.pos p < 2 ^ a → Z.pos (digits2_pos p) = a.
Proof.
  intros [H1 H2]. pose proof (digits2_pos_bounds p) as [Hb1 Hb2].
  set (d := Z.pos (digits2_pos p)) in *. assert (0 < d) by (unfold d; lia). clearbody d.
  destruct (Z.lt_trichotomy d a) as [?|[?|?]]; [|done|]; exfalso.
  - assert (2 ^ d <= 2 ^ (a - 1)) by (apply Z.pow_le_mono_r; lia). lia.
  - assert (0 <= a) by (destruct (Z_le_gt_dec 0 a); [done|]; rewrite (Z.pow_neg_r 2 a) in H2; lia).
    assert (2 ^ a <= 2 ^ (d - 1)) by (apply Z.pow_le_mono_r; lia). lia.
Qed.

(** The sum of a number [m * 2^e] and a smaller constant [mc * 2^ec]:
    the mantissa is shifted by [n], which is [e - ec] or one more. *)
Lemma SF64add_small m e mc ec :
  canonical m e → canonical mc ec → -1074 < e → ec < e → e < 970 →
  let p := Z.pos m * 2 ^ (e - ec) + Z.pos mc in
  ∃ n m' e',
    (n = e - ec ∨ n = e - ec + 1) ∧
    2 ^ 52 <= p / 2 ^ n < 2 ^ 53 ∧
    SF64add (S754_finite false m e) (S754_finite false mc ec) = S754_finite false m' e' ∧
    canonical m' e' ∧ (e' = ec + n ∨ e' = ec + n + 1) ∧
    Z.pos m' * 2 ^ (e' - (ec + n)) = rne p n.
Proof.
  intros Hm Hc He Hec He2 p.
  pose proof (canonical_range _ _ Hm) as [_ Hm53].
  pose proof (canonical_normal _ _ Hm He) as Hm52.
  pose proof (canonical_range _ _ Hc) as [Hecr Hmc53].
  rewrite SF64add_finite. rewrite Z.min_r by lia. rewrite Z.sub_diag, Z.mul_1_r. simpl cond_Zopp.
  fold p. set (k := e - ec) in *.
  assert (Hk : 0 < 2 ^ k) by (apply Z.pow_pos_nonneg; lia).
  assert (Hk2 : 2 <= 2 ^ k).
  { change 2 with (2 ^ 1) at 1. apply Z.pow_le_mono_r; lia. }
  assert (Hp1 : 2 ^ (52 + k) <= p).
  { rewrite Z.pow_add_r by lia. unfold p. nia. }
  assert (Hp2 : p < 2 ^ (54 + k)).
  { rewrite Z.pow_add_r by lia. unfold p. change (2 ^ 54) with (2 * 2 ^ 53). nia. }
  destruct p as [|pp|pp] eqn:Ep; try lia. simpl binary_normalize.
  assert (Hd : Z.pos (digits2_pos pp) = 53 + k ∨ Z.pos (digits2_pos pp) = 54 + k).
  { destruct (Z_lt_le_dec (Z.pos pp) (2 ^ (53 + k))).
    - left. apply digits_of_range. replace (53 + k - 1) with (52 + k) by lia. lia.
    - right. apply digits_of_range. replace (54 + k - 1) with (53 + k) by lia. lia. }
  set (d := Z.pos (digits2_pos pp)) in *.
  assert (He' : b64_fexp (d + ec) = d + ec - 53) by (unfold b64_fexp; lia).
  destruct (binary_round_inexact false pp ec ltac:(lia)) as [Hq ->].
  { fold d. rewrite He'. lia. }
  fold d in Hq |- *. rewrite He' in Hq |- *.
  replace (d + ec - 53 - ec) with (d - 53) in * by lia.
  set (n := d - 53) in *.
  pose proof (rne_bounds (Z.pos pp) n ltac:(lia) ltac:(lia)) as Hb.
  exists n.
  destruct (rne (Z.pos pp) n <? 2 ^ 53) eqn:Hlt.
  - apply Z.ltb_lt in Hlt.
    replace (d + ec - 53 <=? 971) with true by (symmetry; apply Z.leb_le; lia).
    exists (Z.to_pos (rne (Z.pos pp) n)), (d + ec - 53).
    assert (Hid : Z.pos (Z.to_pos (rne (Z.pos pp) n)) = rne (Z.pos pp) n) by (apply Z2Pos.id; lia).
    split; [lia|]. split; [exact Hq|]. split; [done|].
    split; [apply canonical_53; [rewrite Hid|]; lia|]. split; [lia|].
    replace (d + ec - 53 - (ec + n)) with 0 by lia. rewrite Hid. lia.
  - apply Z.ltb_ge in Hlt.
    replace (d + ec - 53 + 1 <=? 971) with true by (symmetry; apply Z.leb_le; lia).
    exists (2 ^ 52)%positive, (d + ec - 53 + 1).
    split; [lia|]. split; [exact Hq|]. split; [done|].
    split; [apply canonical_53; [done|lia]|]. split; [lia|].
    replace (d + ec - 53 + 1 - (ec + n)) with 1 by lia.
    change (Z.pos (2 ^ 52) * 2 ^ 1) with (2 ^ 53). lia.
Qed.


End WindowArithmetic.

Ltac pow2_numerals :=
  repeat match goal with
  | H : context [Z.pow 2 ?k] |- _ =>
      let v := eval vm_compute in (Z.pow 2 k) in
      progress change (Z.pow 2 k) with v in H
  | |- context [Z.pow 2 ?k] =>
      let v := eval vm_compute in (Z.pow 2 k) in
      progress change (Z.pow 2 k) with v
  end.

Ltac ltb_numerals :=
  repeat match goal with
  | |- context [Z.ltb ?a ?b] =>
      let v := eval vm_compute in (Z.ltb a b) in
      progress change (Z.ltb a b) with v
  end.

Ltac round_case :=
  match goal with
  | H : _ = rne ?p ?n |- _ =>
      let Hlo := fresh in let Hhi := fresh in let Hb := fresh in
      destruct (rne_cases p n ltac:(lia) ltac:(lia)) as (Hlo & Hhi & Hb);
      unfold phi, ord; ltb_numerals; pow2_numerals;
      Z.div_mod_to_equations; lia
  end.

Section WindowSteps.
Local Open Scope Z_scope.

Lemma add_increment m e :
  canonical m e → -32 <= e <= -30 → (e = -30 → Z.pos m <= 2 ^ 53 - 2 ^ 30) →
  ∃ m' e',
    SF64add (S754_finite false m e) (S754_finite false 5465701947765793 (-72)) =
      S754_finite false m' e' ∧
    canonical m' e' ∧ e <= e' <= -30 ∧ phi m e + 4971 <= phi m' e'.
Proof.
  intros Hm He H30.
  pose proof (canonical_range _ _ Hm) as [_ Hm53].
  pose proof (canonical_normal _ _ Hm ltac:(lia)) as Hm52.
  destruct (SF64add_small m e 5465701947765793 (-72) Hm ltac:(by apply (valid_canonical false)))
    as (n & m' & e' & Hn & Hq & -> & Hc' & He' & Hr); try lia.
  exists m', e'. split; [done|]. split; [done|].
  pose proof (canonical_range _ _ Hc') as [_ Hm'53].
  pose proof (canonical_normal _ _ Hc' ltac:(lia)) as Hm'52.
  assert (Hcases : e = -32 ∨ e = -31 ∨ e = -30) by lia.
  destruct Hcases as [-> | [-> | ->]]; destruct Hn as [-> | ->]; destruct He' as [-> | ->].
  all: round_case.
Qed.


Lemma add_one m e :
  canonical m e → -32 <= e <= -30 → ord m e <= (2 ^ 23 - 2) * 2 ^ 32 →
  ∃ m' e',
    SF64add (S754_finite false m e) (S754_finite false 4503599627370496 (-52)) =
      S754_finite false m' e' ∧
    canonical m' e' ∧ e <= e' <= -30 ∧
    (e' = -30 → Z.pos m' <= 2 ^ 53 - 2 ^ 30) ∧
    phi m' e' <= phi m e + 2 ^ 32 + 3.
Proof.
  intros Hm He Hord.
  pose proof (canonical_range _ _ Hm) as [_ Hm53].
  pose proof (canonical_normal _ _ Hm ltac:(lia)) as Hm52.
  destruct (SF64add_small m e 4503599627370496 (-52) Hm ltac:(by apply (valid_canonical false)))
    as (n & m' & e' & Hn & Hq & -> & Hc' & He' & Hr); try lia.
  exists m', e'. split; [done|]. split; [done|].
  pose proof (canonical_range _ _ Hc') as [_ Hm'53].
  pose proof (canonical_normal _ _ Hc' ltac:(lia)) as Hm'52.
  unfold ord in Hord.
  assert (Hcases : e = -32 ∨ e = -31 ∨ e = -30) by lia.
  destruct Hcases as [-> | [-> | ->]]; destruct Hn as [-> | ->]; destruct He' as [-> | ->].
  all: match goal with
  | H : _ = rne ?p ?n |- _ =>
      let Hlo := fresh in let Hhi := fresh in let Hb := fresh in
      destruct (rne_cases p n ltac:(lia) ltac:(lia)) as (Hlo & Hhi & Hb);
      unfold phi, ord; ltb_numerals; pow2_numerals;
      Z.div_mod_to_equations; split_and!; try lia
  end.
Qed.

Lemma phi_mono m1 e1 m2 e2 :
  canonical m1 e1 → canonical m2 e2 → -32 <= e1 → e2 <= -30 →
  e1 < e2 ∨ (e1 = e2 ∧ Z.pos m1 <= Z.pos m2) → phi m1 e1 <= phi m2 e2.
Proof.
  intros H1 H2 He1 He2 Hlex.
  pose proof (canonical_range _ _ H1) as [_ Hm1].
  pose proof (canonical_normal _ _ H2 ltac:(lia)) as Hm2.
  assert (Hc1 : e1 = -32 ∨ e1 = -31 ∨ e1 = -30) by lia.
  assert (Hc2 : e2 = -32 ∨ e2 = -31 ∨ e2 = -30) by lia.
  destruct Hc1 as [-> | [-> | ->]]; destruct Hc2 as [-> | [-> | ->]];
    unfold phi, ord; ltb_numerals; pow2_numerals; lia.
Qed.

End WindowSteps.


(** Numbers between [2^20] and [2^23 - 2], which the Julian days of the
    years 1 to 9999 are, have mantissas of 53 bits and exponents -32 to -30. *)
Lemma julian_day_shape (jd : float) :
  (1048576 <=? jd) = true → (jd <=? 8388606) = true →
  ∃ m e, Prim2SF jd = S754_finite false m e ∧ canonical m e ∧
         (-32 <= e <= -30)%Z ∧ (ord m e <= (2 ^ 23 - 2) * 2 ^ 32)%Z.
Proof.
  rewrite !leb_spec. intros Hlo Hhi.
  pose proof (Prim2SF_valid jd) as Hv.
  change (Prim2SF 1048576) with (S754_finite false 4503599627370496 (-32)) in Hlo.
  change (Prim2SF 8388606) with (S754_finite false 9007197107257344 (-30)) in Hhi.
  destruct (Prim2SF jd) as [|[]| |[] m e]; try done.
  apply valid_canonical in Hv. apply SFleb_pos in Hlo, Hhi.
  exists m, e. split_and!; [done | done | lia | lia |].
  pose proof (canonical_range _ _ Hv) as [_ Hm].
  assert (Hc : (e = -32 ∨ e = -31 ∨ e = -30)%Z) by lia.
  destruct Hc as [-> | [-> | ->]]; unfold ord; pow2_numerals; lia.
Qed.

(** The guard of the loop fails within 864,005 increments. *)
Lemma window_closes_from (jd_end : float) mE eE :
  Prim2SF jd_end = S754_finite false mE eE → canonical mE eE → (eE <= -30)%Z →
  (eE = -30 → Z.pos mE <= 2 ^ 53 - 2 ^ 30)%Z →
  ∀ (n : nat) (t : float) m e,
    Prim2SF t = S754_finite false m e → canonical m e → (-32 <= e)%Z →
    (phi mE eE - phi m e < 4971 * Z.of_nat n)%Z →
    ∃ k, (k <= n)%nat ∧ (instant t k <=? jd_end) = false.
Proof.
  intros HE HcE HeE HmE n. induction n as [|n IH]; intros t m e Ht Hc He Hphi.
  - exists 0%nat. split; [done|]. cbn.
    destruct (t <=? jd_end) eqn:Hin; [exfalso|done].
    rewrite leb_spec, Ht, HE in Hin. apply SFleb_pos in Hin.
    pose proof (phi_mono m e mE eE Hc HcE He HeE Hin). lia.
  - destruct (t <=? jd_end) eqn:Hin; [|by exists 0%nat; split; [lia|]].
    rewrite leb_spec, Ht, HE in Hin. apply SFleb_pos in Hin.
    destruct (add_increment m e Hc ltac:(lia) ltac:(lia)) as (m' & e' & Hadd & Hc' & He' & Hstep).
    destruct (IH (t + increment) m' e') as (k & Hk & Hout); try done; try lia.
    { rewrite add_spec, Ht. exact Hadd. }
    exists (S k). split; [lia|]. by rewrite instant_succ.
Qed.

Lemma window_closes (jd_start : float) :
  (1048576 <=? jd_start) = true → (jd_start <=? 8388606) = true →
  ∃ k, (Z.of_nat k <= 864005)%Z ∧ (instant jd_start k <=? jd_start + 1) = false.
Proof.
  intros Hlo Hhi.
  destruct (julian_day_shape jd_start Hlo Hhi) as (m & e & Hs & Hc & He & Hord).
  destruct (add_one m e Hc He Hord) as (mE & eE & Hadd & HcE & HeE & HmE & Hphi).
  destruct (window_closes_from (jd_start + 1) mE eE) with (n := N.to_nat 864005) (t := jd_start) (m := m) (e := e)
    as (k & Hk & Hout); try done; try lia.
  { rewrite add_spec, Hs. exact Hadd. }
  exists k. split; [lia|done].
Qed.

(** * The bound on the scan *)

Section ScanBound.
Context {swe : Swisseph}.

(** C7, as the code has it.  The scan probes [jd_start], then the
    instants got by adding the double [1/864000] again and again, each no
    later than [jd_start + 1]; for a start between [2^20] and [2^23 - 2],
    where the Julian days of the years 1 to 9999 lie, the guard of the loop
    fails within 864,005 increments, so that the search ends, its loop
    having run at most 864,005 times: more than 864,000 can be needed. *)
Theorem scan_is_bounded
    fuel year month day utc_offset lat lon horary_asc_deg ayanamsa mode jd_start w :
  setup year month day utc_offset ayanamsa mode jd_start →
  (1048576 <=? jd_start) = true → (jd_start <=? 8388606) = true →
  (864005 < Z.of_nat fuel)%Z →
  let run := find_exact_ascendant_time fuel year month day utc_offset lat lon
               horary_asc_deg ayanamsa w in
  ∃ k n, (n <= k)%nat ∧ (Z.of_nat k <= 864005)%Z ∧
    (instant jd_start k <=? jd_start + 1) = false ∧
    run.1 ≠ Diverged ∧
    houses_calls (trace run.2) = probed jd_start n ++ houses_calls (trace w) ∧
    (∀ j, (j < n)%nat → (instant jd_start j <=? jd_start + 1) = true) ∧
    (∀ j, instant jd_start (S j) = instant jd_start j + 1 / 864000).
Proof.
  intros Hsetup Hlo Hhi Hfuel run. subst run.
  destruct (find_setup fuel _ _ _ _ lat lon horary_asc_deg _ _ _ w Hsetup) as (w1 & -> & Hw1 & Hc1).
  destruct (window_closes jd_start Hlo Hhi) as (k & Hk & Hout).
  destruct (scan_terminates mode utc_offset lat lon horary_asc_deg (jd_start + 1)
              k fuel jd_start w1 Hw1 ltac:(lia) Hout) as (n & Hn & Hdiv & Hcalls & Hwin).
  exists k, n. rewrite <- Hc1. split_and!; try done.
Qed.

End ScanBound.

(** * The properties at work on the sample collaborators *)

Lemma sample_day_setup :
  setup (H := sample_day) 2024 2 5 5.5 "Krishnamurti" SIDM_KRISHNAMURTI 2460345.5.
Proof. split; [by vm_compute|]. by eexists _, _. Defined.

Lemma still_day_setup :
  setup (H := still_day) 2024 2 5 5.5 "Krishnamurti" SIDM_KRISHNAMURTI 2460345.5.
Proof. split; [by vm_compute|]. by eexists _, _. Defined.

Lemma still_day_1000_setup :
  setup (H := still_day_1000) 1000 1 1 0 "Krishnamurti" SIDM_KRISHNAMURTI 2086302.5.
Proof. split; [by vm_compute|]. by eexists _, _. Defined.

(** On a still day every instant up to the [k]-th, once that one is inside
    the window, is probed and missed by a target of 200 degrees. *)
Lemma still_day_misses (jd0 : float) (y m d : Z) mode utc_offset lat lon k :
  (between 1 y 9999 && between 1 m 12 && between 1 d (days_in_month y m)) = true →
  sf_is_nan (Prim2SF jd0) = false →
  (instant jd0 k <=? jd0 + 1) = true →
  ∀ j, (j < S k)%nat →
    ∃ dt' asc, probe (H := still_swe jd0 10 (Civil y m d 0 0 0)) mode utc_offset lat lon 200
                     (jd0 + 1) (instant jd0 j) dt' asc false.
Proof.
  intros Hdate Hnum Hin j Hj. eexists _, _. apply still_probe; [done| |by vm_compute].
  apply (window_prefix _ _ j k); [done|lia|done].
Defined.

Lemma first_match_is_returned_witness :
  setup (H := sample_day) 2024 2 5 5.5 "Krishnamurti" SIDM_KRISHNAMURTI 2460345.5 ∧
  (find_exact_ascendant_time (swe := sample_day) 10 2024 2 5 5.5 11.02 76.98 0.00125
     "Krishnamurti" initial_world).1 = Returned (Some (DateTime 2024 2 5 0 0 0 300058)) ∧
  ∃ k asc,
    (k < 10)%nat ∧
    reading (H := sample_day) SIDM_KRISHNAMURTI 5.5 11.02 76.98 (2460345.5 + 1)
            (instant 2460345.5 k) (DateTime 2024 2 5 0 0 0 300058) asc ∧
    (abs (asc - 0.00125) <? 0.0001) = true ∧
    houses_calls
      (trace (find_exact_ascendant_time (swe := sample_day) 10 2024 2 5 5.5
                11.02 76.98 0.00125 "Krishnamurti" initial_world).2)
    = probed 2460345.5 (S k) ++ [].
Proof.
  assert (Hrun : (find_exact_ascendant_time (swe := sample_day) 10 2024 2 5 5.5 11.02 76.98
                    0.00125 "Krishnamurti" initial_world).1
                 = Returned (Some (DateTime 2024 2 5 0 0 0 300058))) by (by vm_compute).
  split; [exact sample_day_setup|]. split; [exact Hrun|].
  pose proof (first_match_is_returned (swe := sample_day) 10 2024 2 5 5.5 11.02 76.98
                0.00125 "Krishnamurti" SIDM_KRISHNAMURTI 2460345.5 initial_world
                (DateTime 2024 2 5 0 0 0 300058) sample_day_setup) as (Hiff & Hcalls & _).
  destruct (proj1 Hiff Hrun) as (k & Hk & Hfirst).
  destruct (Hcalls k Hk Hfirst) as [_ Htrace].
  destruct Hfirst as [_ (asc & Hread & Htest)].
  exists k, asc. split; [exact Hk|]. split; [exact Hread|]. split; [exact Htest | exact Htrace].
Defined.

(** C3, as the spec has it, fails: the resolver raises nothing at 0 and at
    250, it returns its message. *)
Lemma out_of_range_is_not_an_error :
  ¬ (∃ e, get_horary_ascendant_degree (kp := sample_divisions) 0 = Raised e) ∧
  ¬ (∃ e, get_horary_ascendant_degree (kp := sample_divisions) 250 = Raised e).
Proof. split; intros [e H]; vm_compute in H; discriminate H. Qed.

Lemma out_of_range_returns_message_witness :
  (250 < 1 ∨ 249 < 250)%Z ∧
  get_horary_ascendant_degree (kp := sample_divisions) 250 =
    Returned (PyStr "SL Div Nr. out of range. Please provide a number between 1 and 249.").
Proof.
  split; [right; lia|].
  apply (out_of_range_returns_message (kp := sample_divisions) 250). right. lia.
Defined.



Lemma unknown_ayanamsa_rejected_witness :
  ("Tropical"%string ∉ ["Krishnamurti"; "Krishnamurti_New"; "Lahiri_1940"; "Lahiri_VP285";
                         "Lahiri_ICRC"; "Raman"; "Yukteshwar"]%string) ∧
  find_exact_ascendant_time (swe := sample_day) 10 2024 2 5 5.5 11.02 76.98 0.00125
    "Tropical" initial_world = (Raised UnknownAyanamsa, initial_world).
Proof.
  assert (H : "Tropical"%string ∉ ["Krishnamurti"; "Krishnamurti_New"; "Lahiri_1940";
                "Lahiri_VP285"; "Lahiri_ICRC"; "Raman"; "Yukteshwar"]%string).
  { intros H. repeat (apply elem_of_cons in H as [H|H]; [discriminate H|]).
    by apply elem_of_nil in H. }
  split; [exact H|].
  exact (unknown_ayanamsa_rejected (swe := sample_day) 10 2024 2 5 5.5 11.02 76.98 0.00125
           "Tropical" initial_world H).
Defined.

Lemma not_found_is_returned_witness :
  (instant 2460345.5 (N.to_nat 863831) <=? 2460345.5 + 1) = false ∧
  (find_exact_ascendant_time (swe := still_day) (N.to_nat 863832) 2024 2 5 5.5 11.02 76.98 200
     "Krishnamurti" initial_world).1 = Returned None.
Proof.
  assert (Hout : (instant 2460345.5 (N.to_nat 863831) <=? 2460345.5 + 1) = false)
    by (by vm_compute).
  split; [exact Hout|].
  assert (Hk : (N.to_nat 863831 < N.to_nat 863832)%nat) by lia.
  refine (proj1 (not_found_is_returned (swe := still_day) (N.to_nat 863832) 2024 2 5 5.5
                   11.02 76.98 200 "Krishnamurti" SIDM_KRISHNAMURTI 2460345.5 initial_world
                   (N.to_nat 863831) still_day_setup Hk _ Hout)).
  change 863831%N with (N.succ 863830). rewrite N2Nat.inj_succ.
  apply still_day_misses; by vm_compute.
Defined.

(** C7, as the spec has it, fails: a day of the year 1000 on which nothing
    matches takes 864,005 turns of the loop. *)
Lemma full_day_scan_exceeds_864000 :
  ∃ w', find_exact_ascendant_time (swe := still_day_1000) (N.to_nat 864006) 1000 1 1 0
          11.02 76.98 200 "Krishnamurti" initial_world = (Returned None, w') ∧
        length (houses_calls (trace w')) = N.to_nat 864005 ∧
        (864000 < 864005)%N.
Proof.
  destruct (find_setup (swe := still_day_1000) (N.to_nat 864006) 1000 1 1 0 11.02 76.98 200
              "Krishnamurti" SIDM_KRISHNAMURTI 2086302.5 initial_world still_day_1000_setup)
    as (w1 & -> & Hw1 & Hc1).
  destruct (scan_no_hit (swe := still_day_1000) SIDM_KRISHNAMURTI 0 11.02 76.98 200
              (2086302.5 + 1) (N.to_nat 864005) (N.to_nat 864006) 2086302.5 w1 Hw1)
    as (w' & Hrun & _ & Hcalls).
  - lia.
  - change 864005%N with (N.succ 864004). rewrite N2Nat.inj_succ.
    apply still_day_misses; by vm_compute.
  - by vm_compute.
  - exists w'. split; [exact Hrun|]. split; [|lia].
    rewrite Hcalls, Hc1, length_app, probed_length. cbn. apply Nat.add_0_r.
Qed.

Lemma scan_is_bounded_witness :
  setup (H := still_day) 2024 2 5 5.5 "Krishnamurti" SIDM_KRISHNAMURTI 2460345.5 ∧
  (1048576 <=? 2460345.5) = true ∧ (2460345.5 <=? 8388606) = true ∧
  (864005 < Z.of_nat (N.to_nat 864006))%Z ∧
  (find_exact_ascendant_time (swe := still_day) (N.to_nat 864006) 2024 2 5 5.5 11.02 76.98 200
     "Krishnamurti" initial_world).1 ≠ Diverged.
Proof.
  assert (Hlo : (1048576 <=? 2460345.5) = true) by (by vm_compute).
  assert (Hhi : (2460345.5 <=? 8388606) = true) by (by vm_compute).
  assert (Hfuel : (864005 < Z.of_nat (N.to_nat 864006))%Z) by lia.
  split; [exact still_day_setup|]. split; [exact Hlo|]. split; [exact Hhi|].
  split; [exact Hfuel|].
  destruct (scan_is_bounded (swe := still_day) (N.to_nat 864006) 2024 2 5 5.5 11.02 76.98 200
              "Krishnamurti" SIDM_KRISHNAMURTI 2460345.5 initial_world
              still_day_setup Hlo Hhi Hfuel) as (k & n & _ & _ & _ & Hdiv & _).
  exact Hdiv.
Defined.

Lemma match_at_window_start_witness :
  PrimFloat.is_nan 2460345.5 = false ∧ (0 <=? 0) = true ∧ (0 <? 360) = true ∧
  (find_exact_ascendant_time (swe := sample_day) 10 2024 2 5 5.5 11.02 76.98 0
     "Krishnamurti" initial_world).1 = Returned (Some (DateTime 2024 2 5 0 0 0 0)) ∧
  houses_calls
    (trace (find_exact_ascendant_time (swe := sample_day) 10 2024 2 5 5.5 11.02 76.98 0
              "Krishnamurti" initial_world).2) = [2460345.5].
Proof.
  assert (Hnum : PrimFloat.is_nan 2460345.5 = false) by (by vm_compute).
  assert (H0 : (0 <=? 0) = true) by (by vm_compute).
  assert (H360 : (0 <? 360) = true) by (by vm_compute).
  split; [exact Hnum|]. split; [exact H0|]. split; [exact H360|].
  apply (match_at_window_start (swe := sample_day) 10 2024 2 5 5.5 11.02 76.98 0
           "Krishnamurti" SIDM_KRISHNAMURTI 2460345.5 initial_world
           (DateTime 2024 2 5 0 0 0 0) (sample_cusps 0) sample_day_setup);
    try done; try lia.
Defined.

Lemma no_wraparound_in_match_test_witness :
  far_apart 0 180 ∧ matches 0 180 = false.
Proof.
  assert (Hfar : far_apart 0 180).
  { split; [reflexivity|]. split; [reflexivity|]. by vm_compute. }
  split; [exact Hfar|].
  refine (proj1 (proj2 (no_wraparound_in_match_test (swe := sample_day) 10 5.5 11.02 76.98
                          180 (2460345.5 + 1) SIDM_KRISHNAMURTI 2460345.5
                          (DateTime 2024 2 5 0 0 0 0) 0
                          (World (Some SIDM_KRISHNAMURTI) []) eq_refl _ Hfar))).
  split_and!; [by vm_compute | | | done].
  - apply returns_jd_to_datetime. by vm_compute.
  - exists (sample_cusps 0). split; [|done]. apply returns_houses_ex. by vm_compute.
Defined.

Lemma returned_time_is_witnessed_witness :
  (find_exact_ascendant_time (swe := sample_day) 10 2024 2 5 5.5 11.02 76.98 0.00125
     "Krishnamurti" initial_world).1 = Returned (Some (DateTime 2024 2 5 0 0 0 300058)) ∧
  ∃ jd_start t asc,
    (jd_start <=? t) = true ∧ (t <=? jd_start + 1) = true ∧
    (abs (asc - 0.00125) <? 0.0001) = true.
Proof.
  assert (Hrun : (find_exact_ascendant_time (swe := sample_day) 10 2024 2 5 5.5 11.02 76.98
                    0.00125 "Krishnamurti" initial_world).1
                 = Returned (Some (DateTime 2024 2 5 0 0 0 300058))) by (by vm_compute).
  split; [exact Hrun|].
  destruct (returned_time_is_witnessed (swe := sample_day) 10 2024 2 5 5.5 11.02 76.98 0.00125
              "Krishnamurti" initial_world _ Hrun)
    as (mode & jd_start & t & asc & _ & H1 & H2 & _ & _ & H3).
  exists jd_start, t, asc. split; [exact H1|]. split; [exact H2 | exact H3].
Defined.

(** * Further properties of the module

    What the code does besides: the numbering of the table, the errors of
    the resolver, the conversion to civil time, the calls a search makes
    and the errors it lets through, what acceptance means in real numbers,
    and the pace of the loop counter. *)

(** ** The table and the resolver *)

Section TableFacts.
Context {kp : Divisions}.

Lemma filter_by_number (f : nat → csv_row → kp_row) (l : list csv_row) (o n : Z) :
  (∀ i r, SL_Div_Nr (f i r) = (Z.of_nat i + o)%Z) →
  filter (λ r, SL_Div_Nr r = n) (imap f l) =
    match (if (o <=? n)%Z then l !! Z.to_nat (n - o) else None) with
    | Some r => [f (Z.to_nat (n - o)) r]
    | None => []
    end.
Proof.
  revert f o. induction l as [|x l IH]; intros f o Hf.
  { by destruct (o <=? n)%Z. }
  cbn [imap]. rewrite filter_cons.
  rewrite (IH (f ∘ S) (o + 1)%Z) by (intros i r; cbn; rewrite Hf; lia).
  destruct (decide (SL_Div_Nr (f 0%nat x) = n)) as [Heq|Hne]; rewrite Hf in *.
  - replace (o + 1 <=? n)%Z with false by (symmetry; apply Z.leb_gt; lia).
    replace (o <=? n)%Z with true by (symmetry; apply Z.leb_le; lia).
    replace (n - o)%Z with 0%Z by lia. done.
  - destruct (Z_lt_le_dec n o).
    + replace (o + 1 <=? n)%Z with false by (symmetry; apply Z.leb_gt; lia).
      replace (o <=? n)%Z with false by (symmetry; apply Z.leb_gt; lia). done.
    + replace (o + 1 <=? n)%Z with true by (symmetry; apply Z.leb_le; lia).
      replace (o <=? n)%Z with true by (symmetry; apply Z.leb_le; lia).
      replace (Z.to_nat (n - o)) with (S (Z.to_nat (n - (o + 1)))) by lia. done.
Qed.

(** X1. The table has a row for each line of the file, in file order; the
    rows are numbered from 1 without gap or repetition, so that a number
    selects the one row made from the line of that rank, and no row when
    the file has no such line. *)
Theorem table_rows_are_numbered (n : Z) (i : nat) :
  length KP_SL_DMS_DATA = length csv_rows ∧
  KP_SL_DMS_DATA !! i = table_row (Z.of_nat i + 1) <$> csv_rows !! i ∧
  filter (λ r, SL_Div_Nr r = n) KP_SL_DMS_DATA =
    match numbered_line n with
    | Some r => [table_row n r]
    | None => []
    end.
Proof.
  unfold KP_SL_DMS_DATA, numbered_line. split_and!.
  - apply length_imap.
  - by rewrite list_lookup_imap.
  - rewrite (filter_by_number _ _ 1%Z) by done.
    destruct (1 <=? n)%Z eqn:Hn; [|done]. apply Z.leb_le in Hn.
    destruct (csv_rows !! Z.to_nat (n - 1)); [|done].
    unfold table_row. do 2 f_equal. lia.
Qed.

(** X2. The bound 249 is written in the resolver, the height of the table
    comes from the file.  For a number in 1..249 that the file has no line
    for, indexing the empty selection raises IndexError; for one whose line
    names a sign that is not a key of the sign table, spelled exactly, the
    lookup raises KeyError.  Neither gets the out-of-range message. *)
Theorem resolver_lookup_errors (horary_number : Z) :
  (1 <= horary_number <= 249)%Z →
  match csv_rows !! Z.to_nat (horary_number - 1) with
  | None => get_horary_ascendant_degree horary_number = Raised IndexError
  | Some r =>
      csv_Sign r ∉ ["Aries"; "Taurus"; "Gemini"; "Cancer"; "Leo"; "Virgo"; "Libra";
                    "Scorpio"; "Sagittarius"; "Capricorn"; "Aquarius"; "Pisces"]%string →
      get_horary_ascendant_degree horary_number = Raised KeyError
  end.
Proof.
  intros Hn. unfold get_horary_ascendant_degree.
  replace ((1 <=? horary_number)%Z && (horary_number <=? 249)%Z) with true
    by (symmetry; apply andb_true_iff; rewrite !Z.leb_le; lia).
  unfold KP_SL_DMS_DATA. rewrite (filter_by_number _ _ 1%Z) by done.
  replace (1 <=? horary_number)%Z with true by (symmetry; apply Z.leb_le; lia).
  destruct (csv_rows !! Z.to_nat (horary_number - 1)) as [r|]; [|done].
  intros Hsign. cbn [lookup list_lookup Sign].
  assert (Hnone : sign_order !! csv_Sign r = None).
  { apply not_elem_of_list_to_map_1. exact Hsign. }
  by rewrite Hnone.
Qed.

End TableFacts.

Lemma resolver_lookup_errors_witness :
  (1 <= 2 <= 249)%Z ∧ (1 <= 3 <= 249)%Z ∧
  get_horary_ascendant_degree (kp := short_divisions) 2 = Raised KeyError ∧
  get_horary_ascendant_degree (kp := short_divisions) 3 = Raised IndexError.
Proof.
  assert (H2 : (1 <= 2 <= 249)%Z) by lia.
  assert (H3 : (1 <= 3 <= 249)%Z) by lia.
  split; [exact H2|]. split; [exact H3|]. split.
  - apply (resolver_lookup_errors (kp := short_divisions) 2 H2).
    apply (bool_decide_unpack _). by vm_compute.
  - exact (resolver_lookup_errors (kp := short_divisions) 3 H3).
Defined.

(** A sign start plus an angle inside the sign: no lower than the start,
    and below [hi] once the exact sum with the last arcsecond is. *)
Lemma add_within_sign (a hi : float) ma ea my ey x :
  Prim2SF a = S754_finite false ma ea → canonical my ey →
  (scaled ma ea + scaled 8444171113826150 (-48) <=? scaled my ey)%Z = true →
  SFltb (S754_finite false my ey) (Prim2SF hi) = true →
  (0 <=? x) = true → (x <=? last_arcsecond) = true →
  (a <=? a + x) = true ∧ (a + x <? hi) = true.
Proof.
  intros Ha Hy Hsum Hhi H0 HB. split.
  - rewrite leb_spec in H0, HB.
    change (Prim2SF 0) with (S754_zero false) in H0.
    change (Prim2SF last_arcsecond) with (S754_finite false 8444171113826150 (-48)) in HB.
    destruct (Prim2SF x) as [s|[]| |[] m e] eqn:Hx; try done.
    + rewrite leb_spec, add_spec, Ha, Hx.
      replace (SF64add (S754_finite false ma ea) (S754_zero s)) with (S754_finite false ma ea)
        by (by destruct s).
      by apply SFleb_refl.
    + eapply float_add_pos_ge; [exact Hx|]. by rewrite Ha.
  - apply Z.leb_le in Hsum. rewrite ltb_spec, add_spec, Ha. rewrite leb_spec in H0, HB.
    apply (SF64add_below ma ea 8444171113826150 (-48) my ey).
    + apply (valid_canonical false). rewrite <- Ha. apply Prim2SF_valid.
    + by apply (valid_canonical false).
    + exact Hy.
    + exact Hsum.
    + exact Hhi.
    + apply Prim2SF_valid.
    + exact H0.
    + exact HB.
Qed.

Ltac within_sign :=
  match goal with
  | |- (?a <=? ?a + _) = true ∧ (_ <? ?hi) = true =>
      let a' := eval vm_compute in a in
      let hi' := eval vm_compute in hi in
      change a with a'; change hi with hi';
      lazymatch eval vm_compute in (Prim2SF a') with
      | S754_finite false ?ma ?ea =>
          lazymatch eval vm_compute in (Prim2SF (next_down hi')) with
          | S754_finite false ?my ?ey =>
              apply (add_within_sign a' hi' ma ea my ey);
              [ reflexivity | by apply (valid_canonical false) | by vm_compute
              | by vm_compute | assumption | assumption ]
          end
      end
  end.

Lemma zodiac_degree_in_sign sign_start x :
  sign_start ∈ [0; 30; 60; 90; 120; 150; 180; 210; 240; 270; 300; 330]%Z →
  (0 <=? x) = true → (x <=? last_arcsecond) = true →
  (py_float_of_int sign_start <=? py_float_of_int sign_start + x) = true ∧
  (py_float_of_int sign_start + x <? py_float_of_int (sign_start + 30)) = true.
Proof.
  intros Hs H0 HB.
  rewrite !elem_of_cons in Hs.
  destruct Hs as [->|[->|[->|[->|[->|[->|[->|[->|[->|[->|[->|[->|Hs]]]]]]]]]]]];
    [|within_sign..|by apply elem_of_nil in Hs].
  (* Aries: the sum is the angle itself *)
  change (py_float_of_int 0) with 0%float. change (py_float_of_int (0 + 30)) with 30%float.
  rewrite leb_spec, ltb_spec, add_spec. rewrite leb_spec in H0, HB.
  change (Prim2SF 0) with (S754_zero false) in *.
  assert (Hx : SF64add (S754_zero false) (Prim2SF x) = Prim2SF x ∨
               SF64add (S754_zero false) (Prim2SF x) = S754_zero false).
  { destruct (Prim2SF x) as [[]|[]| |]; auto. }
  destruct Hx as [->| ->]; [|done]. split; [done|].
  eapply SFleb_ltb_trans; [exact HB|]. by vm_compute.
Qed.

Section ResolverSign.
Context {kp : Divisions}.

(** X3. The degree handed back lies in the sign of its row: for a number
    in 1..249 whose line names one of the twelve signs and has a from-angle
    from 0 up to 29:59:59, the zodiac degree is no less than the start of
    that sign and less than the start of the next, 30 degrees on. *)
Theorem horary_degree_in_its_sign horary_number row sign_start :
  (1 <= horary_number <= 249)%Z →
  csv_rows !! Z.to_nat (horary_number - 1) = Some row →
  sign_order !! csv_Sign row = Some sign_start →
  (0 <=? dms_to_decdeg (csv_From_DMS row)) = true →
  (dms_to_decdeg (csv_From_DMS row) <=? last_arcsecond) = true →
  ∃ data,
    get_horary_ascendant_degree horary_number = Returned (PyDict data) ∧
    h_Sign data = csv_Sign row ∧
    (py_float_of_int sign_start <=? ZodiacDegreeLocation data) = true ∧
    (ZodiacDegreeLocation data <? py_float_of_int (sign_start + 30)) = true.
Proof.
  intros Hn Hrow Hsign H0 HB.
  exists (HoraryData (csv_Sign row) (csv_From_DMS row) (dms_to_decdeg (csv_From_DMS row))
            (py_float_of_int sign_start + dms_to_decdeg (csv_From_DMS row))).
  cbn [h_Sign ZodiacDegreeLocation].
  split; [|split; [|apply zodiac_degree_in_sign]].
  - unfold get_horary_ascendant_degree.
    replace ((1 <=? horary_number)%Z && (horary_number <=? 249)%Z) with true
      by (symmetry; apply andb_true_iff; rewrite !Z.leb_le; lia).
    unfold KP_SL_DMS_DATA.
    erewrite (filter_numbered _ _ 1%Z); [| done | exact Hrow | lia].
    cbn [Sign From_DMS From_DecDeg]. by rewrite Hsign.
  - done.
  - by eapply sign_order_starts.
  - done.
  - done.
Qed.

End ResolverSign.

Lemma horary_degree_in_its_sign_witness :
  (1 <= 34 <= 249)%Z ∧
  ∃ data,
    get_horary_ascendant_degree (kp := sample_divisions) 34 = Returned (PyDict data) ∧
    h_Sign data = "Taurus"%string ∧
    (30 <=? ZodiacDegreeLocation data) = true ∧ (ZodiacDegreeLocation data <? 60) = true.
Proof.
  assert (Hn : (1 <= 34 <= 249)%Z) by lia.
  split; [exact Hn|].
  destruct (horary_degree_in_its_sign (kp := sample_divisions) 34
              (CsvRow "Taurus" "16:00:00" "17:20:00") 30 Hn) as (data & Hget & Hsign & Hlo & Hhi);
    try reflexivity.
  exists data. split; [exact Hget|]. split; [exact Hsign|]. split; [exact Hlo | exact Hhi].
Defined.

(** ** The conversion to civil time *)

Section Binary64Product.
Local Open Scope Z_scope.

(** Rounding [p * 2^ez] when digits are dropped, whatever [ez]: the
    product of two doubles can lie below the smallest exponent. *)
Lemma binary_round_aux_shift sx (p : positive) ez :
  let e' := b64_fexp (Z.pos (digits2_pos p) + ez) in
  ez < e' →
  let m1 := rne (Z.pos p) (e' - ez) in
  Z.pos p / 2 ^ (e' - ez) < 2 ^ 53 ∧
  binary_round_aux prec emax sx (Z.pos p) ez loc_Exact =
    if m1 =? 0 then S754_zero sx
    else if m1 <? 2 ^ 53 then
      if e' <=? 971 then S754_finite sx (Z.to_pos m1) e' else S754_infinity sx
    else
      if e' + 1 <=? 971 then S754_finite sx (2 ^ 52)%positive (e' + 1)
      else S754_infinity sx.
Proof.
  intros e' He m1.
  set (d := Z.pos (digits2_pos p)) in *.
  assert (He' : d + ez - 53 <= e' ∧ -1074 <= e') by (unfold e', b64_fexp; lia).
  set (n := e' - ez) in *.
  assert (Hn0 : 0 < n) by lia.
  pose proof (digits2_pos_bounds p) as [Hp1 Hp2]. fold d in Hp1, Hp2.
  assert (Hpn : 0 < 2 ^ n) by (apply Z.pow_pos_nonneg; lia).
  assert (Hq : Z.pos p / 2 ^ n < 2 ^ 53).
  { apply Z.div_lt_upper_bound; [lia|].
    assert (2 ^ d <= 2 ^ (n + 53)) by (apply Z.pow_le_mono_r; lia).
    rewrite Z.pow_add_r in * by lia. lia. }
  split; [done|].
  pose proof (rne_bounds (Z.pos p) n ltac:(lia) ltac:(lia)) as Hm1. fold m1 in Hm1.
  assert (0 <= Z.pos p / 2 ^ n) by (apply Z.div_pos; lia).
  unfold binary_round_aux.
  assert (Hs1 : shr_fexp prec emax (Z.pos p) ez loc_Exact =
                (SpecFloat.iter_pos shr_1 (Z.to_pos n) (Build_shr_record (Z.pos p) false false), e')).
  { unfold shr_fexp. rewrite fexp_b64. simpl Zdigits2. fold d. fold e'. fold n.
    simpl shr_record_of_loc. unfold shr. destruct n eqn:E; try lia. simpl Z.to_pos.
    f_equal. lia. }
  rewrite Hs1.
  pose proof (shr_rne (Z.pos p) (Z.to_pos n) ltac:(lia)) as Hrne. simpl in Hrne.
  rewrite Z2Pos.id in Hrne by lia. rewrite Hrne. fold m1.
  destruct (m1 =? 0) eqn:Hz.
  { apply Z.eqb_eq in Hz. rewrite Hz. unfold shr_fexp. rewrite fexp_b64.
    simpl Zdigits2. simpl shr_record_of_loc. unfold shr.
    destruct (b64_fexp (0 + e') - e') as [|k|k]; try done.
    rewrite iter_pos_nat.
    pose proof (shr_inv_iter 0 (Pos.to_nat k) ltac:(lia)) as [Hm _].
    rewrite Hm. by rewrite Z.div_0_l by (apply Z.pow_nonzero; lia). }
  apply Z.eqb_neq in Hz.
  destruct (m1 <? 2 ^ 53) eqn:Hlt.
  - apply Z.ltb_lt in Hlt.
    destruct m1 as [|m|m] eqn:Em1; try lia.
    pose proof (digits2_pos_bounds m) as [Hm_1 Hm_2].
    assert (Hdm : Z.pos (digits2_pos m) <= 53).
    { destruct (Z_le_gt_dec (Z.pos (digits2_pos m)) 53); [done|].
      assert (2 ^ 53 <= 2 ^ (Z.pos (digits2_pos m) - 1)) by (apply Z.pow_le_mono_r; lia). lia. }
    rewrite shr_fexp_keep.
    + simpl shr_m. simpl Z.to_pos. reflexivity.
    + simpl Zdigits2. unfold b64_fexp in *. lia.
  - apply Z.ltb_ge in Hlt. assert (Em1 : m1 = 2 ^ 53) by lia. rewrite Em1.
    unfold shr_fexp. rewrite fexp_b64.
    replace (b64_fexp (Zdigits2 (2 ^ 53) + e') - e') with 1
      by (change (Zdigits2 (2 ^ 53)) with 54; unfold b64_fexp; lia).
    simpl shr_record_of_loc. unfold shr. simpl SpecFloat.iter_pos.
    change (shr_1 {| shr_m := 2 ^ 53; shr_r := false; shr_s := false |})
      with {| shr_m := 2 ^ 52; shr_r := false; shr_s := false |}.
    simpl shr_m. change (2 ^ 52) with (Z.pos (2 ^ 52)). cbv iota beta.
    reflexivity.
Qed.

Lemma digits2_pos_mul a b :
  Z.pos (digits2_pos a) + Z.pos (digits2_pos b) - 1 <= Z.pos (digits2_pos (a * b))
    <= Z.pos (digits2_pos a) + Z.pos (digits2_pos b).
Proof.
  pose proof (digits2_pos_bounds a) as [Ha1 Ha2].
  pose proof (digits2_pos_bounds b) as [Hb1 Hb2].
  pose proof (digits2_pos_bounds (a * b)) as [Hc1 Hc2].
  rewrite Pos2Z.inj_mul in Hc1, Hc2.
  set (da := Z.pos (digits2_pos a)) in *. set (db := Z.pos (digits2_pos b)) in *.
  set (dc := Z.pos (digits2_pos (a * b))) in *.
  assert (0 < da) by (unfold da; lia). assert (0 < db) by (unfold db; lia).
  assert (0 < dc) by (unfold dc; lia). clearbody da db dc.
  assert (Hlo : 2 ^ (da - 1 + (db - 1)) <= Z.pos a * Z.pos b).
  { rewrite Z.pow_add_r by lia. apply Z.mul_le_mono_nonneg; lia. }
  assert (Hhi : Z.pos a * Z.pos b < 2 ^ (da + db)).
  { rewrite Z.pow_add_r by lia. apply Z.mul_lt_mono_nonneg; lia. }
  split.
  - destruct (Z_le_gt_dec (da + db - 1) dc); [done|]. exfalso.
    assert (2 ^ dc <= 2 ^ (da - 1 + (db - 1))) by (apply Z.pow_le_mono_r; lia). lia.
  - destruct (Z_le_gt_dec dc (da + db)); [done|]. exfalso.
    assert (2 ^ (da + db) <= 2 ^ (dc - 1)) by (apply Z.pow_le_mono_r; lia). lia.
Qed.

(** A number below one, times a million, is a number below a million:
    its whole part is at most 999999. *)
Lemma mul_million_trunc mf ef :
  canonical mf ef → Z.pos (digits2_pos mf) + ef <= 0 →
  SF64mul (S754_finite false mf ef) (S754_finite false 8589934592000000 (-33)) = S754_zero false ∨
  ∃ mr er, SF64mul (S754_finite false mf ef) (S754_finite false 8589934592000000 (-33)) =
             S754_finite false mr er ∧
           0 <= Z.shiftl (Z.pos mr) er <= 999999.
Proof.
  intros Hc Hlt1. unfold SF64mul, SFmul. cbn [xorb].
  set (mc := 8589934592000000%positive).
  pose proof (canonical_range _ _ Hc) as [Hef Hmf53].
  pose proof (digits2_pos_mul mf mc) as Hd. change (Z.pos (digits2_pos mc)) with 53 in Hd.
  pose proof (digits2_pos_bounds mf) as [Hmf1 Hmf2].
  set (dmf := Z.pos (digits2_pos mf)) in *. assert (Hdmf : 0 < dmf) by (unfold dmf; lia).
  set (p := (mf * mc)%positive) in *. set (ez := ef + -33).
  assert (Hcan : b64_fexp (dmf + ef) = ef) by apply Hc.
  assert (Hlt : ez < b64_fexp (Z.pos (digits2_pos p) + ez)).
  { unfold b64_fexp in *. unfold ez. lia. }
  destruct (binary_round_aux_shift false p ez Hlt) as [Hq ->].
  set (e' := b64_fexp (Z.pos (digits2_pos p) + ez)) in *.
  set (n := e' - ez) in *.
  assert (He'33 : e' <= -33) by (unfold e', b64_fexp, ez; lia).
  assert (Hn : 0 < n) by lia.
  destruct (rne_cases (Z.pos p) n ltac:(lia) Hn) as (Hdown & _ & Hb).
  set (m1 := rne (Z.pos p) n) in *.
  assert (Hpn : 0 < 2 ^ n) by (apply Z.pow_pos_nonneg; lia).
  assert (Hq0 : 0 <= Z.pos p / 2 ^ n) by (apply Z.div_pos; lia).
  destruct (m1 =? 0) eqn:Hz; [by left|right]. apply Z.eqb_neq in Hz.
  assert (Hsmall : ∀ m e, Z.pos m <= 2 ^ 53 → e < -33 → 0 <= Z.shiftl (Z.pos m) e <= 999999).
  { intros m e Hm He. rewrite Z.shiftl_div_pow2 by lia.
    assert (2 ^ 34 <= 2 ^ (- e)) by (apply Z.pow_le_mono_r; lia).
    assert (0 < 2 ^ (- e)) by (apply Z.pow_pos_nonneg; lia).
    split; [apply Z.div_pos; lia|].
    assert (Z.pos m / 2 ^ (- e) < 524289); [|lia].
    apply Z.div_lt_upper_bound; [lia|]. pow2_numerals. lia. }
  destruct (Z.eq_dec e' (-33)) as [He'|He'].
  - (* the product is half a million or more *)
    assert (Hdp : Z.pos (digits2_pos p) + ez = 20) by (unfold e', b64_fexp in He'; lia).
    assert (Hef53 : ef = -53) by (unfold b64_fexp in Hcan; unfold ez in Hdp; lia).
    assert (Hn53 : n = 53) by (unfold n, ez; lia).
    assert (Hm1 : m1 <= Z.pos mc - 1).
    { assert (Hp : Z.pos p = Z.pos mf * Z.pos mc) by (unfold p; lia).
      assert (Hmfle : Z.pos mf <= 2 ^ 53 - 1) by lia.
      pose proof (Z.div_mod (Z.pos p) (2 ^ n) ltac:(lia)) as Hdm.
      pose proof (Z.mod_pos_bound (Z.pos p) (2 ^ n) ltac:(lia)) as Hrem.
      set (q := Z.pos p / 2 ^ n) in *. set (r := Z.pos p mod 2 ^ n) in *.
      rewrite Hn53 in *. change (Z.pos mc) with 8589934592000000 in *.
      revert Hdown Hb Hdm Hrem Hp Hmfle. pow2_numerals. intros.
      destruct (Z_le_gt_dec q 8589934591999998); [lia|].
      assert (q = 8589934591999999) by lia.
      rewrite Hdown by lia. lia. }
    change (Z.pos mc) with 8589934592000000 in Hm1.
    replace (m1 <? 2 ^ 53) with true by (symmetry; apply Z.ltb_lt; lia).
    replace (e' <=? 971) with true by (symmetry; apply Z.leb_le; lia).
    eexists _, _. split; [done|]. rewrite He', Z.shiftl_div_pow2 by lia.
    rewrite Z2Pos.id by lia. change (2 ^ (- -33)) with 8589934592.
    split; [apply Z.div_pos; lia|].
    assert (m1 / 8589934592 < 1000000); [|lia]. apply Z.div_lt_upper_bound; lia.
  - destruct (m1 <? 2 ^ 53) eqn:Hm1.
    + apply Z.ltb_lt in Hm1.
      replace (e' <=? 971) with true by (symmetry; apply Z.leb_le; lia).
      eexists _, _. split; [done|]. apply Hsmall; [rewrite Z2Pos.id; lia | lia].
    + replace (e' + 1 <=? 971) with true by (symmetry; apply Z.leb_le; lia).
      eexists _, _. split; [done|].
      destruct (Z.eq_dec (e' + 1) (-33)) as [->|]; [by vm_compute|].
      apply Hsmall; [by vm_compute | lia].
Qed.

(** The remainder of a positive double modulo one, as a double. *)
Lemma fraction_below_one m e (r : positive) :
  canonical m e → e < 0 → Z.pos r = Z.pos m mod 2 ^ (- e) →
  ∃ mf ef, binary_round prec emax false r e = S754_finite false mf ef ∧
           canonical mf ef ∧ Z.pos (digits2_pos mf) + ef <= 0.
Proof.
  intros Hc He Hr.
  pose proof (canonical_range _ _ Hc) as [Her Hm53].
  assert (Hpn : 0 < 2 ^ (- e)) by (apply Z.pow_pos_nonneg; lia).
  pose proof (Z.mod_pos_bound (Z.pos m) (2 ^ (- e)) Hpn) as Hrem.
  pose proof (Z.mod_le (Z.pos m) (2 ^ (- e)) ltac:(lia) Hpn) as Hrm.
  pose proof (digits2_pos_bounds r) as [Hr1 Hr2].
  set (dr := Z.pos (digits2_pos r)) in *. assert (0 < dr) by (unfold dr; lia).
  assert (Hdr : dr <= - e).
  { destruct (Z_le_gt_dec dr (- e)); [done|]. exfalso.
    assert (2 ^ (- e) <= 2 ^ (dr - 1)) by (apply Z.pow_le_mono_r; lia). lia. }
  assert (Hdr53 : dr <= 53).
  { destruct (Z_le_gt_dec dr 53); [done|]. exfalso.
    assert (2 ^ 53 <= 2 ^ (dr - 1)) by (apply Z.pow_le_mono_r; lia). lia. }
  destruct (binary_round_exact false r e) as (mz & Hmz & Hcan & ->).
  { fold dr. unfold b64_fexp. lia. }
  fold dr in Hmz, Hcan |- *.
  set (e' := b64_fexp (dr + e)) in *.
  assert (He' : e' <= e) by (unfold e', b64_fexp; lia).
  replace (e' <=? 971) with true by (symmetry; apply Z.leb_le; lia).
  exists mz, e'. split; [done|]. split; [split; [done|lia]|].
  rewrite (digits2_pos_shift r (e - e')) by (done || lia). fold dr. lia.
Qed.

End Binary64Product.

Lemma canonical_valid s m e :
  canonical m e → SpecFloat.valid_binary prec emax (S754_finite s m e) = true.
Proof.
  intros [H1 H2]. unfold SpecFloat.valid_binary, bounded, canonical_mantissa.
  rewrite fexp_b64. apply andb_true_iff. split; [by apply Z.eqb_eq|].
  apply Z.leb_le. change (emax - prec)%Z with 971%Z. done.
Qed.

(** [x % 1] for a double that is not negative. *)
Lemma py_mod1_nonneg x :
  (0 <=? x) = true → sf_is_finite (Prim2SF x) = true →
  Prim2SF (py_mod1 x) = S754_zero false ∨
  ∃ mf ef, Prim2SF (py_mod1 x) = S754_finite false mf ef ∧ canonical mf ef ∧
           (Z.pos (digits2_pos mf) + ef <= 0)%Z.
Proof.
  rewrite leb_spec. unfold py_mod1. pose proof (Prim2SF_valid x) as Hv.
  destruct (Prim2SF x) as [s| | |[] m e]; try done; intros _ _; [by left|].
  apply valid_canonical in Hv.
  destruct (0 <=? e)%Z eqn:He; [by left|]. apply Z.leb_gt in He. cbn [orb].
  rewrite Z.land_ones by lia.
  destruct (Z.pos m mod 2 ^ (- e) =? 0)%Z eqn:Hr0; [by left|]. apply Z.eqb_neq in Hr0.
  assert (Hpn : (0 < 2 ^ (- e))%Z) by (apply Z.pow_pos_nonneg; lia).
  pose proof (Z.mod_pos_bound (Z.pos m) (2 ^ (- e)) Hpn) as Hrem.
  destruct (Z.pos m mod 2 ^ (- e))%Z as [|r|r] eqn:Hr; try lia.
  cbn [cond_Zopp binary_normalize].
  destruct (fraction_below_one m e r Hv He ltac:(lia)) as (mf & ef & Hround & Hc & Hlt).
  right. exists mf, ef. rewrite Hround. split; [|done].
  apply Prim2SF_SF2Prim. by apply canonical_valid.
Qed.

(** The microseconds of a time are a number from 0 to 999999. *)
Lemma microseconds_in_range x :
  (0 <=? x) = true → sf_is_finite (Prim2SF x) = true →
  ∃ us, py_int (py_mod1 x * 1000000) = inr us ∧ (0 <= us <= 999999)%Z.
Proof.
  intros H0 Hfin. unfold py_int. rewrite mul_spec.
  change (Prim2SF 1000000) with (S754_finite false 8589934592000000 (-33)).
  destruct (py_mod1_nonneg x H0 Hfin) as [->|(mf & ef & -> & Hc & Hlt)].
  { exists 0%Z. split; [done|lia]. }
  destruct (mul_million_trunc mf ef Hc Hlt) as [->|(mr & er & -> & Hr)].
  { exists 0%Z. split; [done|lia]. }
  eexists. split; [done|]. exact Hr.
Qed.

(** The whole seconds of a time below a minute. *)
Lemma seconds_below_60 x :
  (0 <=? x) = true → (x <? 60) = true →
  ∃ s, py_int x = inr s ∧ (0 <= s <= 59)%Z ∧
       (s * 2 ^ 1074 <= sf_exact (Prim2SF x) < (s + 1) * 2 ^ 1074)%Z.
Proof.
  rewrite leb_spec, ltb_spec. unfold py_int. pose proof (Prim2SF_valid x) as Hv.
  change (Prim2SF 60) with (S754_finite false 8444249301319680 (-47)).
  change (Prim2SF 0) with (S754_zero false).
  destruct (Prim2SF x) as [s|[]| |[] m e]; try done; intros _ Hlt.
  { exists 0%Z. split; [done|]. split; [lia|]. cbn. lia. }
  apply valid_canonical in Hv. apply SFltb_pos in Hlt.
  pose proof (canonical_range _ _ Hv) as [He Hm].
  eexists. split; [done|]. cbn [cond_Zopp sf_exact]. unfold scaled.
  rewrite Z.shiftl_div_pow2 by lia.
  assert (Hpn : (0 < 2 ^ (- e))%Z) by (apply Z.pow_pos_nonneg; lia).
  assert (Hpl : (0 < 2 ^ (e + 1074))%Z) by (apply Z.pow_pos_nonneg; lia).
  assert (Hkl : (2 ^ (- e) * 2 ^ (e + 1074) = 2 ^ 1074)%Z).
  { rewrite <- Z.pow_add_r by lia. f_equal. lia. }
  pose proof (Z.div_mod (Z.pos m) (2 ^ (- e)) ltac:(lia)) as Hdm.
  pose proof (Z.mod_pos_bound (Z.pos m) (2 ^ (- e)) Hpn) as Hrem.
  set (q := (Z.pos m / 2 ^ (- e))%Z) in *. set (r := (Z.pos m mod 2 ^ (- e))%Z) in *.
  assert (Hq0 : (0 <= q)%Z) by (apply Z.div_pos; lia).
  assert (Hq59 : (q <= 59)%Z).
  { assert (q < 60)%Z; [|lia]. apply Z.div_lt_upper_bound; [lia|].
    destruct Hlt as [Hlt|[-> Hlt]].
    - assert (2 ^ 48 <= 2 ^ (- e))%Z by (apply Z.pow_le_mono_r; lia).
      revert Hm. pow2_numerals. lia.
    - change (2 ^ (- -47))%Z with 140737488355328%Z. lia. }
  split; [lia|]. set (K := (2 ^ (- e))%Z) in *. set (L := (2 ^ (e + 1074))%Z) in *.
  set (B := (2 ^ 1074)%Z) in *. clearbody K L B q r. nia.
Qed.

(** The whole seconds of a time at or past the minute. *)
Lemma seconds_from_60 x m e :
  Prim2SF x = S754_finite false m e → (x <? 60) = false →
  ∃ s, py_int x = inr s ∧ (60 <= s)%Z.
Proof.
  intros Hx. rewrite ltb_spec. unfold py_int. pose proof (Prim2SF_valid x) as Hv.
  change (Prim2SF 60) with (S754_finite false 8444249301319680 (-47)).
  rewrite Hx in Hv |- *. intros Hge. apply valid_canonical in Hv.
  assert (Hlex : ¬ (e < -47 ∨ (e = -47 ∧ Z.pos m < 8444249301319680))%Z).
  { intros H. apply SFltb_pos in H. congruence. }
  pose proof (canonical_range _ _ Hv) as [He Hm].
  pose proof (canonical_normal _ _ Hv ltac:(lia)) as Hm52.
  eexists. split; [done|]. cbn [cond_Zopp].
  destruct (Z_le_gt_dec 0 e).
  - rewrite Z.shiftl_mul_pow2 by lia.
    assert (0 < 2 ^ e)%Z by (apply Z.pow_pos_nonneg; lia).
    revert Hm52. pow2_numerals. nia.
  - rewrite Z.shiftl_div_pow2 by lia.
    assert (Hpn : (0 < 2 ^ (- e))%Z) by (apply Z.pow_pos_nonneg; lia).
    apply Z.div_le_lower_bound; [lia|].
    destruct (Z.eq_dec e (-47)%Z) as [->|].
    + change (2 ^ (- -47))%Z with 140737488355328%Z. lia.
    + assert (2 ^ (- e) <= 2 ^ 46)%Z by (apply Z.pow_le_mono_r; lia).
      revert Hm52. pow2_numerals. lia.
Qed.

(** [int(x)] is the whole part of a positive [x]. *)
Lemma py_int_floor x m e :
  Prim2SF x = S754_finite false m e →
  ∃ s, py_int x = inr s ∧ (0 <= s)%Z ∧
       (s * 2 ^ 1074 <= scaled m e < (s + 1) * 2 ^ 1074)%Z.
Proof.
  intros Hx. unfold py_int. pose proof (Prim2SF_valid x) as Hv. rewrite Hx in Hv |- *.
  apply valid_canonical in Hv. pose proof (canonical_range _ _ Hv) as [He Hm].
  eexists. split; [done|]. cbn [cond_Zopp]. unfold scaled.
  pose proof (pow2_pos 1074 ltac:(lia)) as HB.
  destruct (Z_le_gt_dec 0 e).
  - rewrite Z.shiftl_mul_pow2 by lia. rewrite Z.pow_add_r by lia.
    pose proof (pow2_pos e ltac:(lia)). set (B := (2 ^ 1074)%Z) in *. clearbody B. nia.
  - rewrite Z.shiftl_div_pow2 by lia.
    assert (Hpn : (0 < 2 ^ (- e))%Z) by (apply Z.pow_pos_nonneg; lia).
    assert (Hpl : (0 < 2 ^ (e + 1074))%Z) by (apply Z.pow_pos_nonneg; lia).
    assert (Hkl : (2 ^ (- e) * 2 ^ (e + 1074) = 2 ^ 1074)%Z).
    { rewrite <- Z.pow_add_r by lia. f_equal. lia. }
    pose proof (Z.div_mod (Z.pos m) (2 ^ (- e)) ltac:(lia)) as Hdm.
    pose proof (Z.mod_pos_bound (Z.pos m) (2 ^ (- e)) Hpn) as Hrem.
    set (q := (Z.pos m / 2 ^ (- e))%Z) in *. set (r := (Z.pos m mod 2 ^ (- e))%Z) in *.
    assert (Hq0 : (0 <= q)%Z) by (apply Z.div_pos; lia).
    split; [done|]. set (K := (2 ^ (- e))%Z) in *. set (L := (2 ^ (e + 1074))%Z) in *.
    set (B := (2 ^ 1074)%Z) in *. clearbody K L B q r. nia.
Qed.

(** Whether the whole seconds of a time fit a C int. *)
Lemma seconds_c_int x m e s :
  Prim2SF x = S754_finite false m e → py_int x = inr s →
  fits_c_int s = (x <? 2147483648).
Proof.
  intros Hx Hs. destruct (py_int_floor x m e Hx) as (s' & Hs' & Hs0 & Hlo & Hhi).
  assert (s' = s) by congruence. subst s'.
  pose proof (Prim2SF_valid x) as Hv. rewrite Hx in Hv. apply valid_canonical in Hv.
  assert (Hc : canonical 4503599627370496 (-21)) by (by apply (valid_canonical false)).
  assert (Hval : (scaled 4503599627370496 (-21) = 2147483648 * 2 ^ 1074)%Z) by (by vm_compute).
  pose proof (pow2_pos 1074 ltac:(lia)) as HB.
  rewrite ltb_spec, Hx.
  change (Prim2SF 2147483648) with (S754_finite false 4503599627370496 (-21)).
  unfold fits_c_int, between.
  replace (-2147483648 <=? s)%Z with true by (symmetry; apply Z.leb_le; lia). cbn [andb].
  set (B := (2 ^ 1074)%Z) in *.
  destruct (SFltb _ _) eqn:Hlt.
  - apply SFltb_pos in Hlt. apply (lex_scaled_lt m e _ _ Hv Hc) in Hlt.
    apply Z.leb_le. clearbody B. nia.
  - apply Z.leb_gt.
    assert (Hge : (scaled 4503599627370496 (-21) <= scaled m e)%Z).
    { apply (lex_scaled_le _ _ m e Hc Hv).
      destruct (Z.lt_trichotomy (-21) e) as [?|[?|?]]; [lia| |].
      - right. split; [lia|]. destruct (Z_le_gt_dec 4503599627370496 (Z.pos m)); [done|].
        exfalso. assert (SFltb (S754_finite false m e) (S754_finite false 4503599627370496 (-21)) = true)
          by (apply SFltb_pos; lia). congruence.
      - exfalso. assert (SFltb (S754_finite false m e) (S754_finite false 4503599627370496 (-21)) = true)
          by (apply SFltb_pos; lia). congruence. }
    clearbody B. nia.
Qed.

Section Conversion.
Context {swe : Swisseph}.

(** X4. The conversion of an instant to civil time.  When the ephemeris
    gives a calendar date and a time of day that [datetime] accepts, with
    seconds from 0 up to but not including 60, [jd_to_datetime] returns:
    its second is the whole part of the seconds and its microsecond, the
    fraction times a million cut to an integer, is never more than 999999.
    It asks for the UTC time of the instant and shifts it by the negated
    offset, and touches nothing else. *)
Theorem conversion_of_a_time_of_day jdt tz_offset utc local w :
  swe_jdut1_to_utc jdt = inr utc →
  swe_utc_time_zone utc (- tz_offset) = inr local →
  date_and_minute_ok local = true →
  (0 <=? c_seconds local) = true → (c_seconds local <? 60) = true →
  ∃ second microsecond,
    jd_to_datetime jdt tz_offset w =
      (Returned (DateTime (c_year local) (c_month local) (c_day local)
                          (c_hour local) (c_minute local) second microsecond),
       World (sid_mode w) (UtcTimeZone utc (- tz_offset) :: Jdut1ToUtc jdt :: trace w)) ∧
    py_int (c_seconds local) = inr second ∧
    py_int (py_mod1 (c_seconds local) * 1000000) = inr microsecond ∧
    (0 <= second <= 59)%Z ∧ (0 <= microsecond <= 999999)%Z ∧
    (second * 2 ^ 1074 <= sf_exact (Prim2SF (c_seconds local)) < (second + 1) * 2 ^ 1074)%Z.
Proof.
  intros Hutc Hlocal Hdate H0 H60.
  destruct (seconds_below_60 _ H0 H60) as (s & Hs & Hs59 & Hwhole).
  assert (Hfin : sf_is_finite (Prim2SF (c_seconds local)) = true).
  { rewrite leb_spec in H0. rewrite ltb_spec in H60.
    by destruct (Prim2SF (c_seconds local)) as [|[]| |]. }
  destruct (microseconds_in_range _ H0 Hfin) as (us & Hus & Hus6).
  exists s, us. split_and!; try done; try lia.
  unfold jd_to_datetime, jdut1_to_utc, utc_time_zone.
  unfold mbind, M_bind, bind, log, lift, ret, raise. cbn.
  rewrite Hutc. cbn. rewrite Hlocal. cbn. rewrite Hus. cbn. rewrite Hs. cbn.
  rewrite datetime_new_in_range; [done|].
  unfold date_and_minute_ok in Hdate. rewrite Hdate.
  replace (between 0 s 59) with true by (symmetry; apply andb_true_iff; rewrite !Z.leb_le; lia).
  replace (between 0 us 999999) with true
    by (symmetry; apply andb_true_iff; rewrite !Z.leb_le; lia).
  done.
Qed.

(** X5. A time of day that [datetime] has no room for.  When the
    seconds the ephemeris gives are 60 or more, as inside a leap second,
    building the [datetime] fails: with ValueError while the whole seconds
    fit a C int, that is below [2^31], and with OverflowError from there
    on.  Seconds that are infinite or NaN raise ValueError one line
    earlier, where the microseconds are cut to an integer. *)
Theorem conversion_rejects_second_60 jdt tz_offset utc local w :
  swe_jdut1_to_utc jdt = inr utc →
  swe_utc_time_zone utc (- tz_offset) = inr local →
  c_int_fields local = true →
  (c_seconds local <? 0) = false → (c_seconds local <? 60) = false →
  jd_to_datetime jdt tz_offset w =
    (Raised (if (2147483648 <=? c_seconds local) && (c_seconds local <? infinity)
             then OverflowError else ValueError),
     World (sid_mode w) (UtcTimeZone utc (- tz_offset) :: Jdut1ToUtc jdt :: trace w)).
Proof.
  intros Hutc Hlocal Hfields H0 H60.
  remember ((2147483648 <=? c_seconds local) && (c_seconds local <? infinity)) as big eqn:Hbig.
  rewrite leb_spec, (ltb_spec _ infinity) in Hbig.
  change (Prim2SF infinity) with (S754_infinity false) in Hbig.
  change (Prim2SF 2147483648) with (S754_finite false 4503599627370496 (-21)) in Hbig.
  unfold jd_to_datetime, jdut1_to_utc, utc_time_zone.
  unfold mbind, M_bind, bind, log, lift, ret, raise. cbn.
  rewrite Hutc. cbn. rewrite Hlocal. cbn.
  destruct (Prim2SF (c_seconds local)) as [s|s| |s m e] eqn:Hx.
  - rewrite ltb_spec, Hx in H60. by destruct s.
  - assert (Hmod : py_mod1 (c_seconds local) = nan) by (unfold py_mod1; by rewrite Hx).
    rewrite Hmod. change (py_int (nan * 1000000)) with (@inl exn Z ValueError).
    assert (big = false) as -> by (subst big; by destruct s). done.
  - assert (Hmod : py_mod1 (c_seconds local) = nan) by (unfold py_mod1; by rewrite Hx).
    rewrite Hmod. change (py_int (nan * 1000000)) with (@inl exn Z ValueError).
    assert (big = false) as -> by (by subst big). done.
  - destruct s.
    { rewrite ltb_spec, Hx in H0. done. }
    assert (Hge0 : (0 <=? c_seconds local) = true) by (by rewrite leb_spec, Hx).
    destruct (microseconds_in_range (c_seconds local) Hge0 ltac:(by rewrite Hx))
      as (us & -> & Hus).
    destruct (seconds_from_60 _ _ _ Hx H60) as (sec & Hsec & Hsec60).
    pose proof (seconds_c_int _ _ _ _ Hx Hsec) as Hfit.
    rewrite ltb_spec, Hx in Hfit.
    change (Prim2SF 2147483648) with (S754_finite false 4503599627370496 (-21)) in Hfit.
    rewrite Hsec.
    assert (Hnew : datetime_new (c_year local) (c_month local) (c_day local)
                     (c_hour local) (c_minute local) sec us
                   = inl (if big then OverflowError else ValueError)).
    { unfold datetime_new.
      unfold c_int_fields in Hfields. rewrite Hfields. cbn [andb].
      replace (fits_c_int us) with true
        by (symmetry; apply andb_true_iff; rewrite !Z.leb_le; lia).
      rewrite andb_true_r, Hfit.
      replace (SFltb (S754_finite false m e) (S754_infinity false)) with true in Hbig by done.
      rewrite andb_true_r in Hbig.
      destruct (SFltb (S754_finite false m e) (S754_finite false 4503599627370496 (-21))) eqn:Hlt.
      - assert (big = false) as ->.
        { subst big. destruct (SFleb _ _) eqn:Hle; [|done].
          apply SFleb_not_ltb in Hle. congruence. }
        cbn [negb].
        replace (between 0 sec 59) with false
          by (symmetry; apply andb_false_iff; right; apply Z.leb_gt; lia).
        by rewrite andb_false_r.
      - assert (big = true) as ->; [|done].
        subst big. apply SFleb_pos.
        destruct (Z.lt_trichotomy (-21) e) as [?|[?|?]]; [lia| |].
        + right. split; [lia|]. destruct (Z_le_gt_dec 4503599627370496 (Z.pos m)); [done|].
          exfalso.
          assert (SFltb (S754_finite false m e) (S754_finite false 4503599627370496 (-21)) = true)
            by (apply SFltb_pos; lia). congruence.
        + exfalso.
          assert (SFltb (S754_finite false m e) (S754_finite false 4503599627370496 (-21)) = true)
            by (apply SFltb_pos; lia). congruence. }
    cbn. rewrite Hnew. done.
Qed.

End Conversion.

Lemma conversion_of_a_time_of_day_witness :
  date_and_minute_ok (Civil 2024 2 5 9 5 59.9999999) = true ∧
  (0 <=? 59.9999999) = true ∧ (59.9999999 <? 60) = true ∧
  (jd_to_datetime (swe := minute_end_day) 2460345.8 5.5 initial_world).1
    = Returned (DateTime 2024 2 5 9 5 59 999999).
Proof.
  assert (Hd : date_and_minute_ok (Civil 2024 2 5 9 5 59.9999999) = true) by reflexivity.
  assert (H0 : (0 <=? 59.9999999) = true) by reflexivity.
  assert (H60 : (59.9999999 <? 60) = true) by reflexivity.
  split; [exact Hd|]. split; [exact H0|]. split; [exact H60|].
  destruct (conversion_of_a_time_of_day (swe := minute_end_day)
              2460345.8 5.5 _ _ initial_world eq_refl eq_refl Hd H0 H60)
    as (s & us & Hrun & Hs & Hus & _).
  rewrite Hrun. cbn [fst].
  assert (Es : s = 59%Z) by (vm_compute in Hs; congruence).
  assert (Eus : us = 999999%Z) by (vm_compute in Hus; congruence).
  rewrite Es, Eus. reflexivity.
Defined.

Lemma conversion_rejects_second_60_witness :
  c_int_fields (Civil 2016 12 31 23 59 60.5) = true ∧
  (60.5 <? 0) = false ∧ (60.5 <? 60) = false ∧
  (jd_to_datetime (swe := leap_second_day) 2457754.5 0 initial_world).1 = Raised ValueError ∧
  (jd_to_datetime (swe := still_swe 2457753.5 10 (Civil 2016 12 31 23 59 4000000000))
     2457754.5 0 initial_world).1 = Raised OverflowError.
Proof.
  assert (Hf : c_int_fields (Civil 2016 12 31 23 59 60.5) = true) by reflexivity.
  assert (H0 : (60.5 <? 0) = false) by reflexivity.
  assert (H60 : (60.5 <? 60) = false) by reflexivity.
  split; [exact Hf|]. split; [exact H0|]. split; [exact H60|]. split.
  - rewrite (conversion_rejects_second_60 (swe := leap_second_day) 2457754.5 0
               (Civil 2016 12 31 23 59 60.5) (Civil 2016 12 31 23 59 60.5) initial_world
               eq_refl eq_refl Hf H0 H60).
    reflexivity.
  - rewrite (conversion_rejects_second_60
               (swe := still_swe 2457753.5 10 (Civil 2016 12 31 23 59 4000000000)) 2457754.5 0
               (Civil 2016 12 31 23 59 4000000000) (Civil 2016 12 31 23 59 4000000000)
               initial_world eq_refl eq_refl);
      reflexivity.
Defined.

(** ** The calls of a search *)

Section TurnFacts.
Context {swe : Swisseph}.

Lemma jd_to_datetime_events t utc_offset w :
  jd_to_datetime t utc_offset w =
    (to_outcome (local_time t utc_offset),
     World (sid_mode w) (conversion_events utc_offset t ++ trace w)).
Proof.
  unfold jd_to_datetime, local_time, conversion_events, jdut1_to_utc, utc_time_zone.
  unfold mbind, M_bind, bind, log, lift, ret, raise. cbn.
  destruct (swe_jdut1_to_utc t) as [e|utc]; cbn; [done|].
  destruct (swe_utc_time_zone utc (- utc_offset)) as [e|local]; cbn; [done|].
  destruct (py_int (py_mod1 (c_seconds local) * 1000000)) as [e|us]; cbn; [done|].
  destruct (py_int (c_seconds local)) as [e|s]; cbn; [done|].
  by destruct (datetime_new _ _ _ _ _ _ _).
Qed.

Lemma raises_jd_to_datetime mode t off e :
  raises_in mode (jd_to_datetime t off) e ↔ local_time t off = inl e.
Proof.
  split.
  - intros H. specialize (H (World mode []) eq_refl). rewrite jd_to_datetime_events in H.
    cbn in H. by destruct (local_time t off); simplify_eq/=.
  - intros H w _. rewrite jd_to_datetime_events. by rewrite H.
Qed.

Lemma raises_houses_ex mode t lat lon e :
  raises_in mode (houses_ex t lat lon) e ↔ swe_houses_ex mode t lat lon = inl e.
Proof.
  split.
  - intros H. specialize (H (World mode []) eq_refl). rewrite houses_ex_run in H. cbn in H.
    by destruct (swe_houses_ex mode t lat lon); simplify_eq/=.
  - intros H w <-. rewrite houses_ex_run. cbn. by rewrite H.
Qed.

Variables (mode : sidm) (utc_offset lat lon horary_asc_deg jd_end : float).

Local Abbreviation scan' fuel := (scan fuel utc_offset lat lon horary_asc_deg jd_end).

(** A turn of the loop inside the window, with all that it adds to the
    trace. *)
Lemma scan_turn fuel t w :
  sid_mode w = Some mode → (t <=? jd_end) = true →
  scan' (S fuel) t w =
    match local_time t utc_offset with
    | inl e => (Raised e, World (Some mode) (conversion_events utc_offset t ++ trace w))
    | inr dt =>
        let w1 := World (Some mode) (turn_events utc_offset lat lon t ++ trace w) in
        match swe_houses_ex (Some mode) t lat lon with
        | inl e => (Raised e, w1)
        | inr cusps =>
            match cusps !! 0%nat with
            | None => (Raised IndexError, w1)
            | Some asc =>
                if matches asc horary_asc_deg then
                  (Returned (Some dt),
                   World (Some mode)
                     (conversion_events utc_offset t ++ PrintMatched dt asc :: trace w1))
                else scan' fuel (t + increment) w1
            end
        end
    end.
Proof.
  intros Hw Hin. cbn [scan]. rewrite Hin. unfold mbind, M_bind, bind.
  rewrite jd_to_datetime_events, Hw.
  destruct (local_time t utc_offset) as [e|dt] eqn:Hdt; cbn; [done|].
  rewrite houses_ex_run. cbn.
  destruct (swe_houses_ex (Some mode) t lat lon) as [e|cusps]; cbn; [done|].
  destruct (cusps !! 0%nat) as [asc|]; cbn; [|done].
  destruct (matches asc horary_asc_deg); [|done].
  unfold log. cbn. rewrite jd_to_datetime_events, Hdt. done.
Qed.

(** The loop reads the world for the sidereal mode only, and adds to the
    trace without touching what is there. *)
Lemma scan_frame fuel : ∀ t w,
  sid_mode w = Some mode →
  let base := scan' fuel t (World (Some mode) []) in
  scan' fuel t w = (base.1, World (Some mode) (trace base.2 ++ trace w)) ∧
  sid_mode base.2 = Some mode.
Proof.
  induction fuel as [|fuel IH]; intros t w Hw; cbv zeta.
  { cbn. destruct w as [m tr]. cbn in Hw. by subst m. }
  destruct (t <=? jd_end) eqn:Hin.
  2: { rewrite !scan_outside by done. cbn. by rewrite Hw. }
  rewrite !scan_turn by done. cbn [trace].
  destruct (local_time t utc_offset) as [e|dt]; cbn.
  { by rewrite app_nil_r. }
  destruct (swe_houses_ex (Some mode) t lat lon) as [e|cusps]; cbn.
  { by rewrite app_nil_r. }
  destruct (cusps !! 0%nat) as [asc|]; cbn.
  2: { by rewrite app_nil_r. }
  destruct (matches asc horary_asc_deg); cbn.
  { rewrite app_nil_r. split; [|done]. do 2 f_equal. by rewrite <- !app_assoc. }
  match goal with |- context [scan' fuel _ ?w1] =>
    destruct (IH (t + increment) w1 eq_refl) as [-> Hm] end.
  match goal with |- context [scan' fuel _ (World (Some mode) (?a :: ?l ++ []))] =>
    destruct (IH (t + increment) (World (Some mode) (a :: l ++ [])) eq_refl) as [-> _] end.
  cbn. split; [|done]. f_equal. f_equal. rewrite app_nil_r. by rewrite <- !app_assoc.
Qed.

(** What a loop that returns has added to the trace. *)
Lemma scan_trace fuel : ∀ t w r w',
  sid_mode w = Some mode → scan' fuel t w = (Returned r, w') →
  ∃ k, (k < fuel)%nat ∧
    match r with
    | Some dt =>
        ∃ asc, trace w' =
          conversion_events utc_offset (instant t k) ++ PrintMatched dt asc ::
          flat_map (turn_events utc_offset lat lon) (probed t (S k)) ++ trace w
    | None =>
        trace w' = PrintNoMatch :: flat_map (turn_events utc_offset lat lon) (probed t k) ++ trace w
    end.
Proof.
  induction fuel as [|fuel IH]; intros t w r w' Hw Hrun; [done|].
  destruct (t <=? jd_end) eqn:Hin.
  2: { rewrite scan_outside in Hrun by done. simplify_eq. exists 0%nat. split; [lia|done]. }
  rewrite scan_turn in Hrun by done.
  destruct (local_time t utc_offset) as [e|dt]; [done|]. cbv zeta in Hrun.
  destruct (swe_houses_ex (Some mode) t lat lon) as [e|cusps]; [done|].
  destruct (cusps !! 0%nat) as [asc|]; [|done].
  destruct (matches asc horary_asc_deg).
  { simplify_eq. exists 0%nat. split; [lia|]. exists asc. cbn. by rewrite app_nil_r. }
  apply IH in Hrun as (k & Hk & Hr); [|done].
  exists (S k). split; [lia|]. cbn [trace] in Hr.
  destruct r as [dt'|].
  - destruct Hr as [asc' ->]. exists asc'. rewrite instant_succ, (probed_succ t (S k)).
    rewrite flat_map_app. cbn [flat_map]. rewrite app_nil_r. by rewrite <- !app_assoc.
  - rewrite Hr, (probed_succ t k).
    rewrite flat_map_app. cbn [flat_map]. rewrite app_nil_r. by rewrite <- !app_assoc.
Qed.

End TurnFacts.

Section FindEffects.
Context {swe : Swisseph}.

(** The search, call by call. *)
Lemma find_unfold fuel year month day utc_offset lat lon horary_asc_deg ayanamsa w :
  find_exact_ascendant_time fuel year month day utc_offset lat lon horary_asc_deg ayanamsa w =
    match SWE_AYANAMAS !! ayanamsa with
    | None => (Raised UnknownAyanamsa, w)
    | Some mode =>
        let w0 := World (Some mode) (setup_events year month day utc_offset mode ++ trace w) in
        match swe_utc_time_zone (Civil year month day 0 0 0) utc_offset with
        | inl e => (Raised e, w0)
        | inr utc =>
            match swe_utc_to_jd utc with
            | inl e => (Raised e, w0)
            | inr jds => scan fuel utc_offset lat lon horary_asc_deg (jds.1 + 1) jds.1 w0
            end
        end
    end.
Proof.
  unfold find_exact_ascendant_time, set_sid_mode, utc_time_zone, utc_to_jd, setup_events.
  destruct (SWE_AYANAMAS !! ayanamsa) as [mode|]; [|done].
  unfold mbind, M_bind, bind, log, lift, ret, raise. cbn.
  destruct (swe_utc_time_zone _ _) as [e|utc]; cbn; [done|].
  by destruct (swe_utc_to_jd utc) as [e|jds].
Qed.

(** X6. The search reads nothing of what happened before: its outcome and
    the calls it makes are those of a run from the initial state, whatever
    sidereal mode was configured and whatever was done earlier; it adds to
    the trace and leaves the earlier part alone.  The mode it configures
    stays configured when it ends, however it ends; only an unrecognised
    name leaves the mode as it was.  Run again where it ended, it gives
    the same outcome. *)
Theorem run_is_independent_of_history
    fuel year month day utc_offset lat lon horary_asc_deg ayanamsa w :
  let find := find_exact_ascendant_time fuel year month day utc_offset lat lon
                horary_asc_deg ayanamsa in
  (find w).1 = (find initial_world).1 ∧
  trace (find w).2 = trace (find initial_world).2 ++ trace w ∧
  sid_mode (find w).2 = from_option Some (sid_mode w) (SWE_AYANAMAS !! ayanamsa) ∧
  (find (find w).2).1 = (find w).1.
Proof.
  cbv zeta.
  assert (Hframe : ∀ w,
    (find_exact_ascendant_time fuel year month day utc_offset lat lon horary_asc_deg ayanamsa w).1
      = (find_exact_ascendant_time fuel year month day utc_offset lat lon horary_asc_deg
           ayanamsa initial_world).1 ∧
    trace (find_exact_ascendant_time fuel year month day utc_offset lat lon horary_asc_deg
             ayanamsa w).2
      = trace (find_exact_ascendant_time fuel year month day utc_offset lat lon horary_asc_deg
                 ayanamsa initial_world).2 ++ trace w ∧
    sid_mode (find_exact_ascendant_time fuel year month day utc_offset lat lon horary_asc_deg
                ayanamsa w).2
      = from_option Some (sid_mode w) (SWE_AYANAMAS !! ayanamsa)).
  { intros w0. rewrite !find_unfold.
    destruct (SWE_AYANAMAS !! ayanamsa) as [mode|]; [|done]. cbv zeta. cbn [trace initial_world].
    destruct (swe_utc_time_zone _ _) as [e|utc]; [by rewrite app_nil_r|].
    destruct (swe_utc_to_jd utc) as [e|jds]; [by rewrite app_nil_r|].
    match goal with |- context [scan _ _ _ _ _ _ _ (World (Some mode) (?l ++ trace w0))] =>
      destruct (scan_frame mode utc_offset lat lon horary_asc_deg (jds.1 + 1) fuel jds.1
                  (World (Some mode) (l ++ trace w0)) eq_refl) as [-> Hm];
      destruct (scan_frame mode utc_offset lat lon horary_asc_deg (jds.1 + 1) fuel jds.1
                  (World (Some mode) (l ++ [])) eq_refl) as [-> _]
    end.
    cbn. split_and!; [done | | done]. by rewrite app_nil_r, <- app_assoc. }
  destruct (Hframe w) as (H1 & H2 & H3). split_and!; [done..|].
  destruct (Hframe (find_exact_ascendant_time fuel year month day utc_offset lat lon
                      horary_asc_deg ayanamsa w).2) as (H4 & _). by rewrite H4, H1.
Qed.

(** X7. What a search that returns has done, call by call, the latest
    first: the three calls made before the loop; for each instant probed,
    in scan order, the conversion of the Julian day to UTC, the shift to
    local time by the negated offset, and the house computation at the
    request's latitude and longitude; then either the line that reports no
    match, or, on a match, the line that reports the time returned and a
    second conversion of the same instant.  Nothing else is called or
    printed. *)
Theorem trace_of_a_run
    fuel year month day utc_offset lat lon horary_asc_deg ayanamsa mode jd_start w r :
  setup year month day utc_offset ayanamsa mode jd_start →
  let run := find_exact_ascendant_time fuel year month day utc_offset lat lon
               horary_asc_deg ayanamsa w in
  run.1 = Returned r →
  ∃ k, (k < fuel)%nat ∧
    match r with
    | Some dt =>
        ∃ asc, trace run.2 =
          conversion_events utc_offset (instant jd_start k) ++ PrintMatched dt asc ::
          flat_map (turn_events utc_offset lat lon) (probed jd_start (S k)) ++
          setup_events year month day utc_offset mode ++ trace w
    | None =>
        trace run.2 =
          PrintNoMatch :: flat_map (turn_events utc_offset lat lon) (probed jd_start k) ++
          setup_events year month day utc_offset mode ++ trace w
    end.
Proof.
  intros (Hmode & utc & jd_ut & Hutc & Hjd) run Hrun. subst run.
  rewrite find_unfold, Hmode in Hrun |- *. cbv zeta in Hrun |- *.
  rewrite Hutc, Hjd in Hrun |- *. cbn [fst] in Hrun |- *.
  match type of Hrun with (?s).1 = _ => destruct s as [r' w'] eqn:Hscan end.
  cbn in Hrun. subst r'.
  apply (scan_trace mode) in Hscan as (k & Hk & Hr); [|done].
  exists k. split; [done|]. exact Hr.
Qed.

(** X8. An error of the calendar calls made before the loop is not
    caught: the search raises it, having already configured the sidereal
    mode, and neither computes an ascendant nor prints a line, whatever
    the fuel. *)
Theorem calendar_errors_propagate
    fuel year month day utc_offset lat lon horary_asc_deg ayanamsa mode e w :
  SWE_AYANAMAS !! ayanamsa = Some mode →
  (swe_utc_time_zone (Civil year month day 0 0 0) utc_offset = inl e ∨
   ∃ utc, swe_utc_time_zone (Civil year month day 0 0 0) utc_offset = inr utc ∧
          swe_utc_to_jd utc = inl e) →
  find_exact_ascendant_time fuel year month day utc_offset lat lon horary_asc_deg ayanamsa w =
    (Raised e, World (Some mode) (setup_events year month day utc_offset mode ++ trace w)).
Proof.
  intros Hmode Herr. rewrite find_unfold, Hmode. cbv zeta.
  destruct Herr as [->|(utc & -> & ->)]; done.
Qed.

(** X9. An error inside the loop ends the search at once and is raised to
    the caller.  When the conversion of the instant to civil time fails,
    be it in the ephemeris or in the construction of the [datetime], the
    ascendant of that instant is not asked for; when the house computation
    fails, the instant is the last one it was asked for. *)
Theorem ephemeris_errors_stop_the_scan
    fuel year month day utc_offset lat lon horary_asc_deg ayanamsa mode jd_start w k e :
  setup year month day utc_offset ayanamsa mode jd_start →
  (k < fuel)%nat →
  (∀ j, (j < k)%nat →
     ∃ dt' asc, probe mode utc_offset lat lon horary_asc_deg (jd_start + 1)
                      (instant jd_start j) dt' asc false) →
  (instant jd_start k <=? jd_start + 1) = true →
  let run := find_exact_ascendant_time fuel year month day utc_offset lat lon
               horary_asc_deg ayanamsa w in
  (raises_in (Some mode) (jd_to_datetime (instant jd_start k) utc_offset) e →
     run.1 = Raised e ∧
     houses_calls (trace run.2) = probed jd_start k ++ houses_calls (trace w)) ∧
  (∀ dt, returns_in (Some mode) (jd_to_datetime (instant jd_start k) utc_offset) dt →
     raises_in (Some mode) (houses_ex (instant jd_start k) lat lon) e →
     run.1 = Raised e ∧
     houses_calls (trace run.2) = probed jd_start (S k) ++ houses_calls (trace w)).
Proof.
  intros Hsetup Hk Hmiss Hin run. subst run.
  destruct (find_setup fuel _ _ _ _ lat lon horary_asc_deg _ _ _ w Hsetup) as (w1 & -> & Hw1 & Hc1).
  rewrite <- Hc1. clear Hc1 Hsetup w.
  set (jd_end := jd_start + 1) in *. clearbody jd_end.
  revert fuel jd_start w1 Hw1 Hk Hmiss Hin.
  induction k as [|k IH]; intros fuel t w Hw Hk Hmiss Hin;
    (destruct fuel as [|fuel]; [lia|]).
  - change (instant t 0) with t in *. rewrite (scan_turn mode) by done. split.
    + intros He%raises_jd_to_datetime. rewrite He. cbn.
      split; [done|]. rewrite houses_calls_app. unfold conversion_events.
      by destruct (swe_jdut1_to_utc t).
    + intros dt Hdt%returns_jd_to_datetime He%raises_houses_ex. rewrite Hdt, He. cbn.
      split; [done|]. rewrite houses_calls_app. unfold conversion_events.
      by destruct (swe_jdut1_to_utc t).
  - destruct (Hmiss 0%nat ltac:(lia)) as (dt0 & asc0 & H0).
    destruct (scan_miss mode _ _ _ _ _ fuel t w dt0 asc0 Hw H0) as (w1 & -> & Hw1 & Hc1).
    rewrite !instant_succ in *.
    destruct (IH fuel (t + increment) w1 Hw1 ltac:(lia)) as [IH1 IH2]; [|done|].
    { intros j Hj. rewrite <- instant_succ. apply Hmiss. lia. }
    split.
    + intros He. destruct (IH1 He) as [-> ->]. split; [done|].
      by rewrite Hc1, (probed_succ t k), <- app_assoc.
    + intros dt Hdt He. destruct (IH2 dt Hdt He) as [-> ->]. split; [done|].
      by rewrite Hc1, (probed_succ t (S k)), <- app_assoc.
Qed.

End FindEffects.

Lemma trace_of_a_run_witness :
  (find_exact_ascendant_time (swe := sample_day) 10 2024 2 5 5.5 11.02 76.98 0.00125
     "Krishnamurti" initial_world).1 = Returned (Some (DateTime 2024 2 5 0 0 0 300058)) ∧
  ∃ k asc,
    trace (find_exact_ascendant_time (swe := sample_day) 10 2024 2 5 5.5 11.02 76.98 0.00125
             "Krishnamurti" initial_world).2 =
      conversion_events (H := sample_day) 5.5 (instant 2460345.5 k) ++
      PrintMatched (DateTime 2024 2 5 0 0 0 300058) asc ::
      flat_map (turn_events (H := sample_day) 5.5 11.02 76.98) (probed 2460345.5 (S k)) ++
      setup_events (H := sample_day) 2024 2 5 5.5 SIDM_KRISHNAMURTI ++ [].
Proof.
  assert (Hrun : (find_exact_ascendant_time (swe := sample_day) 10 2024 2 5 5.5 11.02 76.98
                    0.00125 "Krishnamurti" initial_world).1
                 = Returned (Some (DateTime 2024 2 5 0 0 0 300058))) by (by vm_compute).
  split; [exact Hrun|].
  destruct (trace_of_a_run (swe := sample_day) 10 2024 2 5 5.5 11.02 76.98 0.00125
              "Krishnamurti" SIDM_KRISHNAMURTI 2460345.5 initial_world _ sample_day_setup Hrun)
    as (k & _ & asc & Htrace).
  exists k, asc. exact Htrace.
Defined.

Lemma calendar_errors_propagate_witness :
  SWE_AYANAMAS !! "Raman"%string = Some SIDM_RAMAN ∧
  swe_utc_to_jd (Swisseph := no_calendar) (Civil 2024 2 30 0 0 0) = inl SweError ∧
  find_exact_ascendant_time (swe := no_calendar) 0 2024 2 30 5.5 11.02 76.98 0.00125
    "Raman" initial_world
  = (Raised SweError,
     World (Some SIDM_RAMAN)
       [UtcToJd (Civil 2024 2 30 0 0 0); UtcTimeZone (Civil 2024 2 30 0 0 0) 5.5;
        SetSidMode SIDM_RAMAN]).
Proof.
  assert (Hmode : SWE_AYANAMAS !! "Raman"%string = Some SIDM_RAMAN) by (by vm_compute).
  split; [exact Hmode|]. split; [reflexivity|].
  apply (calendar_errors_propagate (swe := no_calendar) 0 2024 2 30 5.5 11.02 76.98 0.00125
           "Raman" SIDM_RAMAN SweError initial_world Hmode).
  right. exists (Civil 2024 2 30 0 0 0). split; reflexivity.
Defined.

Lemma leap_second_day_setup :
  setup (H := leap_second_day) 2016 12 31 0 "Lahiri_1940" SIDM_LAHIRI_1940 2457753.5.
Proof. split; [by vm_compute|]. by eexists _, _. Defined.

Lemma polar_day_setup :
  setup (H := polar_day) 2024 2 5 1 "Lahiri_1940" SIDM_LAHIRI_1940 2460345.5.
Proof. split; [by vm_compute|]. by eexists _, _. Defined.

Lemma ephemeris_errors_stop_the_scan_witness :
  (instant 2457753.5 0 <=? 2457753.5 + 1) = true ∧
  (find_exact_ascendant_time (swe := leap_second_day) 5 2016 12 31 0 11.02 76.98 200
     "Lahiri_1940" initial_world).1 = Raised ValueError ∧
  (find_exact_ascendant_time (swe := polar_day) 5 2024 2 5 1 78.22 15.65 200
     "Lahiri_1940" initial_world).1 = Raised SweError.
Proof.
  assert (Hin : (instant 2457753.5 0 <=? 2457753.5 + 1) = true) by (by vm_compute).
  assert (Hin' : (instant 2460345.5 0 <=? 2460345.5 + 1) = true) by (by vm_compute).
  assert (Hk : (0 < 5)%nat) by lia.
  assert (Hnone : ∀ (swe : Swisseph) mode off lat lon jd j, (j < 0)%nat →
            ∃ dt' asc, probe mode off lat lon 200 (jd + 1) (instant jd j) dt' asc false)
    by (intros; lia).
  split; [exact Hin|]. split.
  - refine (proj1 (proj1 (ephemeris_errors_stop_the_scan (swe := leap_second_day) 5 2016 12 31
                            0 11.02 76.98 200 "Lahiri_1940" SIDM_LAHIRI_1940 2457753.5
                            initial_world 0 ValueError leap_second_day_setup Hk
                            (Hnone _ _ _ _ _ _) Hin) _)).
    apply raises_jd_to_datetime. by vm_compute.
  - refine (proj1 (proj2 (ephemeris_errors_stop_the_scan (swe := polar_day) 5 2024 2 5 1
                            78.22 15.65 200 "Lahiri_1940" SIDM_LAHIRI_1940 2460345.5
                            initial_world 0 SweError polar_day_setup Hk
                            (Hnone _ _ _ _ _ _) Hin')
                     (DateTime 2024 2 5 0 0 0 0) _ _)).
    + apply returns_jd_to_datetime. by vm_compute.
    + apply raises_houses_ex. by vm_compute.
Defined.


(** ** Acceptance in real numbers *)

Lemma matches_finite asc_lon_deg horary_asc_deg :
  matches asc_lon_deg horary_asc_deg = true →
  sf_is_finite (Prim2SF asc_lon_deg) = true ∧ sf_is_finite (Prim2SF horary_asc_deg) = true.
Proof.
  unfold matches. rewrite ltb_spec, abs_spec, sub_spec.
  destruct (Prim2SF asc_lon_deg) as [?|[]| |? ? ?], (Prim2SF horary_asc_deg) as [?|[]| |? ? ?];
    done.
Qed.

Lemma matches_within_tolerance asc_lon_deg horary_asc_deg :
  matches asc_lon_deg horary_asc_deg = true → within_tolerance asc_lon_deg horary_asc_deg.
Proof.
  intros Hm. destruct (matches_finite _ _ Hm) as [Ha Ht]. split_and!; [done..|].
  destruct (Z_lt_le_dec
    (10000 * Z.abs (sf_exact (Prim2SF asc_lon_deg) - sf_exact (Prim2SF horary_asc_deg)))
    (2 ^ 1074)) as [?|Hfar]; [done|].
  rewrite matches_far_apart in Hm; [done|]. by split_and!.
Qed.

Section Acceptance.
Context {swe : Swisseph}.

(** X10. Acceptance is sound in real arithmetic, rounding included: a time
    is returned only for an instant of the scan at which the ascendant
    computed and the target are finite numbers less than 0.0001 apart as
    real numbers. *)
Theorem returned_time_is_within_tolerance
    fuel year month day utc_offset lat lon horary_asc_deg ayanamsa w dt :
  (find_exact_ascendant_time fuel year month day utc_offset lat lon
     horary_asc_deg ayanamsa w).1 = Returned (Some dt) →
  ∃ mode jd_start k asc,
    setup year month day utc_offset ayanamsa mode jd_start ∧
    probe mode utc_offset lat lon horary_asc_deg (jd_start + 1)
          (instant jd_start k) dt asc true ∧
    within_tolerance asc horary_asc_deg.
Proof.
  intros Hrun.
  destruct (find_exact_ascendant_time _ _ _ _ _ _ _ _ _ w) as [r w'] eqn:Hfind.
  cbn in Hrun. subst r.
  destruct (find_returned _ _ _ _ _ _ _ _ _ _ _ _ Hfind) as (mode & jd_start & Hsetup).
  destruct (find_setup fuel _ _ _ _ lat lon horary_asc_deg _ _ _ w Hsetup) as (w1 & Hscan & Hw1 & _).
  rewrite Hscan in Hfind.
  destruct (scan_returned mode _ _ _ _ _ _ _ _ _ _ Hw1 Hfind)
    as (k & Hk & Hmiss & [asc Hp] & _).
  exists mode, jd_start, k, asc. split_and!; [done..|].
  destruct Hp as (_ & _ & _ & Hm). by apply matches_within_tolerance.
Qed.

(** X11. A target that is not a finite number, NaN or an infinity, matches
    no ascendant: whatever the ephemeris answers, the search returns no
    time. *)
Theorem non_finite_target_never_matches
    fuel year month day utc_offset lat lon horary_asc_deg ayanamsa w :
  sf_is_finite (Prim2SF horary_asc_deg) = false →
  (∀ asc, matches asc horary_asc_deg = false) ∧
  ∀ dt, (find_exact_ascendant_time fuel year month day utc_offset lat lon
           horary_asc_deg ayanamsa w).1 ≠ Returned (Some dt).
Proof.
  intros Hnf.
  assert (Hno : ∀ asc, matches asc horary_asc_deg = false).
  { intros asc. destruct (matches asc horary_asc_deg) eqn:Hm; [|done].
    apply matches_finite in Hm as [_ Hm]. congruence. }
  split; [done|]. intros dt Hrun.
  destruct (find_exact_ascendant_time _ _ _ _ _ _ _ _ _ w) as [r w'] eqn:Hfind.
  cbn in Hrun. subst r.
  destruct (find_returned _ _ _ _ _ _ _ _ _ _ _ _ Hfind) as (mode & jd_start & Hsetup).
  destruct (find_setup fuel _ _ _ _ lat lon horary_asc_deg _ _ _ w Hsetup) as (w1 & Hscan & Hw1 & _).
  rewrite Hscan in Hfind.
  destruct (scan_returned mode _ _ _ _ _ _ _ _ _ _ Hw1 Hfind)
    as (k & Hk & Hmiss & [asc (_ & _ & _ & Hm)] & _).
  by rewrite Hno in Hm.
Qed.

End Acceptance.

Lemma returned_time_is_within_tolerance_witness :
  (find_exact_ascendant_time (swe := sample_day) 10 2024 2 5 5.5 11.02 76.98 0.00125
     "Krishnamurti" initial_world).1 = Returned (Some (DateTime 2024 2 5 0 0 0 300058)) ∧
  ∃ asc, within_tolerance asc 0.00125.
Proof.
  assert (Hrun : (find_exact_ascendant_time (swe := sample_day) 10 2024 2 5 5.5 11.02 76.98
                    0.00125 "Krishnamurti" initial_world).1
                 = Returned (Some (DateTime 2024 2 5 0 0 0 300058))) by (by vm_compute).
  split; [exact Hrun|].
  destruct (returned_time_is_within_tolerance (swe := sample_day) 10 2024 2 5 5.5 11.02 76.98
              0.00125 "Krishnamurti" initial_world _ Hrun)
    as (mode & jd_start & k & asc & _ & _ & Hclose).
  exists asc. exact Hclose.
Defined.

Lemma non_finite_target_never_matches_witness :
  sf_is_finite (Prim2SF nan) = false ∧ matches 0 nan = false ∧ matches nan nan = false.
Proof.
  assert (Hnf : sf_is_finite (Prim2SF nan) = false) by reflexivity.
  split; [exact Hnf|].
  pose proof (proj1 (non_finite_target_never_matches (swe := sample_day) 10 2024 2 5 5.5
                       11.02 76.98 nan "Krishnamurti" initial_world Hnf)) as Hno.
  split; [exact (Hno 0) | exact (Hno nan)].
Defined.




Section Binary64Midpoint.
Local Open Scope Z_scope.

Lemma rne_tie_even m n :
  0 <= m → 0 < n → 2 * (m mod 2 ^ n) <= 2 ^ n → Z.odd (m / 2 ^ n) = false →
  rne m n = m / 2 ^ n.
Proof.
  intros Hm Hn Hrem Hev. unfold rne, rne_up.
  replace (2 ^ n <? 2 * (m mod 2 ^ n)) with false by (symmetry; apply Z.ltb_ge; lia).
  rewrite Hev, andb_false_r. simpl. lia.
Qed.

(** A number up to the midpoint below [my * 2^ey], [my] odd, is rounded
    below [my * 2^ey]. *)
Lemma round_below_midpoint p ez my ey :
  -1074 <= ez → canonical my ey → -1074 < ey → 2 ^ 52 < Z.pos my → Z.odd (Z.pos my) = true →
  scaled p ez <= (2 * Z.pos my - 1) * 2 ^ (ey - 1 + 1074) →
  SFltb (binary_round prec emax false p ez) (S754_finite false my ey) = true.
Proof.
  intros Hez Hy Hey Hmy Hodd Hmid.
  pose proof (canonical_range _ _ Hy) as [Heyr Hmy53].
  assert (Hhalf : 2 ^ (ey + 1074) = 2 * 2 ^ (ey - 1 + 1074)).
  { rewrite <- Z.pow_succ_r by lia. f_equal. lia. }
  pose proof (pow2_pos (ey - 1 + 1074) ltac:(lia)) as Hph.
  assert (Hle : scaled p ez <= scaled my ey).
  { unfold scaled at 2. rewrite Hhalf. nia. }
  assert (Hey' : -1074 <= ey) by lia.
  pose proof (digits_scaled_le _ _ _ _ Hez Hey' Hle) as Hd.
  apply b64_fexp_mono in Hd. destruct Hy as [Hy1 Hy2]. rewrite Hy1 in Hd.
  set (e' := b64_fexp (Z.pos (digits2_pos p) + ez)) in *.
  assert (He'min : -1074 <= e') by (unfold e', b64_fexp; lia).
  destruct (Z_le_gt_dec e' ez) as [Hexact|Hin].
  - destruct (binary_round_exact false p ez Hexact) as (mz & Hmz & _ & ->). fold e' in Hmz |- *.
    replace (e' <=? 971) with true by (symmetry; apply Z.leb_le; lia).
    apply SFltb_pos.
    destruct (Z.eq_dec e' ey) as [Heq|]; [right|left; lia]. split; [done|].
    rewrite (scaled_split p ez ey) in Hmid by lia. rewrite Heq in Hmz. rewrite <- Hmz in Hmid.
    rewrite Hhalf in Hmid. nia.
  - destruct (binary_round_inexact false p ez Hez ltac:(fold e'; lia)) as [Hq ->]. fold e' in Hq |- *.
    set (n := e' - ez) in *.
    destruct (rne_cases (Z.pos p) n ltac:(lia) ltac:(lia)) as (Hdown & _ & Hb).
    pose proof (rne_tie_even (Z.pos p) n ltac:(lia) ltac:(lia)) as Htie.
    set (m1 := rne (Z.pos p) n) in *.
    assert (Hpn : 0 < 2 ^ n) by (apply Z.pow_pos_nonneg; lia).
    assert (Hcase : e' = ey → m1 < Z.pos my).
    { intros Heq.
      assert (Hp : 2 * Z.pos p <= (2 * Z.pos my - 1) * 2 ^ n).
      { unfold scaled in Hmid.
        assert (Hsplit : 2 ^ (ey - 1 + 1074) * 2 = 2 ^ n * 2 ^ (ez + 1074)).
        { rewrite <- Z.pow_add_r by lia. rewrite Z.mul_comm, <- Z.pow_succ_r by lia.
          f_equal. lia. }
        pose proof (pow2_pos (ez + 1074) ltac:(lia)). nia. }
      pose proof (Z.div_mod (Z.pos p) (2 ^ n) ltac:(lia)) as Hdm.
      pose proof (Z.mod_pos_bound (Z.pos p) (2 ^ n) ltac:(lia)) as Hrem.
      set (q := Z.pos p / 2 ^ n) in *. set (r := Z.pos p mod 2 ^ n) in *.
      assert (Hq1 : q <= Z.pos my - 1) by nia.
      destruct (Z.eq_dec q (Z.pos my - 1)) as [Hqe|]; [|lia].
      assert (Hr : 2 * r <= 2 ^ n) by nia.
      rewrite Htie; [lia | done |].
      rewrite Hqe, Z.sub_1_r, Z.odd_pred. by rewrite <- Z.negb_odd, Hodd. }
    destruct (m1 <? 2 ^ 53) eqn:Hlt.
    + apply Z.ltb_lt in Hlt.
      replace (e' <=? 971) with true by (symmetry; apply Z.leb_le; lia).
      apply SFltb_pos.
      destruct (Z.eq_dec e' ey) as [Heq|]; [right|left; lia]. split; [done|].
      rewrite Z2Pos.id by lia. auto.
    + apply Z.ltb_ge in Hlt.
      assert (e' < ey).
      { destruct (Z.eq_dec e' ey) as [Heq|]; [|lia]. specialize (Hcase Heq). lia. }
      replace (e' + 1 <=? 971) with true by (symmetry; apply Z.leb_le; lia).
      apply SFltb_pos.
      destruct (Z.eq_dec (e' + 1) ey) as [Heq|]; [right|left; lia]. split; [done|].
      change (Z.pos (2 ^ 52)) with (2 ^ 52). lia.
Qed.

(** Two finite numbers within reach of each other pass the test once
    their difference is rounded. *)
Lemma SF64sub_near a t :
  SpecFloat.valid_binary prec emax a = true → SpecFloat.valid_binary prec emax t = true →
  sf_is_finite a = true → sf_is_finite t = true →
  Z.abs (sf_exact a - sf_exact t) <= tolerance_reach →
  SFltb (SFabs (SF64sub a t)) (S754_finite false 7378697629483821 (-66)) = true.
Proof.
  intros Hva Hvt Hfa Hft Hnear.
  assert (Htol : canonical 7378697629483821 (-66)) by (by apply (valid_canonical false)).
  assert (Hreach : tolerance_reach < scaled 7378697629483821 (-66)) by (by vm_compute).
  assert (Hmid : tolerance_reach = (2 * Z.pos 7378697629483821 - 1) * 2 ^ (-66 - 1 + 1074))
    by (by vm_compute).
  assert (Hone : ∀ m e, canonical m e → scaled m e <= tolerance_reach →
            SFltb (S754_finite false m e) (S754_finite false 7378697629483821 (-66)) = true).
  { intros m e Hc Hm. apply SFltb_pos.
    pose proof (lex_scaled_le 7378697629483821 (-66) m e Htol Hc) as Hlex. lia. }
  set (R := tolerance_reach) in *. clearbody R.
  destruct a as [sa| | |sa ma ea], t as [st| | |st mt et]; try done.
  - by destruct sa, st.
  - apply valid_canonical in Hvt.
    replace (SFabs (SF64sub (S754_zero sa) (S754_finite st mt et))) with (S754_finite false mt et)
      by (by destruct sa, st).
    apply Hone; [done|]. simpl in Hnear. destruct st; simpl in Hnear; unfold scaled in *; lia.
  - apply valid_canonical in Hva.
    replace (SFabs (SF64sub (S754_finite sa ma ea) (S754_zero st))) with (S754_finite false ma ea)
      by (by destruct sa, st).
    apply Hone; [done|]. simpl in Hnear. destruct sa; simpl in Hnear; unfold scaled in *; lia.
  - apply valid_canonical in Hva, Hvt.
    pose proof (canonical_range _ _ Hva) as [Hea _].
    pose proof (canonical_range _ _ Hvt) as [Het _].
    unfold SF64sub, SFsub. rewrite !shl_align_fst by lia.
    set (ez := Z.min ea et).
    assert (Hez : -1074 <= ez) by lia.
    simpl in Hnear. rewrite (scaled_split ma ea ez), (scaled_split mt et ez) in Hnear by lia.
    set (Ma := Z.pos ma * 2 ^ (ea - ez)) in *. set (Mt := Z.pos mt * 2 ^ (et - ez)) in *.
    pose proof (pow2_pos (ez + 1074) ltac:(lia)) as HpB.
    set (V := cond_Zopp sa Ma - cond_Zopp st Mt).
    assert (HV : Z.abs (cond_Zopp sa (Ma * 2 ^ (ez + 1074)) - cond_Zopp st (Mt * 2 ^ (ez + 1074)))
                 = Z.abs V * 2 ^ (ez + 1074)).
    { unfold V. destruct sa, st; simpl; nia. }
    rewrite HV in Hnear.
    destruct V as [|p|p] eqn:EV; simpl binary_normalize.
    + done.
    + rewrite SFabs_binary_round by done.
      apply round_below_midpoint; try done; try lia. unfold scaled. simpl Z.abs in Hnear. lia.
    + rewrite SFabs_binary_round by done.
      apply round_below_midpoint; try done; try lia. unfold scaled. simpl Z.abs in Hnear. lia.
Qed.

(** Beyond reach the rounded difference is the double [0.0001] or more. *)
Lemma SF64sub_beyond a t :
  SpecFloat.valid_binary prec emax a = true → SpecFloat.valid_binary prec emax t = true →
  sf_is_finite a = true → sf_is_finite t = true →
  tolerance_reach < Z.abs (sf_exact a - sf_exact t) →
  SFltb (SFabs (SF64sub a t)) (S754_finite false 7378697629483821 (-66)) = false.
Proof.
  intros Hva Hvt Hfa Hft Hfar.
  assert (Htol : canonical 7378697629483821 (-66)) by (by apply (valid_canonical false)).
  assert (Hpredc : canonical 7378697629483820 (-66)) by (by apply (valid_canonical false)).
  assert (Hpredv : scaled 7378697629483820 (-66) <= tolerance_reach) by (by vm_compute).
  assert (Hmid : tolerance_reach = (2 * Z.pos 7378697629483821 - 1) * 2 ^ (-66 - 1 + 1074))
    by (by vm_compute).
  assert (H0 : 0 <= tolerance_reach) by (by vm_compute).
  assert (Hone : ∀ m e, canonical m e → tolerance_reach < scaled m e →
            SFltb (S754_finite false m e) (S754_finite false 7378697629483821 (-66)) = false).
  { intros m e Hc Hm. destruct (SFltb _ _) eqn:E; [|done]. exfalso.
    apply SFltb_pos in E.
    assert (Hlex : e < -66 ∨ (e = -66 ∧ Z.pos m <= Z.pos 7378697629483820)) by lia.
    apply (lex_scaled_le m e 7378697629483820 (-66) Hc Hpredc) in Hlex. lia. }
  set (R := tolerance_reach) in *. clearbody R.
  destruct a as [sa| | |sa ma ea], t as [st| | |st mt et]; try done.
  - simpl in Hfar. lia.
  - apply valid_canonical in Hvt.
    replace (SFabs (SF64sub (S754_zero sa) (S754_finite st mt et))) with (S754_finite false mt et)
      by (by destruct sa, st).
    apply Hone; [done|]. simpl in Hfar. destruct st; simpl in Hfar; unfold scaled in *; lia.
  - apply valid_canonical in Hva.
    replace (SFabs (SF64sub (S754_finite sa ma ea) (S754_zero st))) with (S754_finite false ma ea)
      by (by destruct sa, st).
    apply Hone; [done|]. simpl in Hfar. destruct sa; simpl in Hfar; unfold scaled in *; lia.
  - apply valid_canonical in Hva, Hvt.
    pose proof (canonical_range _ _ Hva) as [Hea _].
    pose proof (canonical_range _ _ Hvt) as [Het _].
    unfold SF64sub, SFsub. rewrite !shl_align_fst by lia.
    set (ez := Z.min ea et).
    assert (Hez : -1074 <= ez) by lia.
    simpl in Hfar. rewrite (scaled_split ma ea ez), (scaled_split mt et ez) in Hfar by lia.
    set (Ma := Z.pos ma * 2 ^ (ea - ez)) in *. set (Mt := Z.pos mt * 2 ^ (et - ez)) in *.
    pose proof (pow2_pos (ez + 1074) ltac:(lia)) as HpB.
    set (V := cond_Zopp sa Ma - cond_Zopp st Mt).
    assert (HV : Z.abs (cond_Zopp sa (Ma * 2 ^ (ez + 1074)) - cond_Zopp st (Mt * 2 ^ (ez + 1074)))
                 = Z.abs V * 2 ^ (ez + 1074)).
    { unfold V. destruct sa, st; simpl; nia. }
    rewrite HV in Hfar.
    destruct V as [|p|p] eqn:EV; simpl binary_normalize.
    + simpl in Hfar. lia.
    + rewrite SFabs_binary_round by done.
      apply round_above_midpoint; try done; try lia. unfold scaled. simpl Z.abs in Hfar. lia.
    + rewrite SFabs_binary_round by done.
      apply round_above_midpoint; try done; try lia. unfold scaled. simpl Z.abs in Hfar. lia.
Qed.

End Binary64Midpoint.

Lemma matches_iff_within_reach asc_lon_deg horary_asc_deg :
  matches asc_lon_deg horary_asc_deg = true ↔ within_reach asc_lon_deg horary_asc_deg.
Proof.
  split.
  - intros Hm. destruct (matches_finite _ _ Hm) as [Ha Ht]. split_and!; [done..|].
    destruct (Z_le_gt_dec
      (Z.abs (sf_exact (Prim2SF asc_lon_deg) - sf_exact (Prim2SF horary_asc_deg)))
      tolerance_reach) as [?|Hfar]; [done|]. exfalso.
    unfold matches in Hm. rewrite ltb_spec, abs_spec, sub_spec in Hm.
    change (Prim2SF 0.0001) with (S754_finite false 7378697629483821 (-66)) in Hm.
    rewrite SF64sub_beyond in Hm;
      [done | apply Prim2SF_valid | apply Prim2SF_valid | done | done | lia].
  - intros (Ha & Ht & Hnear). unfold matches. rewrite ltb_spec, abs_spec, sub_spec.
    change (Prim2SF 0.0001) with (S754_finite false 7378697629483821 (-66)).
    apply SF64sub_near; auto using Prim2SF_valid.
Qed.

Section ExactAcceptance.
Context {swe : Swisseph}.

(** X12. What the test of line 87 accepts, exactly.  With the rounding of
    the subtraction counted in, an ascendant matches the target when, and
    only when, both are finite and their distance as real numbers is at
    most the midpoint between the double [0.0001] and the double before
    it.  A probed instant within that reach ends the search with its
    civil time; one beyond it sends the loop to the next instant.  The
    reach lies a hair under a ten-thousandth: the doubles [0.0001] and
    [3 * 2^-69] are less than 0.0001 apart and do not match. *)
Theorem acceptance_is_exact
    fuel utc_offset lat lon horary_asc_deg jd_end mode t dt asc w :
  sid_mode w = Some mode →
  probe mode utc_offset lat lon horary_asc_deg jd_end t dt asc
        (matches asc horary_asc_deg) →
  (matches asc horary_asc_deg = true ↔ within_reach asc horary_asc_deg) ∧
  (within_reach asc horary_asc_deg →
     (scan (S fuel) utc_offset lat lon horary_asc_deg jd_end t w).1 = Returned (Some dt)) ∧
  (¬ within_reach asc horary_asc_deg →
     ∃ w', scan (S fuel) utc_offset lat lon horary_asc_deg jd_end t w =
             scan fuel utc_offset lat lon horary_asc_deg jd_end (t + increment) w') ∧
  within_tolerance 0.0001 (3 / 590295810358705651712) ∧
  matches 0.0001 (3 / 590295810358705651712) = false.
Proof.
  intros Hw Hp. split_and!.
  - apply matches_iff_within_reach.
  - intros Hnear%matches_iff_within_reach. rewrite Hnear in Hp.
    by destruct (scan_hit mode _ _ _ _ _ fuel t w dt asc Hw Hp) as (w' & -> & _).
  - intros Hfar. destruct (matches asc horary_asc_deg) eqn:Hm.
    { by apply matches_iff_within_reach in Hm. }
    destruct (scan_miss mode _ _ _ _ _ fuel t w dt asc Hw Hp) as (w' & Hrun & _).
    by exists w'.
  - split; [reflexivity|]. split; [reflexivity|]. by vm_compute.
  - by vm_compute.
Qed.

End ExactAcceptance.

Lemma acceptance_is_exact_witness :
  within_reach 0 0.00005 ∧
  (scan (swe := sample_day) 1 5.5 11.02 76.98 0.00005 (2460345.5 + 1) 2460345.5
     (World (Some SIDM_KRISHNAMURTI) [])).1 = Returned (Some (DateTime 2024 2 5 0 0 0 0)).
Proof.
  assert (Hnear : within_reach 0 0.00005).
  { split; [reflexivity|]. split; [reflexivity|]. by vm_compute. }
  split; [exact Hnear|].
  refine (proj1 (proj2 (acceptance_is_exact (swe := sample_day) 0 5.5 11.02 76.98
                          0.00005 (2460345.5 + 1) SIDM_KRISHNAMURTI 2460345.5
                          (DateTime 2024 2 5 0 0 0 0) 0
                          (World (Some SIDM_KRISHNAMURTI) []) eq_refl _)) Hnear).
  split_and!; [by vm_compute | | | done].
  - apply returns_jd_to_datetime. by vm_compute.
  - exists (sample_cusps 0). split; [|done]. apply returns_houses_ex. by vm_compute.
Defined.

(** ** The pace of the loop counter *)

Section WindowPace.
Local Open Scope Z_scope.

(** A tenth of a second moves the counter by 4970 to 4972 units of [2^-32]. *)
Lemma add_increment_pace m e :
  canonical m e → -32 <= e <= -30 → (e = -30 → Z.pos m <= 2 ^ 53 - 2 ^ 30) →
  ∃ m' e',
    SF64add (S754_finite false m e) (S754_finite false 5465701947765793 (-72)) =
      S754_finite false m' e' ∧
    canonical m' e' ∧ e <= e' <= -30 ∧
    ord m e + 4970 <= ord m' e' <= ord m e + 4972.
Proof.
  intros Hm He H30.
  pose proof (canonical_range _ _ Hm) as [_ Hm53].
  pose proof (canonical_normal _ _ Hm ltac:(lia)) as Hm52.
  destruct (SF64add_small m e 5465701947765793 (-72) Hm ltac:(by apply (valid_canonical false)))
    as (n & m' & e' & Hn & Hq & -> & Hc' & He' & Hr); try lia.
  exists m', e'. split; [done|]. split; [done|].
  pose proof (canonical_range _ _ Hc') as [_ Hm'53].
  pose proof (canonical_normal _ _ Hc' ltac:(lia)) as Hm'52.
  assert (Hcases : e = -32 ∨ e = -31 ∨ e = -30) by lia.
  destruct Hcases as [-> | [-> | ->]]; destruct Hn as [-> | ->]; destruct He' as [-> | ->].
  all: round_case.
Qed.

(** A day moves it by [2^32], give or take two. *)
Lemma add_one_pace m e :
  canonical m e → -32 <= e <= -30 → ord m e <= (2 ^ 23 - 2) * 2 ^ 32 →
  ∃ m' e',
    SF64add (S754_finite false m e) (S754_finite false 4503599627370496 (-52)) =
      S754_finite false m' e' ∧
    canonical m' e' ∧ e <= e' <= -30 ∧
    (e' = -30 → Z.pos m' <= 2 ^ 53 - 2 ^ 30) ∧
    ord m e + 2 ^ 32 - 2 <= ord m' e'.
Proof.
  intros Hm He Hord.
  pose proof (canonical_range _ _ Hm) as [_ Hm53].
  pose proof (canonical_normal _ _ Hm ltac:(lia)) as Hm52.
  destruct (SF64add_small m e 4503599627370496 (-52) Hm ltac:(by apply (valid_canonical false)))
    as (n & m' & e' & Hn & Hq & -> & Hc' & He' & Hr); try lia.
  exists m', e'. split; [done|]. split; [done|].
  pose proof (canonical_range _ _ Hc') as [_ Hm'53].
  pose proof (canonical_normal _ _ Hc' ltac:(lia)) as Hm'52.
  unfold ord in Hord.
  assert (Hcases : e = -32 ∨ e = -31 ∨ e = -30) by lia.
  destruct Hcases as [-> | [-> | ->]]; destruct Hn as [-> | ->]; destruct He' as [-> | ->].
  all: match goal with
  | H : _ = rne ?p ?n |- _ =>
      let Hlo := fresh in let Hhi := fresh in let Hb := fresh in
      destruct (rne_cases p n ltac:(lia) ltac:(lia)) as (Hlo & Hhi & Hb);
      unfold ord; ltb_numerals; pow2_numerals;
      Z.div_mod_to_equations; split_and!; try lia
  end.
Qed.

(** In the window the order of the doubles is the order of their
    positions. *)
Lemma ord_lex m1 e1 m2 e2 :
  canonical m1 e1 → canonical m2 e2 → -32 <= e1 <= -30 → -32 <= e2 <= -30 →
  (e1 < e2 ∨ (e1 = e2 ∧ Z.pos m1 <= Z.pos m2)) ↔ ord m1 e1 <= ord m2 e2.
Proof.
  intros H1 H2 He1 He2.
  pose proof (canonical_range _ _ H1) as [_ Hm1].
  pose proof (canonical_range _ _ H2) as [_ Hm2].
  pose proof (canonical_normal _ _ H1 ltac:(lia)) as Hn1.
  pose proof (canonical_normal _ _ H2 ltac:(lia)) as Hn2.
  assert (Hc1 : e1 = -32 ∨ e1 = -31 ∨ e1 = -30) by lia.
  assert (Hc2 : e2 = -32 ∨ e2 = -31 ∨ e2 = -30) by lia.
  destruct Hc1 as [-> | [-> | ->]]; destruct Hc2 as [-> | [-> | ->]];
    unfold ord; pow2_numerals; lia.
Qed.

Lemma ord_lex_lt m1 e1 m2 e2 :
  canonical m1 e1 → canonical m2 e2 → -32 <= e1 <= -30 → -32 <= e2 <= -30 →
  ord m1 e1 < ord m2 e2 → e1 < e2 ∨ (e1 = e2 ∧ Z.pos m1 < Z.pos m2).
Proof.
  intros H1 H2 He1 He2.
  pose proof (canonical_range _ _ H1) as [_ Hm1].
  pose proof (canonical_range _ _ H2) as [_ Hm2].
  pose proof (canonical_normal _ _ H1 ltac:(lia)) as Hn1.
  pose proof (canonical_normal _ _ H2 ltac:(lia)) as Hn2.
  assert (Hc1 : e1 = -32 ∨ e1 = -31 ∨ e1 = -30) by lia.
  assert (Hc2 : e2 = -32 ∨ e2 = -31 ∨ e2 = -30) by lia.
  destruct Hc1 as [-> | [-> | ->]]; destruct Hc2 as [-> | [-> | ->]];
    unfold ord; pow2_numerals; lia.
Qed.

(** A position no later than the end of a window has the shape the
    increment lemma asks for. *)
Lemma ord_shape m e mE eE :
  canonical m e → canonical mE eE → -32 <= e → -32 <= eE <= -30 →
  (eE = -30 → Z.pos mE <= 2 ^ 53 - 2 ^ 30) →
  (e < eE ∨ (e = eE ∧ Z.pos m <= Z.pos mE)) →
  e <= -30 ∧ (e = -30 → Z.pos m <= 2 ^ 53 - 2 ^ 30).
Proof. lia. Qed.

End WindowPace.

(** The window at work: from a counter [t] inside it, what the next
    increment does. *)
Lemma window_step (jd_end t : float) mE eE m e :
  Prim2SF jd_end = S754_finite false mE eE → canonical mE eE → (-32 <= eE <= -30)%Z →
  (eE = -30 → Z.pos mE <= 2 ^ 53 - 2 ^ 30)%Z →
  Prim2SF t = S754_finite false m e → canonical m e → (-32 <= e)%Z →
  (t <=? jd_end) = true →
  ∃ m' e', Prim2SF (t + increment) = S754_finite false m' e' ∧ canonical m' e' ∧
           (-32 <= e' <= -30)%Z ∧ (e <= -30)%Z ∧
           (ord m e + 4970 <= ord m' e' <= ord m e + 4972)%Z ∧
           (t <? t + increment) = true.
Proof.
  intros HE HcE HeE HmE Ht Hc He Hin.
  rewrite leb_spec, Ht, HE in Hin. apply SFleb_pos in Hin.
  destruct (ord_shape m e mE eE Hc HcE He HeE HmE Hin) as [He30 Hm30].
  destruct (add_increment_pace m e Hc ltac:(lia) Hm30) as (m' & e' & Hadd & Hc' & He' & Hpace).
  exists m', e'. rewrite ltb_spec, add_spec, Ht.
  change (Prim2SF increment) with (S754_finite false 5465701947765793 (-72)).
  rewrite Hadd. split_and!; try done; try lia.
  apply SFltb_pos. apply ord_lex_lt; try done; lia.
Qed.

(** The instants of a scan while they are inside the window: their shape,
    how far they have got, and that each is later than the one before. *)
Lemma window_pace (jd_end : float) mE eE :
  Prim2SF jd_end = S754_finite false mE eE → canonical mE eE → (-32 <= eE <= -30)%Z →
  (eE = -30 → Z.pos mE <= 2 ^ 53 - 2 ^ 30)%Z →
  ∀ (k : nat) (t : float) m e,
    Prim2SF t = S754_finite false m e → canonical m e → (-32 <= e)%Z →
    (∀ j, (j < k)%nat → (instant t j <=? jd_end) = true) →
    ∃ mk ek, Prim2SF (instant t k) = S754_finite false mk ek ∧ canonical mk ek ∧
             (-32 <= ek)%Z ∧
             (ord m e + 4970 * Z.of_nat k <= ord mk ek <= ord m e + 4972 * Z.of_nat k)%Z ∧
             ∀ j, (j < k)%nat → (instant t j <? instant t (S j)) = true.
Proof.
  intros HE HcE HeE HmE k. induction k as [|k IH]; intros t m e Ht Hc He Hwin.
  { exists m, e. split_and!; try done; try lia. }
  destruct (window_step jd_end t mE eE m e HE HcE HeE HmE Ht Hc He (Hwin 0%nat ltac:(lia)))
    as (m' & e' & Ht' & Hc' & He' & _ & Hpace & Hlt).
  destruct (IH (t + increment) m' e' Ht' Hc' ltac:(lia)) as (mk & ek & Hk & Hck & Hek & Hord & Hinc).
  { intros j Hj. rewrite <- instant_succ. apply Hwin. lia. }
  exists mk, ek. rewrite instant_succ. split_and!; try done; try lia.
  intros [|j] Hj; [exact Hlt|].
  rewrite (instant_succ t j), (instant_succ t (S j)). apply Hinc. lia.
Qed.

(** The guard of the loop holds for the first 863,831 instants. *)
Lemma window_holds (jd_start : float) (k : nat) :
  (1048576 <=? jd_start) = true → (jd_start <=? 8388606) = true →
  (Z.of_nat k < 863831)%Z → (instant jd_start k <=? jd_start + 1) = true.
Proof.
  intros Hlo Hhi.
  destruct (julian_day_shape jd_start Hlo Hhi) as (m & e & Hs & Hc & He & Hord).
  destruct (add_one_pace m e Hc He Hord) as (mE & eE & Hadd & HcE & HeE & HmE & Hday).
  assert (HE : Prim2SF (jd_start + 1) = S754_finite false mE eE).
  { rewrite add_spec, Hs. exact Hadd. }
  induction k as [k IH] using lt_wf_ind. intros Hk.
  destruct (window_pace (jd_start + 1) mE eE HE HcE ltac:(lia) HmE k jd_start m e Hs Hc ltac:(lia))
    as (mk & ek & Hik & Hck & Hek & Hpace & _).
  { intros j Hj. apply IH; lia. }
  rewrite leb_spec, Hik, HE. apply SFleb_pos.
  assert (Hle : (ord mk ek <= ord mE eE)%Z) by lia.
  destruct (Z_le_gt_dec ek (-30)) as [Hek30|Hek30].
  - apply ord_lex; try done; lia.
  - exfalso. pose proof (canonical_normal _ _ Hck ltac:(lia)) as Hmk.
    pose proof (canonical_range _ _ HcE) as [_ HmE53].
    assert (Hp : (2 ^ (-29 + 32) <= 2 ^ (ek + 32))%Z) by (apply Z.pow_le_mono_r; lia).
    assert (HcE' : (eE = -32 ∨ eE = -31 ∨ eE = -30)%Z) by lia.
    unfold ord in Hle. destruct HcE' as [-> | [-> | ->]]; pow2_numerals; nia.
Qed.

Section ScanPace.
Context {swe : Swisseph}.

(** X13. For a start between [2^20] and [2^23 - 2], where the Julian days
    of the years 1 to 9999 lie, each instant probed is later than the one
    before: no instant is probed twice. *)
Theorem probed_instants_increase jd_start k :
  (1048576 <=? jd_start) = true → (jd_start <=? 8388606) = true →
  (instant jd_start k <=? jd_start + 1) = true →
  (instant jd_start k <? instant jd_start (S k)) = true.
Proof.
  intros Hlo Hhi Hin.
  destruct (julian_day_shape jd_start Hlo Hhi) as (m & e & Hs & Hc & He & Hord).
  destruct (add_one_pace m e Hc He Hord) as (mE & eE & Hadd & HcE & HeE & HmE & Hday).
  assert (HE : Prim2SF (jd_start + 1) = S754_finite false mE eE).
  { rewrite add_spec, Hs. exact Hadd. }
  assert (Hnum : sf_is_nan (Prim2SF jd_start) = false) by (by rewrite Hs).
  destruct (window_pace (jd_start + 1) mE eE HE HcE ltac:(lia) HmE (S k) jd_start m e
              Hs Hc ltac:(lia)) as (_ & _ & _ & _ & _ & _ & Hinc).
  { intros j Hj. apply (window_prefix _ _ j k); [done|lia|done]. }
  apply Hinc. lia.
Qed.

(** X14. What a day without a match costs.  For a start between [2^20]
    and [2^23 - 2], a search that returns [None] has asked for the
    ascendant at least 863,831 and at most 864,005 times. *)
Theorem no_match_costs
    fuel year month day utc_offset lat lon horary_asc_deg ayanamsa mode jd_start w :
  setup year month day utc_offset ayanamsa mode jd_start →
  (1048576 <=? jd_start) = true → (jd_start <=? 8388606) = true →
  let run := find_exact_ascendant_time fuel year month day utc_offset lat lon
               horary_asc_deg ayanamsa w in
  run.1 = Returned None →
  ∃ n, houses_calls (trace run.2) = probed jd_start n ++ houses_calls (trace w) ∧
       (863831 <= Z.of_nat n <= 864005)%Z.
Proof.
  intros Hsetup Hlo Hhi run Hrun. subst run.
  destruct (find_setup fuel _ _ _ _ lat lon horary_asc_deg _ _ _ w Hsetup) as (w1 & Hfind & Hw1 & Hc1).
  rewrite Hfind in Hrun |- *.
  destruct (scan _ _ _ _ _ _ _ w1) as [r w'] eqn:Hscan. cbn in Hrun. subst r.
  destruct (scan_returned mode _ _ _ _ _ _ _ _ _ _ Hw1 Hscan) as (n & _ & Hmiss & Hout & Hcalls).
  exists n. cbn. rewrite Hcalls, Hc1. split; [done|]. split.
  - destruct (Z_lt_le_dec (Z.of_nat n) 863831) as [Hn|]; [|done].
    rewrite (window_holds jd_start n Hlo Hhi Hn) in Hout. done.
  - destruct (window_closes jd_start Hlo Hhi) as (k & Hk & Hclosed).
    destruct (Nat.le_gt_cases n k) as [|Hgt]; [lia|].
    destruct (Hmiss k Hgt) as (? & ? & Hin & _). by rewrite Hin in Hclosed.
Qed.

End ScanPace.


Lemma probed_instants_increase_witness :
  (1048576 <=? 2460345.5) = true ∧ (2460345.5 <=? 8388606) = true ∧
  (instant 2460345.5 3 <=? 2460345.5 + 1) = true ∧
  (instant 2460345.5 3 <? instant 2460345.5 4) = true.
Proof.
  assert (Hlo : (1048576 <=? 2460345.5) = true) by (by vm_compute).
  assert (Hhi : (2460345.5 <=? 8388606) = true) by (by vm_compute).
  assert (Hin : (instant 2460345.5 3 <=? 2460345.5 + 1) = true) by (by vm_compute).
  split; [exact Hlo|]. split; [exact Hhi|]. split; [exact Hin|].
  exact (probed_instants_increase 2460345.5 3 Hlo Hhi Hin).
Defined.

(** The still day of 2024 has no match for 200 degrees. *)
Lemma still_day_not_found :
  (find_exact_ascendant_time (swe := still_day) (N.to_nat 863832) 2024 2 5 5.5 11.02 76.98 200
     "Krishnamurti" initial_world).1 = Returned None.
Proof.
  destruct (find_setup (swe := still_day) (N.to_nat 863832) 2024 2 5 5.5 11.02 76.98 200
              "Krishnamurti" SIDM_KRISHNAMURTI 2460345.5 initial_world still_day_setup)
    as (w1 & -> & Hw1 & _).
  destruct (scan_no_hit (swe := still_day) SIDM_KRISHNAMURTI 5.5 11.02 76.98 200
              (2460345.5 + 1) (N.to_nat 863831) (N.to_nat 863832) 2460345.5 w1 Hw1)
    as (w' & -> & _).
  - lia.
  - change 863831%N with (N.succ 863830). rewrite N2Nat.inj_succ.
    apply still_day_misses; by vm_compute.
  - by vm_compute.
  - reflexivity.
Qed.

Lemma no_match_costs_witness :
  (1048576 <=? 2460345.5) = true ∧ (2460345.5 <=? 8388606) = true ∧
  ∃ n, houses_calls
         (trace (find_exact_ascendant_time (swe := still_day) (N.to_nat 863832) 2024 2 5 5.5
                   11.02 76.98 200 "Krishnamurti" initial_world).2)
       = probed 2460345.5 n ++ [] ∧
       (863831 <= Z.of_nat n <= 864005)%Z.
Proof.
  assert (Hlo : (1048576 <=? 2460345.5) = true) by (by vm_compute).
  assert (Hhi : (2460345.5 <=? 8388606) = true) by (by vm_compute).
  split; [exact Hlo|]. split; [exact Hhi|].
  exact (no_match_costs (swe := still_day) (N.to_nat 863832) 2024 2 5 5.5 11.02 76.98 200
           "Krishnamurti" SIDM_KRISHNAMURTI 2460345.5 initial_world
           still_day_setup Hlo Hhi still_day_not_found).
Defined.

